(** * Geospatial proximity cache: temporal decay, geohash cells, hit-ratio
      optimizer and the nearby-query coordinator

    A shallow embedding of the zameen-proximity-cache services
    ([decay.service.js], [proximity-cache.service.js],
    [property.services.js], [route/property.route.js]), of
    [redis.services.js] and of [utils/validation.js].

    Conventions of the embedding:
    - a JavaScript number is a real number ([R]); [Math.floor] and
      [Math.ceil] return integers ([Z]); [Math.exp] is [exp];
    - a [Date] is its time value, an integer number of milliseconds ([Z]);
      every function that reads the clock takes the instant [now];
    - the Redis server is a finite map from key names to entries; an entry
      holds either a string value or a sorted set, with an optional absolute
      expiry instant; a command on a key of the wrong type throws;
    - a stored string is the JSON text of a bucket; [JSON.stringify]
      followed by [JSON.parse] is the identity on buckets;
    - a function whose body is wrapped in [try { } catch] returns the value
      of its [catch] branch when a command throws; a function that rethrows
      returns [None] for its result;
    - the geohash library (ngeohash), the formatting of a number inside a
      template literal and the document store (the Mongo aggregation
      pipeline) are interfaces, given as type classes. *)

From Stdlib Require Import Reals Lra Lia ZArith Ascii String Sorted.
From stdpp Require Import gmap strings list.

Local Open Scope string_scope.

(** ** The Redis client *)

Module Redis.

(** What a key holds: a string value (here always the JSON text of a
    value of type [S]) or a sorted set of scored members. *)
Inductive contents (S : Type) : Type :=
| RString (s : S)
| RZSet (members : gmap string R).
Arguments RString {S} s.
Arguments RZSet {S} members.

Record entry (S : Type) : Type := Entry {
  value : contents S;
  expireAt : option Z
}.
Arguments Entry {S} value expireAt.
Arguments value {S} e.
Arguments expireAt {S} e.

Section Commands.
Context {S : Type}.

(** A key whose expiry instant has been reached is gone. *)
Definition expired (e : entry S) (now : Z) : bool :=
  match expireAt e with
  | Some t => (t <=? now)%Z
  | None => false
  end.

Definition live (db : gmap string (entry S)) (now : Z) (key : string)
  : option (entry S) :=
  match db !! key with
  | Some e => if expired e now then None else Some e
  | None => None
  end.

(** [GET key]: [None] is a thrown WRONGTYPE error, [Some None] is the
    null reply. *)
Definition get (db : gmap string (entry S)) (now : Z) (key : string)
  : option (option S) :=
  match live db now key with
  | None => Some None
  | Some e =>
      match value e with
      | RString s => Some (Some s)
      | RZSet _ => None
      end
  end.

(** [SETEX key seconds value]: overwrites whatever the key held; a
    non-positive expiry is rejected. *)
Definition setEx (db : gmap string (entry S)) (now : Z) (key : string)
    (seconds : Z) (s : S) : option (gmap string (entry S)) :=
  if (seconds <=? 0)%Z then None
  else Some (<[key := Entry (RString s) (Some (now + seconds * 1000)%Z)]> db).

(** [ZADD key score member]. *)
Definition zAdd (db : gmap string (entry S)) (now : Z) (key : string)
    (score : R) (member : string) : option (gmap string (entry S)) :=
  match live db now key with
  | None => Some (<[key := Entry (RZSet {[member := score]}) None]> db)
  | Some e =>
      match value e with
      | RZSet m => Some (<[key := Entry (RZSet (<[member := score]> m)) (expireAt e)]> db)
      | RString _ => None
      end
  end.

(** [ZREM key member]; a sorted set left empty is removed. *)
Definition zRem (db : gmap string (entry S)) (now : Z) (key : string)
    (member : string) : option (gmap string (entry S)) :=
  match live db now key with
  | None => Some db
  | Some e =>
      match value e with
      | RZSet m =>
          let m' := delete member m in
          if decide (m' = ∅) then Some (delete key db)
          else Some (<[key := Entry (RZSet m') (expireAt e)]> db)
      | RString _ => None
      end
  end.

(** [DEL key ...]. *)
Definition del (db : gmap string (entry S)) (keys : list string)
  : gmap string (entry S) :=
  foldr delete db keys.

(** [EXPIRE key seconds] acts on the one key of that exact name. *)
Definition expire (db : gmap string (entry S)) (now : Z) (key : string)
    (seconds : Z) : gmap string (entry S) :=
  match live db now key with
  | None => db
  | Some e => <[key := Entry (value e) (Some (now + seconds * 1000)%Z)]> db
  end.

(** [TYPE key]. *)
Definition type (db : gmap string (entry S)) (now : Z) (key : string) : string :=
  match live db now key with
  | None => "none"
  | Some e => match value e with RString _ => "string" | RZSet _ => "zset" end
  end.

End Commands.

(** Glob matching of [KEYS pattern]: [*] matches any run of characters,
    [?] any one character, every other character itself. (Bracket
    classes and backslash escapes are left out: the patterns of this
    program are built from geohash cells.) *)
Fixpoint glob_match (p s : string) : bool :=
  match p with
  | EmptyString => match s with EmptyString => true | String _ _ => false end
  | String c p' =>
      if Ascii.eqb c "*"%char then
        (fix star (s : string) : bool :=
           glob_match p' s ||
           match s with
           | EmptyString => false
           | String _ s' => star s'
           end) s
      else
        match s with
        | EmptyString => false
        | String d s' =>
            (Ascii.eqb c "?"%char || Ascii.eqb c d) && glob_match p' s'
        end
  end.

(** [KEYS pattern]: the live keys the pattern matches. *)
Definition keys {S : Type} (db : gmap string (entry S)) (now : Z)
    (pattern : string) : list string :=
  filter (λ k, glob_match pattern k = true ∧ is_Some (live db now k))
         (map_to_list db).*1.

End Redis.

(** ** decay.service.js: the temporal scorer *)

Module Decay.

Local Open Scope R_scope.

(** [DECAY_CONFIG] *)
Definition BASE_SCORE : R := 1.0.
Definition DECAY_FACTOR : R := 0.1.
Definition MAX_AGE_DAYS : R := 90.
Definition BOOST_PREMIUM : R := 1.2.
Definition BOOST_FEATURED : R := 1.1.
Definition BOOST_VERIFIED : R := 1.05.
Definition RECENT_maxDays : R := 7.
Definition RECENT_weight : R := 1.0.
Definition MEDIUM_maxDays : R := 30.
Definition MEDIUM_weight : R := 0.8.
Definition OLD_weight : R := 0.6.

(** The [propertyAttributes] object; a field that is absent or falsy is
    [false]. [{}] is [noAttributes]. *)
Record attributes : Type := Attributes {
  isPremium : bool;
  isFeatured : bool;
  isVerified : bool
}.

Definition noAttributes : attributes := Attributes false false false.

(** [(currentDate - propertyDate) / (1000 * 60 * 60 * 24)] *)
Definition ageInDays (now dateAdded : Z) : R :=
  IZR (now - dateAdded) / (1000 * 60 * 60 * 24).

Definition calculateTemporalScore (now dateAdded : Z)
    (propertyAttributes : attributes) : R :=
  let age := ageInDays now dateAdded in
  let score := BASE_SCORE * exp (- DECAY_FACTOR * Rmin age MAX_AGE_DAYS) in
  let score :=
    if Rle_dec age RECENT_maxDays then score * RECENT_weight
    else if Rle_dec age MEDIUM_maxDays then score * MEDIUM_weight
    else score * OLD_weight in
  let score := if isPremium propertyAttributes then score * BOOST_PREMIUM else score in
  let score := if isFeatured propertyAttributes then score * BOOST_FEATURED else score in
  let score := if isVerified propertyAttributes then score * BOOST_VERIFIED else score in
  score.

(** [Math.floor] *)
Definition Math_floor (x : R) : Z := Int_part x.

Definition calculateDynamicTTL (score : R) (baseTime : R) : Z :=
  let minTTL := baseTime * 0.5 in
  let maxTTL := baseTime * 2 in
  Math_floor (minTTL + (maxTTL - minTTL) * score).

(** The default value of the [baseTime] parameter. *)
Definition defaultBaseTime : R := 3600.

(** *** The formulas of the specification, for comparison *)

Definition clamp (x lo hi : R) : R := Rmax lo (Rmin x hi).

Definition spec_timeWeight (ageDays : R) : R :=
  if Rle_dec ageDays 7 then 1.0
  else if Rle_dec ageDays 30 then 0.8
  else 0.6.

Definition spec_boost (a : attributes) : R :=
  (if isPremium a then 1.2 else 1) *
  (if isFeatured a then 1.1 else 1) *
  (if isVerified a then 1.05 else 1).

(** The score formula, for a given way [ageOf] of deriving [ageDays] from
    the raw age in days. *)
Definition score_formula (ageOf : R -> R) (now dateAdded : Z) (a : attributes) : R :=
  let ageDays := ageOf (ageInDays now dateAdded) in
  let base := 1.0 * exp (- 0.1 * ageDays) in
  base * spec_timeWeight ageDays * spec_boost a.

(** As the specification words it: [ageDays = clamp(age, 0, 90)]. *)
Definition spec_temporalScore : Z -> Z -> attributes -> R :=
  score_formula (fun age => clamp age 0 90).

(** With the upper bound only: [ageDays = min(age, 90)]. *)
Definition upper_clamped_temporalScore : Z -> Z -> attributes -> R :=
  score_formula (fun age => Rmin age 90).

(** As the specification words it:
    [ttl = floor(minTTL + (maxTTL - minTTL) * clamp(score, 0, 1))]. *)
Definition spec_dynamicTTL (score : R) (base : R) : Z :=
  let minTTL := 0.5 * base in
  let maxTTL := 2 * base in
  Math_floor (minTTL + (maxTTL - minTTL) * clamp score 0 1).

(** *** The cached bucket *)

(** [metadata: { dateAdded, ...propertyAttributes }] *)
Record metadata : Type := Metadata {
  dateAdded : Z;
  attrs : attributes
}.

(** The object written under a cache key. *)
Record bucket (V : Type) : Type := Bucket {
  data : V;
  score : R;
  timestamp : Z;
  meta : metadata
}.
Arguments Bucket {V} data score timestamp meta.
Arguments data {V} b.
Arguments score {V} b.
Arguments timestamp {V} b.
Arguments meta {V} b.

(** The sorted set that ranks the cache keys by score. *)
Definition temporal_scores : string := "temporal_scores".

(** The module's state: the Redis connection and the [cacheHits]
    counter. *)
Record state (V : Type) : Type := State {
  client : gmap string (Redis.entry (bucket V));
  cacheHits : Z
}.
Arguments State {V} client cacheHits.
Arguments client {V} s.
Arguments cacheHits {V} s.

(** The largest number of seconds this module can hand to [SETEX]. Its
    TTL is a number computed from the score, and the score of a date in
    the future grows without bound ([Math.exp] ends at [Infinity]); the
    server reads the seconds as a signed 64-bit integer whose value in
    milliseconds has to fit too, so a TTL above [LLONG_MAX / 1000] is no
    expire time and the command throws. *)
Definition maxExpireSeconds : Z := 9223372036854775.

Section Cache.
Context {V : Type}.

(** The [setEx] of a TTL above [maxExpireSeconds] throws, like that of a
    TTL of 0 or less. *)
Definition setCacheWithTemporalDecay (db : gmap string (Redis.entry (bucket V)))
    (now : Z) (key : string) (value : V) (dateAdded : Z)
    (propertyAttributes : attributes)
  : bool * gmap string (Redis.entry (bucket V)) :=
  let score := calculateTemporalScore now dateAdded propertyAttributes in
  let ttl := calculateDynamicTTL score defaultBaseTime in
  if (maxExpireSeconds <? ttl)%Z then (false, db)
  else
    match Redis.setEx db now key ttl
            (Bucket value score now (Metadata dateAdded propertyAttributes)) with
    | None => (false, db)
    | Some db1 =>
        match Redis.zAdd db1 now temporal_scores score key with
        | None => (false, db1)
        | Some db2 => (true, db2)
        end
    end.

(** The result is [None] for [null]. *)
Definition getCacheWithTemporalCheck (st : state V) (now : Z) (key : string)
  : option V * state V :=
  match Redis.get (client st) now key with
  | None => (None, st)
  | Some None => (None, st)
  | Some (Some parsed) =>
      let hits := (cacheHits st + 1)%Z in
      let currentScore :=
        calculateTemporalScore now (dateAdded (meta parsed)) (attrs (meta parsed)) in
      if Rlt_dec currentScore (score parsed * 0.7) then
        let db1 := Redis.del (client st) [key] in
        match Redis.zRem db1 now temporal_scores key with
        | None => (None, State db1 hits)
        | Some db2 => (None, State db2 hits)
        end
      else (Some (data parsed), State (client st) hits)
  end.

(** [getCacheHits] *)
Definition getCacheHits (st : state V) : Z := cacheHits st.

(** The bucket that a write at [now] stores, and its entry with the
    instant at which it expires. *)
Definition writtenBucket (now : Z) (v : V) (d : Z) (a : attributes) : bucket V :=
  Bucket v (calculateTemporalScore now d a) now (Metadata d a).

Definition writtenEntry (now : Z) (v : V) (d : Z) (a : attributes)
  : Redis.entry (bucket V) :=
  Redis.Entry (Redis.RString (writtenBucket now v d a))
    (Some (now + calculateDynamicTTL (calculateTemporalScore now d a) defaultBaseTime * 1000)%Z).


(** The members of the ranking set: the ScoreIndex. *)
Definition scoreIndex (db : gmap string (Redis.entry (bucket V))) (now : Z)
  : gmap string R :=
  match Redis.live db now temporal_scores with
  | Some e => match Redis.value e with Redis.RZSet m => m | Redis.RString _ => ∅ end
  | None => ∅
  end.

End Cache.

End Decay.

(** ** The interfaces the services consume *)

(** The ngeohash library. *)
Class Geohash : Type := {
  Geohash_encode : R -> R -> Z -> string;
  Geohash_neighbors : string -> list string
}.

(** How a number prints inside a template literal. *)
Class NumberFormat : Type := {
  Number_toString : R -> string
}.

(** ** proximity-cache.service.js *)

Module ProximityCache.

Local Open Scope R_scope.

(** [GEOHASH_PRECISION] *)
Definition PRECISION_SMALL : Z := 7.
Definition PRECISION_MEDIUM : Z := 6.
Definition PRECISION_LARGE : Z := 5.

(** [organizeCache] *)
Definition getPrecision (radius : R) : Z :=
  if Rle_dec radius 1 then PRECISION_SMALL
  else if Rle_dec radius 5 then PRECISION_MEDIUM
  else PRECISION_LARGE.

Definition generateKey `{Geohash} `{NumberFormat} (lat lng radius : R) : string :=
  let precision := getPrecision radius in
  let geohash := Geohash_encode lat lng precision in
  ("geo:" ++ geohash ++ ":" ++ Number_toString radius)%string.

Definition getNeighbors `{Geohash} (lat lng radius : R) : list string :=
  let precision := getPrecision radius in
  Geohash_neighbors (Geohash_encode lat lng precision).

(** [radiusCache.invalidateRadius]: the body of the loop, then the loop
    over the centre cell and its neighbours. *)
Definition invalidateCell {S : Type} (now : Z)
    (db : gmap string (Redis.entry S)) (cell : string)
  : gmap string (Redis.entry S) :=
  let pattern := ("geo:" ++ cell ++ ":*")%string in
  let keys := Redis.keys db now pattern in
  if (0 <? Z.of_nat (length keys))%Z then Redis.del db keys else db.

Definition invalidateRadius `{Geohash} {S : Type}
    (db : gmap string (Redis.entry S)) (now : Z) (lat lng radius : R)
  : gmap string (Redis.entry S) :=
  let precision := getPrecision radius in
  let geohash := Geohash_encode lat lng precision in
  let neighbors := Geohash_neighbors geohash in
  let cellsToInvalidate := geohash :: neighbors in
  foldl (invalidateCell now) db cellsToInvalidate.

(** [cacheOptimizer]: its two counter maps. *)
Record counters : Type := Counters {
  hitCounter : gmap string Z;
  missCounter : gmap string Z
}.

Definition adjustCacheStrategy {S : Type} (db : gmap string (Redis.entry S))
    (now : Z) (geohash : string) (hitRatio : R) : gmap string (Redis.entry S) :=
  if Rlt_dec hitRatio 0.3 then
    Redis.expire db now ("geo:" ++ geohash ++ ":*")%string 1800
  else db.

Definition optimizeIfNeeded {S : Type} (c : counters)
    (db : gmap string (Redis.entry S)) (now : Z) (geohash : string)
  : counters * gmap string (Redis.entry S) :=
  let hits := default 0%Z (hitCounter c !! geohash) in
  let misses := default 0%Z (missCounter c !! geohash) in
  let total := (hits + misses)%Z in
  if (100 <=? total)%Z then
    let hitRatio := IZR hits / IZR total in
    let db' :=
      if Rlt_dec hitRatio 0.5 then adjustCacheStrategy db now geohash hitRatio
      else db in
    (Counters (<[geohash := 0%Z]> (hitCounter c))
              (<[geohash := 0%Z]> (missCounter c)), db')
  else (c, db).

Definition trackHit {S : Type} (c : counters)
    (db : gmap string (Redis.entry S)) (now : Z) (geohash : string)
  : counters * gmap string (Redis.entry S) :=
  let c' := Counters
              (<[geohash := (default 0 (hitCounter c !! geohash) + 1)%Z]> (hitCounter c))
              (missCounter c) in
  optimizeIfNeeded c' db now geohash.

Definition trackMiss {S : Type} (c : counters)
    (db : gmap string (Redis.entry S)) (now : Z) (geohash : string)
  : counters * gmap string (Redis.entry S) :=
  let c' := Counters
              (hitCounter c)
              (<[geohash := (default 0 (missCounter c !! geohash) + 1)%Z]> (missCounter c)) in
  optimizeIfNeeded c' db now geohash.

End ProximityCache.

(** ** redis.services.js: the plain cache helpers and their statistics *)

Module RedisServices.

(** The module's two counters. *)
Record stats : Type := Stats {
  cacheHits : Z;
  totalDataCached : Z
}.

(** [getCache]: the result is [None] when the command throws, [Some None]
    for [null]. *)
Definition getCache {S : Type} (st : stats) (db : gmap string (Redis.entry S))
    (now : Z) (key : string) : option (option S) * stats :=
  match Redis.get db now key with
  | None => (None, st)
  | Some (Some value) =>
      (Some (Some value), Stats (cacheHits st + 1) (totalDataCached st))
  | Some None => (Some None, st)
  end.

Definition getCacheHitCount (st : stats) : Z := cacheHits st.

Definition getTotalDataCached (st : stats) : Z := totalDataCached st.

(** What [Array.isArray(parsedValue)] and [parsedValue.length] see of a
    parsed value: [Some n] for an array of [n] elements, [None] for any
    other value. *)
Class JsonValue (S : Type) : Type := {
  arrayLength : S -> option nat
}.

(** [getTotalCachedDocuments]: an array counts its length, any other
    value counts one document. *)
Definition getTotalCachedDocuments {S : Type} `{JsonValue S}
    (db : gmap string (Redis.entry S)) (now : Z) : Z * Z :=
  let keys := Redis.keys db now "*" in
  let totalDocuments :=
    foldl (fun total key =>
             if String.eqb (Redis.type db now key) "string" then
               match Redis.get db now key with
               | Some (Some parsedValue) =>
                   match arrayLength parsedValue with
                   | Some len => (total + Z.of_nat len)%Z
                   | None => (total + 1)%Z
                   end
               | _ => total
               end
             else total) 0%Z keys in
  (Z.of_nat (length keys), totalDocuments).

End RedisServices.

(** A bucket of decay.service.js is an object, [{ data, score, timestamp,
    metadata }], not an array. *)
#[global] Instance bucket_JsonValue {V : Type} : RedisServices.JsonValue (Decay.bucket V) :=
  {| RedisServices.arrayLength := fun _ => None |}.

(** ** utils/validation.js *)

Module Validation.

Local Open Scope R_scope.

Inductive validation : Type :=
| Invalid (error : string)
| Valid (latitude longitude : R).

(** The arguments are the results of [parseFloat]; [None] is [NaN]. *)
Definition validateCoordinates (latitude longitude : option R) : validation :=
  match latitude, longitude with
  | Some lat, Some lon =>
      if Rlt_dec lat (-5000) then Invalid "Latitude must be between -90 and 90"
      else if Rlt_dec 5000 lat then Invalid "Latitude must be between -90 and 90"
      else if Rlt_dec lon (-100000) then Invalid "Longitude must be between -180 and 180"
      else if Rlt_dec 100000 lon then Invalid "Longitude must be between -180 and 180"
      else Valid lat lon
  | _, _ => Invalid "Invalid coordinates format"
  end.

End Validation.

(** ** property.services.js: the nearby-query coordinator *)

Module PropertyService.

Local Open Scope R_scope.

(** A document of the property collection as [$geoNear] returns it: the
    fields the services read, with the computed [distance] in metres. *)
Record property : Type := Property {
  property_id : Z;
  date_added : Z;
  distance : R;
  badges : Decay.attributes
}.

(** [{ ...property, score }] *)
Record scored : Type := Scored {
  item : property;
  score : R
}.

(** The object built and cached on a miss. *)
Record result : Type := Result {
  properties : list scored;
  totalCount : Z;
  totalPages : Z;
  currentPage : Z;
  queryTimestamp : Z;
  coordinates : R * R;
  radius : R
}.

(** The object cached for a neighbouring cell. *)
Record warmed : Type := Warmed {
  warm_properties : list property;
  warm_queryTimestamp : Z
}.

(** What a cache key of this service holds. *)
Inductive payload : Type :=
| Full (r : result)
| Warm (w : warmed).

(** The stages of the aggregation pipelines. *)
Inductive stage : Type :=
| GeoNear (longitude latitude : R) (maxDistance : R)
| Skip (n : Z)
| Limit (n : Z)
| Count.

(** [Property.aggregate]: [None] when the query throws. A pipeline that
    ends in [$count] returns at most one [{ totalCount }] document. *)
Class DocStore : Type := {
  aggregate : list stage -> option (list property);
  aggregate_count : list stage -> option (list Z)
}.

(** The state the coordinator works on: the shared Redis connection, the
    counter of decay.service.js, the optimizer's counters, the counters of
    redis.services.js, and the pipelines sent to the document store so
    far (oldest first). *)
Record world : Type := World {
  client : gmap string (Redis.entry (Decay.bucket payload));
  decay_cacheHits : Z;
  optimizer : ProximityCache.counters;
  redis_services : RedisServices.stats;
  issued : list (list stage)
}.

Definition with_client (w : world) db : world :=
  World db (decay_cacheHits w) (optimizer w) (redis_services w) (issued w).

Definition with_optimizer (w : world) (co : ProximityCache.counters * _) : world :=
  World (snd co) (decay_cacheHits w) (fst co) (redis_services w) (issued w).

Definition with_decay (w : world) (st : Decay.state payload) : world :=
  World (Decay.client st) (Decay.cacheHits st) (optimizer w) (redis_services w) (issued w).

Definition send (w : world) (pipeline : list stage) : world :=
  World (client w) (decay_cacheHits w) (optimizer w) (redis_services w)
        (issued w ++ [pipeline]).

(** [Math.ceil]. (The coordinator applies it to [totalCount / limit]; for
    [limit = 0] the quotient is 0 here, where JavaScript has [Infinity] or
    [NaN].) *)
Definition Math_ceil (x : R) : Z := (- Int_part (- x))%Z.

(** [Array.prototype.sort] with a comparator: a stable sort; [x] goes
    before the first element it does not compare greater than. *)
Fixpoint sort_insert {A : Type} (cmp : A -> A -> R) (x : A) (l : list A) : list A :=
  match l with
  | [] => [x]
  | y :: l' =>
      if Rle_dec (cmp x y) 0 then x :: y :: l'
      else y :: sort_insert cmp x l'
  end.

Fixpoint Array_sort {A : Type} (cmp : A -> A -> R) (l : list A) : list A :=
  match l with
  | [] => []
  | x :: l' => sort_insert cmp x (Array_sort cmp l')
  end.

(** The mapping step: temporal decay and proximity scoring. *)
Definition applyScoring (now : Z) (props : list property) : list scored :=
  map (fun property =>
         Scored property
           (Decay.calculateTemporalScore now (date_added property) Decay.noAttributes *
            (1 / (1 + distance property / 1000))))
      props.

(** As the specification words the relevance of a returned item:
    [temporalScore(item.dateAdded, item attrs) x 1/(1 + distanceKm)]. *)
Definition spec_relevance (now : Z) (p : property) : R :=
  Decay.calculateTemporalScore now (date_added p) (badges p) *
  (1 / (1 + distance p / 1000)).




(** A freshly started server in front of an empty Redis. *)
Definition initial : world :=
  World ∅ 0 (ProximityCache.Counters ∅ ∅) (RedisServices.Stats 0 0) [].

Section Coordinator.
Context `{Geohash} `{NumberFormat} `{DocStore}.

(** The pipeline of the warming query. *)
Definition warmPipeline (latitude longitude radius : R) : list stage :=
  [GeoNear longitude latitude (radius * 1000); Limit 10].

(** The warming loop; [false] when a query throws, which ends the loop. *)
Fixpoint warmNeighbors (w : world) (now : Z) (latitude longitude radius : R)
    (neighbors : list string) : bool * world :=
  match neighbors with
  | [] => (true, w)
  | neighbor :: rest =>
      let neighborKey := ("geo:" ++ neighbor ++ ":" ++ Number_toString radius)%string in
      let w1 := send w (warmPipeline latitude longitude radius) in
      match aggregate (warmPipeline latitude longitude radius) with
      | None => (false, w1)
      | Some neighborProperties =>
          let w2 :=
            if (0 <? Z.of_nat (length neighborProperties))%Z then
              with_client w1
                (snd (Decay.setCacheWithTemporalDecay (client w1) now neighborKey
                        (Warm (Warmed neighborProperties now)) now Decay.noAttributes))
            else w1 in
          warmNeighbors w2 now latitude longitude radius rest
      end
  end.

(** [findNearbyProperties]: the result is [None] when the function
    throws. *)
Definition findNearbyProperties (w : world) (now : Z)
    (latitude longitude radius : R) (page limit : Z) : option payload * world :=
  let cacheKey := ProximityCache.generateKey latitude longitude radius in
  let '(cachedResult, st) :=
    Decay.getCacheWithTemporalCheck
      (Decay.State (client w) (decay_cacheHits w)) now cacheKey in
  let w := with_decay w st in
  match cachedResult with
  | Some cached =>
      let w := with_optimizer w
                 (ProximityCache.trackHit (optimizer w) (client w) now cacheKey) in
      (Some cached, w)
  | None =>
      let w := with_optimizer w
                 (ProximityCache.trackMiss (optimizer w) (client w) now cacheKey) in
      let skip := ((page - 1) * limit)%Z in
      let countPipeline := [GeoNear longitude latitude (radius * 1000); Count] in
      let w := send w countPipeline in
      match aggregate_count countPipeline with
      | None => (None, w)
      | Some totalCountResults =>
          let totalCount :=
            match totalCountResults with n :: _ => n | [] => 0%Z end in
          let totalPages := Math_ceil (IZR totalCount / IZR limit) in
          let pagePipeline :=
            [GeoNear longitude latitude (radius * 1000); Skip skip; Limit limit] in
          let w := send w pagePipeline in
          match aggregate pagePipeline with
          | None => (None, w)
          | Some found =>
              let properties :=
                Array_sort (fun a b => score b - score a) (applyScoring now found) in
              let result :=
                Result properties totalCount totalPages page now
                       (latitude, longitude) radius in
              let w := with_client w
                         (snd (Decay.setCacheWithTemporalDecay (client w) now cacheKey
                                 (Full result) now Decay.noAttributes)) in
              let neighbors := ProximityCache.getNeighbors latitude longitude radius in
              let '(ok, w) := warmNeighbors w now latitude longitude radius neighbors in
              if ok then (Some (Full result), w) else (None, w)
          end
      end
  end.

End Coordinator.

End PropertyService.

(** ** route/property.route.js *)

Module Route.

Import PropertyService.

(** The [properties] field of a response: the scored page of a miss, or
    the unscored list of a warmed cell. *)
Inductive listing : Type :=
| ScoredListing (l : list scored)
| PlainListing (l : list property).

(** The JSON body of [GET /nearby]; a field read from an object that
    lacks it is [None]. *)
Record nearbyBody : Type := NearbyBody {
  body_properties : listing;
  body_totalCount : option Z;
  body_totalPages : option Z;
  body_currentPage : Z;
  body_hasMore : bool
}.

(** The JSON body of [GET /cacheStats]. *)
Record statsBody : Type := StatsBody {
  stats_cacheHits : Z;
  stats_totalDataCached : Z;
  stats_totalKeys : Z;
  stats_totalDocuments : Z
}.

Inductive response (B : Type) : Type :=
| Json (status : Z) (body : B)
| Error (status : Z) (error : string).
Arguments Json {B} status body.
Arguments Error {B} status error.

(** The [cacheHits] field of a [/cacheStats] response. *)
Definition reportedCacheHits (r : response statsBody) : option Z :=
  match r with
  | Json _ body => Some (stats_cacheHits body)
  | Error _ _ => None
  end.

Section Handlers.
Context `{Geohash} `{NumberFormat} `{DocStore}.

(** [GET /nearby]. [lat] and [lng] are [None] when the query parameter
    is missing; the other parameters are given already parsed. *)
Definition nearby (w : world) (now : Z) (lat lng : option R) (radius : R)
    (page limit : Z) : response nearbyBody * world :=
  match lat, lng with
  | Some lat, Some lng =>
      match findNearbyProperties w now lat lng radius page limit with
      | (Some (Full r), w') =>
          (Json 200 (NearbyBody (ScoredListing (properties r))
                       (Some (totalCount r)) (Some (totalPages r)) page
                       (page <? totalPages r)%Z), w')
      | (Some (Warm wr), w') =>
          (Json 200 (NearbyBody (PlainListing (warm_properties wr))
                       None None page false), w')
      | (None, w') => (Error 500 "Internal server error", w')
      end
  | _, _ => (Error 400 "Latitude and longitude are required", w)
  end.

(** [GET /cacheStats] *)
Definition cacheStats (w : world) (now : Z) : response statsBody :=
  let '(totalKeys, totalDocuments) :=
    RedisServices.getTotalCachedDocuments (client w) now in
  Json 200 (StatsBody (RedisServices.getCacheHitCount (redis_services w))
                      (RedisServices.getTotalDataCached (redis_services w))
                      totalKeys totalDocuments).

End Handlers.

End Route.

(** ** Stand-ins for the interfaces, for concrete runs *)

Module Sample.

Import PropertyService.

(** One cell with eight distinct neighbours. *)
Definition geohash : Geohash := {|
  Geohash_encode := fun _ _ _ => "dr5r7";
  Geohash_neighbors := fun _ =>
    ["dr5rk"; "dr5rm"; "dr5rt"; "dr5rs"; "dr5re"; "dr5r6"; "dr5r5"; "dr5rh"]
|}.

(** Every radius prints as [2]. *)
Definition format : NumberFormat := {| Number_toString := fun _ => "2" |}.

(** A plain record at the query point and a premium record 100 m away,
    both added at instant 0. *)
Definition plainHere : property := Property 1 0 0 Decay.noAttributes.
Definition premiumNear : property := Property 2 0 100 (Decay.Attributes true false false).

(** A collection whose every geo-near query finds the documents [found],
    nearest first. *)
Definition docs (found : list property) : DocStore := {|
  aggregate := fun _ => Some found;
  aggregate_count := fun _ => Some [Z.of_nat (length found)]
|}.

(** The collection that holds the two records above. *)
Definition twoRecords : DocStore := docs [plainHere; premiumNear].

End Sample.

(** ** More Redis commands: sorted-set ranges and FLUSHALL *)

Module RedisSets.

#[local] Instance Rle_decision (x y : R) : Decision (x <= y)%R := Rle_dec x y.

(** A score inside the closed range of [ZRANGEBYSCORE min max]. *)
Definition inRange (min max : R) (member : string * R) : Prop :=
  (min <= member.2)%R /\ (member.2 <= max)%R.

#[local] Instance inRange_decision (min max : R) (member : string * R)
  : Decision (inRange min max member).
Proof. unfold inRange. apply _. Defined.

Section Commands.
Context {S : Type}.

(** [ZRANGE key 0 -1]: all the members. (Redis returns them by increasing
    score; the model keeps the order of the map, the callers use the list
    as a set.) [None] is a thrown WRONGTYPE error. *)
Definition zRange (db : gmap string (Redis.entry S)) (now : Z) (key : string)
  : option (list string) :=
  match Redis.live db now key with
  | None => Some []
  | Some e =>
      match Redis.value e with
      | Redis.RZSet m => Some (map_to_list m).*1
      | Redis.RString _ => None
      end
  end.

(** [ZRANGEBYSCORE key min max]: the members whose score lies in
    [[min, max]]. *)
Definition zRangeByScore (db : gmap string (Redis.entry S)) (now : Z) (key : string)
    (min max : R) : option (list string) :=
  match Redis.live db now key with
  | None => Some []
  | Some e =>
      match Redis.value e with
      | Redis.RZSet m => Some (map_to_list (filter (inRange min max) m)).*1
      | Redis.RString _ => None
      end
  end.

(** [ZREMRANGEBYSCORE key min max]; a sorted set left empty is removed. *)
Definition zRemRangeByScore (db : gmap string (Redis.entry S)) (now : Z) (key : string)
    (min max : R) : option (gmap string (Redis.entry S)) :=
  match Redis.live db now key with
  | None => Some db
  | Some e =>
      match Redis.value e with
      | Redis.RZSet m =>
          let m' := filter (fun member => ~ inRange min max member) m in
          if decide (m' = ∅) then Some (delete key db)
          else Some (<[key := Redis.Entry (Redis.RZSet m') (Redis.expireAt e)]> db)
      | Redis.RString _ => None
      end
  end.

(** [FLUSHALL] *)
Definition flushAll (db : gmap string (Redis.entry S)) : gmap string (Redis.entry S) := ∅.

End Commands.

End RedisSets.

(** ** decay.service.js, continued: ranking and maintenance of the cache *)

Module DecayMaintenance.

Import Decay PropertyService.
Local Open Scope R_scope.

(** The key of [sortByTemporalScore]: the temporal score of an item with
    its own badges. *)
Definition temporalScoreOf (now : Z) (p : property) : R :=
  calculateTemporalScore now (date_added p) (badges p).

(** [sortByTemporalScore]: sorts a copy of the list. *)
Definition sortByTemporalScore (now : Z) (properties : list property) : list property :=
  Array_sort (fun a b => temporalScoreOf now b - temporalScoreOf now a) properties.

Section Maintenance.
Context {V : Type}.

(** The name of the ranking set holds a sorted set or nothing, so that the
    sorted-set commands on it do not throw. *)
Definition indexUsable (db : gmap string (Redis.entry (bucket V))) (now : Z) : Prop :=
  forall e, Redis.live db now temporal_scores = Some e ->
            exists m, Redis.value e = Redis.RZSet m.

(** [cleanupTemporalCache]: the commands of the [Promise.all] are sent in
    the order of the array: one [DEL] per key, then [ZREMRANGEBYSCORE]. The
    result is the number of keys found, 0 when a command throws. *)
Definition cleanupTemporalCache (db : gmap string (Redis.entry (bucket V))) (now : Z)
    (threshold : R) : Z * gmap string (Redis.entry (bucket V)) :=
  match RedisSets.zRangeByScore db now temporal_scores 0 threshold with
  | None => (0%Z, db)
  | Some lowScoreKeys =>
      if (0 <? Z.of_nat (length lowScoreKeys))%Z then
        let db1 := foldl (fun d key => Redis.del d [key]) db lowScoreKeys in
        match RedisSets.zRemRangeByScore db1 now temporal_scores 0 threshold with
        | None => (0%Z, db1)
        | Some db2 => (Z.of_nat (length lowScoreKeys), db2)
        end
      else (Z.of_nat (length lowScoreKeys), db)
  end.

(** The default value of the [threshold] parameter. *)
Definition defaultThreshold : R := 0.3.

(** The loop of [updateTemporalScores] over the members read at the start;
    a command that throws ends it, keeping what was done. *)
Fixpoint refreshMembers (db : gmap string (Redis.entry (bucket V))) (now : Z)
    (keys : list string) : gmap string (Redis.entry (bucket V)) :=
  match keys with
  | [] => db
  | key :: rest =>
      match Redis.get db now key with
      | None => db
      | Some None =>
          match Redis.zRem db now temporal_scores key with
          | None => db
          | Some db' => refreshMembers db' now rest
          end
      | Some (Some parsed) =>
          let newScore :=
            calculateTemporalScore now (dateAdded (meta parsed)) (attrs (meta parsed)) in
          match Redis.zAdd db now temporal_scores newScore key with
          | None => db
          | Some db' => refreshMembers db' now rest
          end
      end
  end.

Definition updateTemporalScores (db : gmap string (Redis.entry (bucket V))) (now : Z)
  : gmap string (Redis.entry (bucket V)) :=
  match RedisSets.zRange db now temporal_scores with
  | None => db
  | Some keys => refreshMembers db now keys
  end.

End Maintenance.

End DecayMaintenance.

(** ** Geohash text *)

Module GeohashText.

(** Free of the characters that mean something in a cache key or in a
    [KEYS] pattern; the base-32 alphabet of geohashes is. *)
Fixpoint plainText (s : string) : bool :=
  match s with
  | EmptyString => true
  | String c s' =>
      negb (Ascii.eqb c ":" || Ascii.eqb c "*" || Ascii.eqb c "?") && plainText s'
  end.

(** What the callers rely on from ngeohash: a hash has as many characters
    as the precision asked for, a neighbour has the length of its cell, and
    both are plain text. *)
Class WellFormed `{Geohash} : Prop := {
  encode_length : forall (lat lng : R) (precision : Z),
    (0 <= precision)%Z ->
    String.length (Geohash_encode lat lng precision) = Z.to_nat precision;
  encode_plain : forall (lat lng : R) (precision : Z),
    plainText (Geohash_encode lat lng precision) = true;
  neighbors_length : forall (cell neighbor : string),
    neighbor ∈ Geohash_neighbors cell -> String.length neighbor = String.length cell;
  neighbors_plain : forall (cell neighbor : string),
    plainText cell = true -> neighbor ∈ Geohash_neighbors cell -> plainText neighbor = true
}.

End GeohashText.

(** ** property.services.js, continued: adding a property *)

Module PropertyWrites.

Local Open Scope R_scope.

(** The body of [POST /]: the fields the service reads. *)
Record propertyData : Type := PropertyData {
  latitude : R;
  longitude : R;
  date_added : Z;
  badges : Decay.attributes
}.

(** The document built from it: the data and the GeoJSON point
    [coordinates: [longitude, latitude]]. *)
Record document : Type := Document {
  doc_data : propertyData;
  doc_coordinates : R * R
}.

(** [property.save()]: [false] when it throws. *)
Class Collection : Type := {
  save : document -> bool
}.

(** [addProperty]: the result is [None] when the function throws. *)
Definition addProperty `{Geohash} `{Collection} {S : Type}
    (db : gmap string (Redis.entry S)) (now : Z) (data : propertyData)
  : option document * gmap string (Redis.entry S) :=
  let property := Document data (longitude data, latitude data) in
  if save property then
    (Some property,
     ProximityCache.invalidateRadius db now (latitude data) (longitude data) 10)
  else (None, db).

(** [POST /] *)
Definition postProperty `{Geohash} `{Collection} {S : Type}
    (db : gmap string (Redis.entry S)) (now : Z) (body : propertyData)
  : Route.response document * gmap string (Redis.entry S) :=
  match addProperty db now body with
  | (Some property, db') => (Route.Json 201 property, db')
  | (None, db') => (Route.Error 500 "Internal server error", db')
  end.

End PropertyWrites.

(** ** redis.services.js, continued: writing and clearing *)

Module RedisServicesWrites.

Import RedisServices.

(** [Buffer.byteLength(JSON.stringify(value), "utf8")] *)
Class JsonSize (S : Type) : Type := {
  byteLength : S -> Z
}.

(** [setCacheWithExpiry]: the size is added before the command is sent; the
    flag is [false] when the command throws. *)
Definition setCacheWithExpiry {S : Type} `{JsonSize S} (st : stats)
    (db : gmap string (Redis.entry S)) (now : Z) (key : string) (value : S) (expiry : Z)
  : bool * stats * gmap string (Redis.entry S) :=
  let st' := Stats (cacheHits st) (totalDataCached st + byteLength value) in
  match Redis.setEx db now key expiry value with
  | None => (false, st', db)
  | Some db' => (true, st', db')
  end.

(** The default value of the [expiry] parameter. *)
Definition defaultExpiry : Z := 3600.

(** [clearAllCache] *)
Definition clearAllCache {S : Type} (st : stats) (db : gmap string (Redis.entry S))
  : stats * gmap string (Redis.entry S) :=
  (Stats (cacheHits st) 0, RedisSets.flushAll db).

End RedisServicesWrites.

(** ** utils/validation.js, continued *)

Module Pagination.

Inductive validation : Type :=
| Invalid (error : string)
| Valid (page limit : Z).

(** [parseInt(x) || fallback]: [None] is [NaN]; [NaN] and 0 are falsy. *)
Definition orElse (parsed : option Z) (fallback : Z) : Z :=
  match parsed with
  | Some n => if (n =? 0)%Z then fallback else n
  | None => fallback
  end.

(** The arguments are the results of [parseInt]. *)
Definition validatePagination (page limit : option Z) : validation :=
  let pageNum := orElse page 1 in
  let limitNum := orElse limit 100 in
  if (pageNum <? 1)%Z then Invalid "Page must be greater than 0"
  else if ((limitNum <? 1) || (1000 <? limitNum))%Z
       then Invalid "Limit must be between 1 and 1000"
  else Valid pageNum limitNum.

End Pagination.

(** ** The TemporalDecay class *)

Module TemporalDecayClass.

Local Open Scope R_scope.

Record config : Type := Config {
  decayFactor : R;
  timeThreshold : R;
  minimumPriority : R
}.

(** The default argument of the constructor. *)
Definition defaultConfig : config := Config 0.1 3600000 0.2.

(** [Math.log] is [ln]; the count of queries is a natural number. *)
Definition calculatePriority (c : config) (now lastAccessTime : Z) (queryCount : nat) : R :=
  let timeDiff := IZR (now - lastAccessTime) in
  let timeDecay := exp (- decayFactor c * (timeDiff / timeThreshold c)) in
  let queryFactor := ln (INR queryCount + 1) in
  let priority := timeDecay * queryFactor in
  Rmax priority (minimumPriority c).

Definition shouldEvict (c : config) (priority : R) : bool :=
  if Rle_dec priority (minimumPriority c) then true else false.

End TemporalDecayClass.

(** ** The MultiLevelCache class and the geo-cache service over it *)

Module MultiLevelCache.

(** The default value of the [ttl] parameter. *)
Definition defaultTTL : Z := 3600.

Section Cache.
Context {V : Type}.

(** [get(key, dbFallback, ttl)]. The fallback is a database query that
    answers [dbFallback] ([None] for a falsy answer); the last component
    counts its calls. A Redis command that throws sends control to the
    [catch] branch, which calls the fallback (again). *)
Definition get (db : gmap string (Redis.entry V)) (calls : nat) (now : Z) (key : string)
    (dbFallback : option V) (ttl : Z)
  : option V * gmap string (Redis.entry V) * nat :=
  match Redis.get db now key with
  | None => (dbFallback, db, Datatypes.S calls)
  | Some (Some cachedData) => (Some cachedData, db, calls)
  | Some None =>
      match dbFallback with
      | Some data =>
          match Redis.setEx db now key ttl data with
          | Some db' => (Some data, db', Datatypes.S calls)
          | None => (dbFallback, db, Datatypes.S (Datatypes.S calls))
          end
      | None => (None, db, Datatypes.S calls)
      end
  end.

(** [invalidate(key)] *)
Definition invalidate (db : gmap string (Redis.entry V)) (key : string)
  : gmap string (Redis.entry V) :=
  Redis.del db [key].

(** [redis.keys(pattern)] for a pattern that a caller supplies: the live
    keys that the glob matcher of the server accepts for it. The matcher,
    with its stars, question marks, bracket classes and escapes, is the
    server's: [matches pattern key] is its verdict. *)
Definition keys (matches : string -> string -> bool)
    (db : gmap string (Redis.entry V)) (now : Z) (pattern : string) : list string :=
  filter (λ k, matches pattern k = true ∧ is_Some (Redis.live db now k))
         (map_to_list db).*1.

(** [geoCacheService.invalidateCache(pattern)] *)
Definition invalidateCache (matches : string -> string -> bool)
    (db : gmap string (Redis.entry V)) (now : Z) (pattern : string)
  : gmap string (Redis.entry V) :=
  let keys := keys matches db now pattern in
  if (0 <? Z.of_nat (length keys))%Z then foldl invalidate db keys else db.

End Cache.

End MultiLevelCache.

(** ** More stand-ins *)

Module Fixture.

(** The first [n] characters of [s], padded with [0] when [s] is short. *)
Fixpoint hashText (n : nat) (s : string) : string :=
  match n with
  | O => EmptyString
  | Datatypes.S n' =>
      match s with
      | EmptyString => String "0" (hashText n' EmptyString)
      | String c s' => String c (hashText n' s')
      end
  end.

(** A geohash that honours the precision: the first characters of one of
    two fixed hashes, by hemisphere; the neighbours of a cell change its
    first character. *)
Definition geohash : Geohash := {|
  Geohash_encode := fun lat _ precision =>
    hashText (Z.to_nat precision) (if Rle_dec lat 0 then "0r5r7k2" else "dr5r7k2");
  Geohash_neighbors := fun cell =>
    match cell with
    | EmptyString => []
    | String _ rest =>
        map (fun c => String c rest) ["0"; "1"; "2"; "3"; "4"; "5"; "6"; "7"]%char
    end
|}.

(** Two documents without badges: one added at instant 0, 300 m from the
    query point, and one added ten days earlier at the query point; and
    the collection that holds them. *)
Definition plainNear : PropertyService.property :=
  PropertyService.Property 3 0 300 Decay.noAttributes.
Definition plainOld : PropertyService.property :=
  PropertyService.Property 4 (-864000000) 0 Decay.noAttributes.
Definition plainRecords : PropertyService.DocStore := Sample.docs [plainOld; plainNear].


(** A collection that accepts every document, one that refuses all. *)
Definition accepting : PropertyWrites.Collection := {| PropertyWrites.save := fun _ => true |}.
Definition refusing : PropertyWrites.Collection := {| PropertyWrites.save := fun _ => false |}.

(** A document store that always throws. *)
Definition failing : PropertyService.DocStore := {|
  PropertyService.aggregate := fun _ => None;
  PropertyService.aggregate_count := fun _ => None
|}.

(** A document store that answers the count and page queries with one
    record and throws on the warming query (the pipeline without [$skip]). *)
Definition warmFailing : PropertyService.DocStore := {|
  PropertyService.aggregate := fun pipeline =>
    match pipeline with
    | [PropertyService.GeoNear _ _ _; PropertyService.Limit _] => None
    | _ => Some [Sample.plainHere]
    end;
  PropertyService.aggregate_count := fun _ => Some [1%Z]
|}.

End Fixture.

(** * Properties *)

(** ** The temporal scorer *)

Section ScorerFacts.

Import Decay.
Local Open Scope R_scope.

Lemma Math_floor_IZR (z : Z) : Math_floor (IZR z) = z.
Proof.
  unfold Math_floor. symmetry. apply Int_part_spec. lra.
Qed.

Lemma Math_floor_bounds (x : R) : IZR (Math_floor x) <= x < IZR (Math_floor x) + 1.
Proof.
  unfold Math_floor. destruct (base_Int_part x). lra.
Qed.

Lemma Math_floor_mono (x y : R) : x <= y -> (Math_floor x <= Math_floor y)%Z.
Proof.
  intros Hxy.
  destruct (Math_floor_bounds x) as [Hx _], (Math_floor_bounds y) as [_ Hy].
  assert (Hlt : IZR (Math_floor x) < IZR (Math_floor y + 1)).
  { rewrite plus_IZR. lra. }
  apply lt_IZR in Hlt. lia.
Qed.

Lemma spec_boost_pos (a : attributes) : 0 < spec_boost a.
Proof.
  unfold spec_boost.
  destruct (isPremium a), (isFeatured a), (isVerified a); lra.
Qed.

Lemma spec_timeWeight_pos (x : R) : 0 < spec_timeWeight x.
Proof.
  unfold spec_timeWeight. repeat destruct (Rle_dec _ _); lra.
Qed.

(** The band weight does not grow with age. *)
Lemma spec_timeWeight_antitone (x y : R) :
  x <= y -> spec_timeWeight y <= spec_timeWeight x.
Proof.
  intros Hxy. unfold spec_timeWeight.
  repeat destruct (Rle_dec _ _); lra.
Qed.

(** Capping the age at 90 days does not move it across a band boundary. *)
Lemma spec_timeWeight_Rmin (x : R) : spec_timeWeight (Rmin x 90) = spec_timeWeight x.
Proof.
  unfold spec_timeWeight, Rmin.
  repeat destruct (Rle_dec _ _); lra.
Qed.

(** The imperative updates of [calculateTemporalScore] multiply out to
    base, band weight and boost. *)
Lemma calculateTemporalScore_product (now d : Z) (a : attributes) :
  calculateTemporalScore now d a =
  exp (- 0.1 * Rmin (ageInDays now d) 90) * spec_timeWeight (ageInDays now d) * spec_boost a.
Proof.
  unfold calculateTemporalScore, spec_timeWeight, spec_boost,
    BASE_SCORE, DECAY_FACTOR, MAX_AGE_DAYS, RECENT_maxDays, RECENT_weight,
    MEDIUM_maxDays, MEDIUM_weight, OLD_weight,
    BOOST_PREMIUM, BOOST_FEATURED, BOOST_VERIFIED.
  replace (- (0.1) * Rmin (ageInDays now d) 90)
    with (- 0.1 * Rmin (ageInDays now d) 90) by lra.
  set (e := exp _).
  destruct (isPremium a), (isFeatured a), (isVerified a);
    repeat destruct (Rle_dec _ _); lra.
Qed.

Lemma calculateTemporalScore_pos (now d : Z) (a : attributes) :
  0 < calculateTemporalScore now d a.
Proof.
  rewrite calculateTemporalScore_product.
  pose proof (exp_pos (- 0.1 * Rmin (ageInDays now d) 90)).
  pose proof (spec_timeWeight_pos (ageInDays now d)).
  pose proof (spec_boost_pos a).
  apply Rmult_lt_0_compat; [apply Rmult_lt_0_compat |]; assumption.
Qed.

Lemma ageInDays_antitone (now d0 d1 : Z) :
  (d0 <= d1)%Z -> ageInDays now d1 <= ageInDays now d0.
Proof.
  intros Hd. unfold ageInDays.
  assert (IZR (now - d1) <= IZR (now - d0)) by (apply IZR_le; lia).
  lra.
Qed.

Lemma ageInDays_nonneg (now d : Z) : (d <= now)%Z -> 0 <= ageInDays now d.
Proof.
  intros Hd. unfold ageInDays.
  assert (0 <= IZR (now - d)) by (apply IZR_le; lia).
  apply Rmult_le_pos; lra.
Qed.

Lemma ageInDays_same (now : Z) : ageInDays now now = 0.
Proof.
  unfold ageInDays. rewrite Z.sub_diag. lra.
Qed.

(** The decayed, weighted part of the score does not grow with age. *)
Lemma decay_antitone (x y : R) :
  x <= y ->
  exp (- 0.1 * Rmin y 90) * spec_timeWeight y <=
  exp (- 0.1 * Rmin x 90) * spec_timeWeight x.
Proof.
  intros Hxy.
  assert (He : exp (- 0.1 * Rmin y 90) <= exp (- 0.1 * Rmin x 90)).
  { assert (Hm : Rmin x 90 <= Rmin y 90) by (apply Rle_min_compat_r; exact Hxy).
    destruct (Req_dec (Rmin x 90) (Rmin y 90)) as [-> | Hne]; [lra |].
    left. apply exp_increasing. lra. }
  pose proof (spec_timeWeight_antitone x y Hxy).
  pose proof (spec_timeWeight_pos y).
  pose proof (exp_pos (- 0.1 * Rmin y 90)).
  apply Rmult_le_compat; lra.
Qed.

(** With no badge and an age of at most a week, the score is the bare
    exponential. *)
Lemma calculateTemporalScore_recent (now d : Z) :
  ageInDays now d <= 7 ->
  calculateTemporalScore now d noAttributes = exp (- 0.1 * ageInDays now d).
Proof.
  intros Hage. rewrite calculateTemporalScore_product.
  unfold spec_timeWeight, spec_boost, Rmin. simpl.
  repeat destruct (Rle_dec _ _); try lra.
Qed.

Lemma calculateTemporalScore_now (now : Z) :
  calculateTemporalScore now now noAttributes = 1.
Proof.
  rewrite calculateTemporalScore_recent; rewrite ageInDays_same; [| lra].
  replace (- 0.1 * 0) with 0 by lra. apply exp_0.
Qed.

End ScorerFacts.

Section ScorerClaims.

Import Decay.
Local Open Scope R_scope.

(** A record added at the instant of scoring scores exactly its boost. *)
Lemma calculateTemporalScore_fresh (now : Z) (a : attributes) :
  calculateTemporalScore now now a = spec_boost a.
Proof.
  rewrite calculateTemporalScore_product, ageInDays_same.
  unfold spec_timeWeight, Rmin.
  repeat destruct (Rle_dec _ _); try lra.
  replace (- 0.1 * 0) with 0 by lra. rewrite exp_0. lra.
Qed.

(** For a record that is not dated in the future the code computes the
    formula of the specification. *)
Lemma calculateTemporalScore_spec_past (now d : Z) (a : attributes) :
  (d <= now)%Z -> calculateTemporalScore now d a = spec_temporalScore now d a.
Proof.
  intros Hd. pose proof (ageInDays_nonneg now d Hd) as Hage.
  rewrite calculateTemporalScore_product.
  unfold spec_temporalScore, score_formula, clamp.
  assert (Hclamp : Rmax 0 (Rmin (ageInDays now d) 90) = Rmin (ageInDays now d) 90).
  { apply Rmax_right. apply Rmin_glb; lra. }
  rewrite Hclamp, spec_timeWeight_Rmin. lra.
Qed.

(** C7 (as amended): for every [dateAdded], in the past or in the future,
    and every attribute combination, [calculateTemporalScore] equals
    base x timeWeight x boost with [ageDays = min((now - dateAdded)/day, 90)]:
    the age is capped above at 90 days and is not clamped below at 0. *)
Theorem C7_score_caps_age_above_only (now d : Z) (a : attributes) :
  calculateTemporalScore now d a = upper_clamped_temporalScore now d a.
Proof.
  rewrite calculateTemporalScore_product.
  unfold upper_clamped_temporalScore, score_formula.
  rewrite spec_timeWeight_Rmin. lra.
Qed.

(** C7 (counterexample): a record dated ten days in the future scores
    [exp 1], where the formula with the age clamped below at 0 gives 1. *)
Lemma C7_future_date_counterexample :
  calculateTemporalScore 0 864000000 noAttributes <>
  spec_temporalScore 0 864000000 noAttributes.
Proof.
  assert (Hage : ageInDays 0 864000000 = -10).
  { unfold ageInDays. change (0 - 864000000)%Z with (-864000000)%Z. lra. }
  rewrite calculateTemporalScore_recent by (rewrite Hage; lra).
  unfold spec_temporalScore, score_formula, clamp, spec_timeWeight, spec_boost.
  rewrite Hage. cbn [noAttributes isPremium isFeatured isVerified].
  assert (Hmin : Rmin (-10) 90 = -10) by (apply Rmin_left; lra).
  assert (Hmax : Rmax 0 (-10) = 0) by (apply Rmax_left; lra).
  rewrite Hmin, Hmax.
  replace (- 0.1 * -10) with 1 by lra.
  replace (- 0.1 * 0) with 0 by lra.
  rewrite exp_0.
  destruct (Rle_dec 0 7); [| lra].
  pose proof (exp_ineq1_le 1). lra.
Qed.

(** C9: the temporal score is monotone in freshness. For timestamps
    [t0 < t1] and the same attributes, scored at the same instant, the
    later-dated record scores at least as much; this holds across the band
    boundaries at 7 and 30 days and for dates in the future. *)
Theorem C9_score_monotone_in_freshness (now t0 t1 : Z) (a : attributes) :
  (t0 < t1)%Z ->
  calculateTemporalScore now t1 a >= calculateTemporalScore now t0 a.
Proof.
  intros Ht. apply Rle_ge.
  rewrite !calculateTemporalScore_product.
  apply Rmult_le_compat_r; [left; apply spec_boost_pos |].
  apply decay_antitone, ageInDays_antitone. lia.
Qed.

(** The two records of this instance sit on either side of the 7-day
    boundary. *)
Lemma C9_score_monotone_witness :
  (0 < 1)%Z /\
  calculateTemporalScore 604800001 1 noAttributes >=
  calculateTemporalScore 604800001 0 noAttributes.
Proof.
  split; [lia | apply (C9_score_monotone_in_freshness 604800001 0 1); lia].
Defined.

(** On scores between 0 and 1 the code computes the TTL formula of the
    specification, and the TTL lies between half and twice the base. *)
Lemma calculateDynamicTTL_unit_interval (score : R) :
  0 <= score <= 1 ->
  calculateDynamicTTL score defaultBaseTime = spec_dynamicTTL score defaultBaseTime /\
  (1800 <= calculateDynamicTTL score defaultBaseTime <= 7200)%Z.
Proof.
  intros [H0 H1]. unfold calculateDynamicTTL, spec_dynamicTTL, clamp, defaultBaseTime.
  rewrite (Rmin_left score 1), (Rmax_right 0 score) by lra.
  split; [f_equal; lra |].
  rewrite <- (Math_floor_IZR 1800), <- (Math_floor_IZR 7200) at 1.
  split; apply Math_floor_mono; nra.
Qed.

(** The TTL is never below half the base, whatever the record. *)
Lemma calculateDynamicTTL_lower (now d : Z) (a : attributes) :
  (1800 <= calculateDynamicTTL (calculateTemporalScore now d a) defaultBaseTime)%Z.
Proof.
  pose proof (calculateTemporalScore_pos now d a).
  unfold calculateDynamicTTL, defaultBaseTime.
  rewrite <- (Math_floor_IZR 1800) at 1.
  apply Math_floor_mono. nra.
Qed.

(** A bucket written with [dateAdded = now] and no badge lives 7200 s. *)
Lemma fresh_bucket_ttl (now : Z) :
  calculateDynamicTTL (calculateTemporalScore now now noAttributes) defaultBaseTime = 7200%Z.
Proof.
  rewrite calculateTemporalScore_now. unfold calculateDynamicTTL, defaultBaseTime.
  rewrite <- (Math_floor_IZR 7200). f_equal. lra.
Qed.

(** The TTL of such a bucket is one that [SETEX] takes. *)
Lemma fresh_bucket_ttl_accepted (now : Z) :
  (calculateDynamicTTL (calculateTemporalScore now now noAttributes) defaultBaseTime
   <= maxExpireSeconds)%Z.
Proof. rewrite fresh_bucket_ttl. unfold maxExpireSeconds. lia. Qed.

(** Such a bucket does not degrade below the threshold while it lives: two
    hours of age cost less than one percent of the score. *)
Lemma fresh_bucket_not_degraded (tw tr : Z) :
  (tw <= tr < tw + 7200 * 1000)%Z ->
  ~ calculateTemporalScore tr tw noAttributes
    < calculateTemporalScore tw tw noAttributes * 0.7.
Proof.
  intros [Hle Hlt].
  assert (Hage0 : 0 <= ageInDays tr tw) by (apply ageInDays_nonneg; exact Hle).
  assert (Hage1 : ageInDays tr tw <= 1 / 12).
  { unfold ageInDays.
    assert (IZR (tr - tw) <= IZR 7200000) by (apply IZR_le; lia). lra. }
  rewrite calculateTemporalScore_now.
  rewrite calculateTemporalScore_recent by lra.
  pose proof (exp_ineq1_le (- 0.1 * ageInDays tr tw)). lra.
Qed.

(** The boosts multiply to at least 1 and at most 1.386. *)
Lemma spec_boost_bounds (a : attributes) : 1 <= spec_boost a <= 1.386.
Proof.
  unfold spec_boost.
  destruct (isPremium a), (isFeatured a), (isVerified a); lra.
Qed.

Lemma exp_square (x y lo : R) :
  0 <= lo -> lo <= exp x -> y = 2 * x -> lo * lo <= exp y.
Proof.
  intros Hlo Hx ->. replace (2 * x) with (x + x) by lra. rewrite exp_plus. nra.
Qed.

Lemma exp_40_lower : 10000000000000 <= exp 40.
Proof.
  assert (H0 : 3 / 2 <= exp (1 / 2)) by (pose proof (exp_ineq1 (1 / 2)); lra).
  assert (H1 : 9 / 4 <= exp 1)
    by (pose proof (exp_square (1 / 2) 1 (3 / 2)); lra).
  assert (H2 : 5 <= exp 2) by (pose proof (exp_square 1 2 (9 / 4)); lra).
  assert (H4 : 25 <= exp 4) by (pose proof (exp_square 2 4 5); lra).
  assert (H8 : 625 <= exp 8) by (pose proof (exp_square 4 8 25); lra).
  assert (H16 : 390625 <= exp 16) by (pose proof (exp_square 8 16 625); lra).
  assert (H32 : 152587890625 <= exp 32)
    by (pose proof (exp_square 16 32 390625); lra).
  replace 40 with (32 + 8) by lra. rewrite exp_plus. nra.
Qed.

(** A record dated 400 days or more ahead of the clock: its TTL is beyond
    what [SETEX] takes. *)
Lemma far_future_ttl_refused (now d : Z) (a : attributes) :
  (now + 400 * 86400000 <= d)%Z ->
  (maxExpireSeconds
   < calculateDynamicTTL (calculateTemporalScore now d a) defaultBaseTime)%Z.
Proof.
  intros Hd.
  assert (Hage : ageInDays now d <= -400).
  { unfold ageInDays.
    assert (IZR (now - d) <= IZR (-34560000000)) by (apply IZR_le; lia). lra. }
  assert (Hscore : 10000000000000 <= calculateTemporalScore now d a).
  { rewrite calculateTemporalScore_product.
    rewrite Rmin_left by lra.
    unfold spec_timeWeight. destruct (Rle_dec _ 7); [| lra].
    pose proof (spec_boost_bounds a) as [Hb _].
    assert (He : exp 40 <= exp (- 0.1 * ageInDays now d)).
    { destruct (Req_dec 40 (- 0.1 * ageInDays now d)) as [<- | Hne]; [lra |].
      left. apply exp_increasing. lra. }
    pose proof exp_40_lower. nra. }
  unfold calculateDynamicTTL, defaultBaseTime.
  apply Z.lt_le_trans with (Math_floor (IZR (maxExpireSeconds + 1))).
  - rewrite Math_floor_IZR. lia.
  - apply Math_floor_mono. unfold maxExpireSeconds.
    change (9223372036854775 + 1)%Z with 9223372036854776%Z. lra.
Qed.

(** A record that is not dated in the future scores at most its boost, and
    its TTL is at most 9285 s. *)
Lemma past_score_le_boost (now d : Z) (a : attributes) :
  (d <= now)%Z -> calculateTemporalScore now d a <= spec_boost a.
Proof.
  intros Hd. pose proof (ageInDays_nonneg now d Hd) as Hage.
  rewrite calculateTemporalScore_product.
  pose proof (spec_boost_bounds a) as [Hb _].
  assert (He : exp (- 0.1 * Rmin (ageInDays now d) 90) <= 1).
  { rewrite <- exp_0.
    destruct (Req_dec (- 0.1 * Rmin (ageInDays now d) 90) 0) as [-> | Hne]; [lra |].
    left. apply exp_increasing.
    assert (0 <= Rmin (ageInDays now d) 90) by (apply Rmin_glb; lra). lra. }
  pose proof (exp_pos (- 0.1 * Rmin (ageInDays now d) 90)).
  assert (Hw : 0 < spec_timeWeight (ageInDays now d) <= 1).
  { unfold spec_timeWeight. repeat destruct (Rle_dec _ _); lra. }
  assert (Hew : exp (- 0.1 * Rmin (ageInDays now d) 90)
                * spec_timeWeight (ageInDays now d) <= 1) by nra.
  nra.
Qed.

Lemma past_ttl_upper (now d : Z) (a : attributes) :
  (d <= now)%Z ->
  (calculateDynamicTTL (calculateTemporalScore now d a) defaultBaseTime <= 9285)%Z.
Proof.
  intros Hd. pose proof (past_score_le_boost now d a Hd).
  pose proof (spec_boost_bounds a) as [_ Hb].
  unfold calculateDynamicTTL, defaultBaseTime.
  rewrite <- (Math_floor_IZR 9285). apply Math_floor_mono. lra.
Qed.

(** A bucket of a record that is not dated in the future does not degrade
    below the threshold while it lives: the 9285 s that its TTL can reach
    cost about one percent of the decay, and crossing a band boundary (7 or
    30 days) costs a quarter of the weight at most. *)
Lemma past_bucket_not_degraded (tw tr d : Z) (a : attributes) :
  (d <= tw)%Z -> (tw <= tr < tw + 9285 * 1000)%Z ->
  ~ calculateTemporalScore tr d a < 0.7 * calculateTemporalScore tw d a.
Proof.
  intros Hd [Hle Hlt].
  rewrite !calculateTemporalScore_product.
  pose proof (ageInDays_nonneg tw d Hd) as Hx.
  assert (Hxy : ageInDays tw d <= ageInDays tr d <= ageInDays tw d + 0.108).
  { unfold ageInDays.
    replace (tr - d)%Z with ((tw - d) + (tr - tw))%Z by lia. rewrite plus_IZR.
    assert (0 <= IZR (tr - tw)) by (apply IZR_le; lia).
    assert (IZR (tr - tw) <= IZR 9285000) by (apply IZR_le; lia).
    lra. }
  set (x := ageInDays tw d) in *. set (y := ageInDays tr d) in *.
  pose proof (spec_boost_pos a) as Hb.
  pose proof (exp_pos (- 0.1 * Rmin x 90)) as Hex.
  pose proof (spec_timeWeight_pos x) as Hwx.
  assert (He : 0.989 * exp (- 0.1 * Rmin x 90) <= exp (- 0.1 * Rmin y 90)).
  { assert (Hm : Rmin y 90 <= Rmin x 90 + (y - x))
      by (unfold Rmin; repeat destruct (Rle_dec _ _); lra).
    assert (Hexp : exp (- 0.1 * Rmin x 90 + - 0.1 * (y - x))
                   <= exp (- 0.1 * Rmin y 90)).
    { destruct (Req_dec (- 0.1 * Rmin x 90 + - 0.1 * (y - x)) (- 0.1 * Rmin y 90))
        as [-> | Hne]; [lra |].
      left. apply exp_increasing. lra. }
    rewrite exp_plus in Hexp.
    pose proof (exp_ineq1_le (- 0.1 * (y - x))). nra. }
  assert (Hw : 0.75 * spec_timeWeight x <= spec_timeWeight y)
    by (unfold spec_timeWeight; repeat destruct (Rle_dec _ _); lra).
  assert (Hprod : 0.989 * exp (- 0.1 * Rmin x 90) * (0.75 * spec_timeWeight x)
                  <= exp (- 0.1 * Rmin y 90) * spec_timeWeight y).
  { apply Rmult_le_compat; [| | exact He | exact Hw]; nra. }
  assert (Hpos : 0 < exp (- 0.1 * Rmin x 90) * spec_timeWeight x)
    by (by apply Rmult_lt_0_compat).
  nra.
Qed.

Lemma past_ttl_accepted (now d : Z) (a : attributes) :
  (d <= now)%Z ->
  (calculateDynamicTTL (calculateTemporalScore now d a) defaultBaseTime
   <= maxExpireSeconds)%Z.
Proof.
  intros Hd. pose proof (past_ttl_upper now d a Hd). unfold maxExpireSeconds. lia.
Qed.

End ScorerClaims.

(** ** The Redis commands *)

Section RedisFacts.

Context {S : Type}.
Implicit Types (db : gmap string (Redis.entry S)) (k key : string).

Lemma live_Some db now k e :
  Redis.live db now k = Some e -> db !! k = Some e /\ Redis.expired e now = false.
Proof.
  unfold Redis.live. destruct (db !! k) as [e' |]; [| discriminate].
  destruct (Redis.expired e' now) eqn:He; [discriminate |].
  intros [= ->]. by split.
Qed.

Lemma live_intro db now k e :
  db !! k = Some e -> Redis.expired e now = false -> Redis.live db now k = Some e.
Proof. intros Hk He. unfold Redis.live. by rewrite Hk, He. Qed.

Lemma live_absent db now k : db !! k = None -> Redis.live db now k = None.
Proof. intros Hk. unfold Redis.live. by rewrite Hk. Qed.

(** [DEL] removes exactly the keys it is given. *)
Lemma lookup_del db (ks : list string) k :
  Redis.del db ks !! k = if decide (k ∈ ks) then None else db !! k.
Proof.
  unfold Redis.del. induction ks as [| k' ks IH].
  - destruct (decide (k ∈ [])) as [Hin |]; [by apply elem_of_nil in Hin | done].
  - cbn [foldr]. destruct (decide (k' = k)) as [-> | Hne].
    + rewrite lookup_delete_eq.
      destruct (decide (k ∈ k :: ks)) as [| Hin]; [done |].
      exfalso. apply Hin. left.
    + rewrite lookup_delete_ne by done. rewrite IH.
      destruct (decide (k ∈ ks)) as [Hin | Hin],
               (decide (k ∈ k' :: ks)) as [Hin' | Hin']; try done.
      * exfalso. apply Hin'. by right.
      * apply elem_of_cons in Hin' as [-> | ?]; done.
Qed.

(** [KEYS] returns the live keys that the pattern matches. *)
Lemma elem_of_keys db now pattern k :
  k ∈ Redis.keys db now pattern <->
  Redis.glob_match pattern k = true /\ is_Some (Redis.live db now k).
Proof.
  unfold Redis.keys. rewrite list_elem_of_filter. split.
  - intros [H _]. exact H.
  - intros [Hm [e He]]. split; [by eauto |].
    apply live_Some in He as [Hk _].
    apply list_elem_of_fmap. exists (k, e). split; [done |].
    by apply elem_of_map_to_list.
Qed.

(** One unfolding of the star case. *)
Lemma glob_match_star (p s : string) :
  Redis.glob_match (String "*" p) s =
  Redis.glob_match p s ||
  match s with
  | EmptyString => false
  | String _ s' => Redis.glob_match (String "*" p) s'
  end.
Proof. destruct s; reflexivity. Qed.

(** A pattern made of a stem and a final star matches every string that
    extends the stem. *)
Lemma glob_match_stem (stem rest : string) :
  Redis.glob_match (stem ++ "*") (stem ++ rest) = true.
Proof.
  induction stem as [| c stem IH].
  - change ("" ++ "*") with (String "*" ""). change ("" ++ rest) with rest.
    induction rest as [| d rest IHrest]; [reflexivity |].
    rewrite glob_match_star, IHrest. apply orb_true_r.
  - change (String c stem ++ "*") with (String c (stem ++ "*")).
    change (String c stem ++ rest) with (String c (stem ++ rest)).
    destruct (Ascii.eqb c "*") eqn:Hstar.
    + apply Ascii.eqb_eq in Hstar as ->.
      rewrite glob_match_star, glob_match_star, IH.
      rewrite orb_true_l. apply orb_true_r.
    + cbn [Redis.glob_match]. rewrite Hstar.
      rewrite Ascii.eqb_refl, orb_true_r, IH. done.
Qed.

(** A pattern that starts with an ordinary character matches only strings
    that start with it. *)
Lemma glob_match_first (c d : ascii) (p s : string) :
  Ascii.eqb c "*" = false -> Ascii.eqb c "?" = false -> c <> d ->
  Redis.glob_match (String c p) (String d s) = false.
Proof.
  intros Hstar Hq Hne. cbn [Redis.glob_match]. rewrite Hstar, Hq.
  apply Ascii.eqb_neq in Hne. by rewrite Hne.
Qed.

End RedisFacts.

(** ** The temporal cache: write, read, eviction on degradation *)

Section CacheFacts.

Import Decay.
Context {V : Type}.
Implicit Types (db : gmap string (Redis.entry (bucket V))) (k : string).

Lemma writtenEntry_live (tw tr : Z) (v : V) (d : Z) (a : attributes) :
  (tr < tw + calculateDynamicTTL (calculateTemporalScore tw d a) defaultBaseTime * 1000)%Z ->
  Redis.expired (writtenEntry tw v d a) tr = false.
Proof.
  intros Htr. unfold Redis.expired, writtenEntry. cbn. lia.
Qed.

(** What [setCacheWithTemporalDecay] leaves in the store: the bucket under
    its key, whether or not the ranking set could be updated. *)
Lemma setCache_lookup db now k (v : V) (d : Z) (a : attributes) :
  (calculateDynamicTTL (calculateTemporalScore now d a) defaultBaseTime
   <= maxExpireSeconds)%Z ->
  snd (setCacheWithTemporalDecay db now k v d a) !! k = Some (writtenEntry now v d a).
Proof.
  intros Hmax.
  pose proof (calculateDynamicTTL_lower now d a) as Httl.
  unfold setCacheWithTemporalDecay, Redis.setEx.
  destruct (Z.ltb_spec maxExpireSeconds
              (calculateDynamicTTL (calculateTemporalScore now d a) defaultBaseTime));
    [lia |].
  destruct (Z.leb_spec (calculateDynamicTTL (calculateTemporalScore now d a) defaultBaseTime) 0);
    [lia |].
  unfold Redis.zAdd.
  destruct (Redis.live _ now temporal_scores) as [e |] eqn:Hlive.
  - destruct (Redis.value e) eqn:Hval; cbn [snd].
    + apply lookup_insert_eq.
    + apply live_Some in Hlive as [Hts _].
      destruct (decide (temporal_scores = k)) as [<- | Hne].
      * rewrite lookup_insert_eq in Hts. injection Hts as <-. discriminate Hval.
      * rewrite lookup_insert_ne by done. apply lookup_insert_eq.
  - cbn [snd]. destruct (decide (temporal_scores = k)) as [<- | Hne].
    + unfold Redis.live in Hlive. rewrite lookup_insert_eq in Hlive.
      unfold Redis.expired in Hlive. cbn in Hlive.
      destruct (Z.leb_spec
        (now + calculateDynamicTTL (calculateTemporalScore now d a) defaultBaseTime * 1000) now);
        [lia | discriminate].
    + rewrite lookup_insert_ne by done. apply lookup_insert_eq.
Qed.

(** Keys other than the written one and the ranking set are untouched. *)
Lemma setCache_lookup_other db now k k' (v : V) (d : Z) (a : attributes) :
  k' <> k -> k' <> temporal_scores ->
  snd (setCacheWithTemporalDecay db now k v d a) !! k' = db !! k'.
Proof.
  intros Hk Hts.
  unfold setCacheWithTemporalDecay, Redis.setEx.
  destruct (_ <? _)%Z; [done |].
  destruct (_ <=? 0)%Z; [done |].
  unfold Redis.zAdd.
  destruct (Redis.live _ now temporal_scores) as [e |].
  - destruct (Redis.value e); cbn [snd];
      rewrite ?lookup_insert_ne by done; done.
  - cbn [snd]. rewrite !lookup_insert_ne by done. done.
Qed.

(** A write into a store that holds no ranking set yet creates it with the
    one scored member. *)
Lemma setCache_scoreIndex_fresh db now k (v : V) (d : Z) (a : attributes) :
  (calculateDynamicTTL (calculateTemporalScore now d a) defaultBaseTime
   <= maxExpireSeconds)%Z ->
  k <> temporal_scores -> db !! temporal_scores = None ->
  scoreIndex (snd (setCacheWithTemporalDecay db now k v d a)) now
  = {[k := calculateTemporalScore now d a]}.
Proof.
  intros Hmax Hk Hnone.
  pose proof (calculateDynamicTTL_lower now d a) as Httl.
  unfold setCacheWithTemporalDecay, Redis.setEx.
  destruct (Z.ltb_spec maxExpireSeconds
              (calculateDynamicTTL (calculateTemporalScore now d a) defaultBaseTime));
    [lia |].
  destruct (Z.leb_spec (calculateDynamicTTL (calculateTemporalScore now d a) defaultBaseTime) 0);
    [lia |].
  unfold Redis.zAdd.
  rewrite (live_absent _ now temporal_scores)
    by (rewrite lookup_insert_ne by done; exact Hnone).
  cbn [snd]. unfold scoreIndex.
  erewrite live_intro; [| apply lookup_insert_eq | reflexivity].
  reflexivity.
Qed.

(** A read of a live bucket that has not degraded: a hit. *)
Lemma getCache_hit (st : state V) now k (b : bucket V) (t : option Z) :
  Redis.live (client st) now k = Some (Redis.Entry (Redis.RString b) t) ->
  ~ (calculateTemporalScore now (dateAdded (meta b)) (attrs (meta b)) < score b * 0.7)%R ->
  getCacheWithTemporalCheck st now k
  = (Some (data b), State (client st) (cacheHits st + 1)).
Proof.
  intros Hlive Hfresh. unfold getCacheWithTemporalCheck, Redis.get.
  rewrite Hlive. cbn [Redis.value].
  destruct (Rlt_dec _ _); [contradiction | reflexivity].
Qed.

(** A read of a live bucket that has degraded: the key is deleted, its
    member leaves the ranking set, and the read is a miss. *)
Lemma getCache_stale (st : state V) now k (b : bucket V) (t : option Z) :
  Redis.live (client st) now k = Some (Redis.Entry (Redis.RString b) t) ->
  (calculateTemporalScore now (dateAdded (meta b)) (attrs (meta b)) < score b * 0.7)%R ->
  let out := getCacheWithTemporalCheck st now k in
  fst out = None /\
  client (snd out) !! k = None /\
  scoreIndex (client (snd out)) now !! k = None /\
  cacheHits (snd out) = (cacheHits st + 1)%Z.
Proof.
  intros Hstored Hstale. unfold getCacheWithTemporalCheck, Redis.get.
  rewrite Hstored. cbn [Redis.value].
  destruct (Rlt_dec _ _) as [_ | Hno]; [| contradiction].
  assert (Hdel : Redis.del (client st) [k] !! k = None).
  { rewrite lookup_del. destruct (decide (k ∈ [k])) as [| Hn]; [done |].
    exfalso. apply Hn. left. }
  unfold Redis.zRem, scoreIndex.
  destruct (Redis.live (Redis.del (client st) [k]) now temporal_scores) as [e |] eqn:Hts.
  - destruct (Redis.value e) as [s | m] eqn:Hval.
    + cbn [fst snd client cacheHits]. rewrite Hts, Hval. done.
    + assert (Hne : temporal_scores <> k).
      { intros <-. apply live_Some in Hts as [Hts _]. congruence. }
      apply live_Some in Hts as [Hts Hexp].
      destruct (decide (delete k m = ∅)) as [Hempty | Hnonempty];
        cbn [fst snd client cacheHits].
      * rewrite lookup_delete_ne by done.
        rewrite (live_absent _ now temporal_scores) by apply lookup_delete_eq.
        done.
      * rewrite lookup_insert_ne by done.
        erewrite live_intro; [| apply lookup_insert_eq | exact Hexp].
        cbn [Redis.value]. rewrite lookup_delete_eq. done.
  - cbn [fst snd client cacheHits]. rewrite Hts. done.
Qed.

(** A write whose TTL [SETEX] takes, at [tw], then a read at [tr] before
    the expiry instant: the read returns the payload unless the score
    recomputed from the stored metadata is below 0.7 x the written score;
    the read of such a stale bucket deletes the key, leaves no member for
    it in the ranking set and returns null. *)
Lemma setCache_then_getCache db (hits : Z) k (v : V) (d : Z) (a : attributes)
    (tw tr : Z) :
  let written := calculateTemporalScore tw d a in
  let ttl := calculateDynamicTTL written defaultBaseTime in
  let db1 := snd (setCacheWithTemporalDecay db tw k v d a) in
  let current := calculateTemporalScore tr d a in
  let out := getCacheWithTemporalCheck (State db1 hits) tr k in
  (ttl <= maxExpireSeconds)%Z ->
  (tw <= tr < tw + ttl * 1000)%Z ->
  ((current < 0.7 * written)%R ->
     fst out = None /\
     client (snd out) !! k = None /\
     scoreIndex (client (snd out)) tr !! k = None) /\
  (~ (current < 0.7 * written)%R ->
     out = (Some v, State db1 (hits + 1))).
Proof.
  intros written ttl db1 current out Hmax [Hle Hlt].
  assert (Hlive : Redis.live db1 tr k
                  = Some (Redis.Entry (Redis.RString (writtenBucket tw v d a))
                            (Some (tw + ttl * 1000)%Z))).
  { apply live_intro; [by apply setCache_lookup |].
    apply writtenEntry_live. exact Hlt. }
  split.
  - intros Hstale.
    destruct (getCache_stale (State db1 hits) tr k _ _ Hlive) as (H1 & H2 & H3 & _).
    + cbn. fold written current. lra.
    + auto.
  - intros Hfresh. subst out.
    rewrite (getCache_hit (State db1 hits) tr k _ _ Hlive).
    + done.
    + cbn. fold written current. lra.
Qed.

End CacheFacts.

Section CacheClaims.

Import Decay.
Context {V : Type}.
Implicit Types (db : gmap string (Redis.entry (bucket V))) (k : string).

(** C1 (what the code does): a record dated 400 days or more ahead of the
    clock. Its score is above [exp 40] and its TTL, floor(1800 + 5400 x
    score), is no expire time that [SETEX] takes: the command throws,
    [setCacheWithTemporalDecay] returns false and Redis is as it was. A
    [get] of the key, at any instant, then finds what it would have found
    without the write: null, when the key was not live, where the claim
    says [v]. *)
Theorem C1_far_future_write_is_refused db (hits : Z) k (v : V) (d : Z)
    (a : attributes) (tw tr : Z) :
  (tw + 400 * 86400000 <= d)%Z ->
  let put := setCacheWithTemporalDecay db tw k v d a in
  put = (false, db) /\
  (Redis.live db tr k = None ->
   getCacheWithTemporalCheck (State (snd put) hits) tr k = (None, State db hits)).
Proof.
  intros Hd put.
  assert (Hput : put = (false, db)).
  { subst put. unfold setCacheWithTemporalDecay.
    pose proof (far_future_ttl_refused tw d a Hd) as Httl.
    destruct (Z.ltb_spec maxExpireSeconds
                (calculateDynamicTTL (calculateTemporalScore tw d a) defaultBaseTime));
      [done | lia]. }
  split; [exact Hput |].
  intros Hlive. rewrite Hput. cbn [snd].
  unfold getCacheWithTemporalCheck, Redis.get. cbn [client]. by rewrite Hlive.
Qed.

(** C2 (what the code does): a record written at the instant it was added
    and carrying the premium badge scores 1.2; its TTL is
    floor(1800 + 5400 x 1.2) = 8280 s, above twice the base (7200 s, the
    value of the clamped formula), and the bucket is stored with that
    expiry. *)
Theorem C2_premium_ttl_exceeds_twice_base db (now : Z) k (v : V) :
  let premium := Attributes true false false in
  let score := calculateTemporalScore now now premium in
  calculateDynamicTTL score defaultBaseTime = 8280%Z /\
  spec_dynamicTTL score defaultBaseTime = 7200%Z /\
  Redis.expireAt <$> (snd (setCacheWithTemporalDecay db now k v now premium) !! k)
  = Some (Some (now + 8280 * 1000)%Z).
Proof.
  intros premium score.
  assert (Hscore : score = 1.2%R).
  { subst score. rewrite calculateTemporalScore_fresh. unfold spec_boost. cbn. lra. }
  assert (Httl : calculateDynamicTTL score defaultBaseTime = 8280%Z).
  { rewrite Hscore. unfold calculateDynamicTTL, defaultBaseTime.
    rewrite <- (Math_floor_IZR 8280). f_equal. lra. }
  split; [exact Httl |]. split.
  - rewrite Hscore. unfold spec_dynamicTTL, clamp, defaultBaseTime.
    rewrite (Rmin_right 1.2 1), (Rmax_right 0 1) by lra.
    rewrite <- (Math_floor_IZR 7200). f_equal. lra.
  - rewrite setCache_lookup by (fold score; rewrite Httl; unfold maxExpireSeconds; lia).
    unfold writtenEntry. fold score. rewrite Httl.
    reflexivity.
Qed.

End CacheClaims.

(** C1 at a record dated 8000 days ahead, written into an empty Redis:
    the write is refused and the read that follows returns null. *)
Lemma C1_far_future_witness :
  Decay.setCacheWithTemporalDecay (V := nat) ∅ 0 "geo:dr5r7:2" 7%nat 691200000000
    Decay.noAttributes = (false, ∅) /\
  Decay.getCacheWithTemporalCheck (V := nat) (Decay.State ∅ 0) 0 "geo:dr5r7:2"
  = (None, Decay.State ∅ 0).
Proof.
  pose proof (C1_far_future_write_is_refused (V := nat) ∅ 0 "geo:dr5r7:2" 7%nat
                691200000000 Decay.noAttributes 0 0) as Hclaim.
  cbv zeta in Hclaim.
  destruct Hclaim as [Hput Hget]; [lia |].
  split; [exact Hput |].
  rewrite Hput in Hget. apply Hget. reflexivity.
Defined.

(** ** Radius invalidation *)

Section InvalidationFacts.

Context {S : Type}.
Implicit Types (db : gmap string (Redis.entry S)) (k cell : string).

Lemma string_append_assoc (s1 s2 s3 : string) :
  ((s1 ++ s2) ++ s3 = s1 ++ (s2 ++ s3))%string.
Proof.
  induction s1 as [| c s1 IH]; [reflexivity |].
  change (String c ((s1 ++ s2) ++ s3) = String c (s1 ++ (s2 ++ s3)))%string.
  by rewrite IH.
Qed.

(** The pattern of a cell matches every key [geo:<cell>:<suffix>]. *)
Lemma cell_pattern_matches cell (suffix : string) :
  Redis.glob_match ("geo:" ++ cell ++ ":*") ("geo:" ++ cell ++ ":" ++ suffix) = true.
Proof.
  replace ("geo:" ++ cell ++ ":*")%string with (("geo:" ++ cell ++ ":") ++ "*")%string.
  2:{ rewrite !string_append_assoc. reflexivity. }
  replace ("geo:" ++ cell ++ ":" ++ suffix)%string
    with (("geo:" ++ cell ++ ":") ++ suffix)%string.
  2:{ rewrite !string_append_assoc. reflexivity. }
  apply glob_match_stem.
Qed.

(** No cell pattern matches the name of the ranking set. *)
Lemma cell_pattern_not_temporal_scores cell :
  Redis.glob_match ("geo:" ++ cell ++ ":*") Decay.temporal_scores = false.
Proof. by apply glob_match_first. Qed.

(** One turn of the loop deletes the live keys its pattern matches and
    nothing else. *)
Lemma lookup_invalidateCell now db cell k :
  ProximityCache.invalidateCell now db cell !! k =
  if decide (k ∈ Redis.keys db now ("geo:" ++ cell ++ ":*")) then None else db !! k.
Proof.
  unfold ProximityCache.invalidateCell.
  destruct (Redis.keys db now ("geo:" ++ cell ++ ":*")) as [| k0 ks] eqn:Hkeys.
  - cbn. destruct (decide (k ∈ [])) as [Hin |]; [by apply elem_of_nil in Hin | done].
  - replace (0 <? Z.of_nat (length (k0 :: ks)))%Z with true
      by (symmetry; apply Z.ltb_lt; cbn [length]; lia).
    apply lookup_del.
Qed.

(** A turn of the loop leaves a key as it was or removes it. *)
Lemma invalidateCell_cases now db cell k :
  ProximityCache.invalidateCell now db cell !! k = None \/
  ProximityCache.invalidateCell now db cell !! k = db !! k.
Proof.
  rewrite lookup_invalidateCell. destruct (decide _); auto.
Qed.

Lemma live_invalidateCell_None now db cell k :
  Redis.live db now k = None ->
  Redis.live (ProximityCache.invalidateCell now db cell) now k = None.
Proof.
  intros Hk. unfold Redis.live in *.
  destruct (invalidateCell_cases now db cell k) as [-> | ->]; done.
Qed.

Lemma live_invalidateCells_None now db (cells : list string) k :
  Redis.live db now k = None ->
  Redis.live (foldl (ProximityCache.invalidateCell now) db cells) now k = None.
Proof.
  revert db. induction cells as [| cell cells IH]; intros db Hk; [done |].
  cbn [foldl]. apply IH. by apply live_invalidateCell_None.
Qed.

(** A key that no pattern of the loop matches keeps its entry. *)
Lemma invalidateCells_unmatched now db (cells : list string) k :
  (forall cell, cell ∈ cells -> Redis.glob_match ("geo:" ++ cell ++ ":*") k = false) ->
  foldl (ProximityCache.invalidateCell now) db cells !! k = db !! k.
Proof.
  revert db. induction cells as [| cell cells IH]; intros db Hno; [done |].
  cbn [foldl]. rewrite IH.
  - rewrite lookup_invalidateCell.
    destruct (decide _) as [Hin |]; [| done].
    apply elem_of_keys in Hin as [Hm _].
    rewrite Hno in Hm by left. discriminate.
  - intros c Hc. apply Hno. by right.
Qed.

(** A key that the pattern of one of the cells matches is not live after
    the loop. *)
Lemma invalidateCells_matched now db (cells : list string) cell k :
  cell ∈ cells ->
  Redis.glob_match ("geo:" ++ cell ++ ":*") k = true ->
  Redis.live (foldl (ProximityCache.invalidateCell now) db cells) now k = None.
Proof.
  revert db. induction cells as [| c cells IH]; intros db Hin Hm.
  - by apply elem_of_nil in Hin.
  - cbn [foldl]. apply elem_of_cons in Hin as [<- | Hin]; [| by apply IH].
    apply live_invalidateCells_None.
    unfold Redis.live at 1. rewrite lookup_invalidateCell.
    destruct (decide _) as [| Hnot]; [done |].
    destruct (Redis.live db now k) as [e |] eqn:Hlive.
    + exfalso. apply Hnot. apply elem_of_keys. split; [done | by exists e].
    + exact Hlive.
Qed.

End InvalidationFacts.

Section InvalidationClaims.

Import Decay ProximityCache.
Context `{Geohash} `{NumberFormat} {V : Type}.
Implicit Types (db : gmap string (Redis.entry (bucket V))) (k : string).

Lemma geo_key_not_temporal_scores (s : string) : ("geo:" ++ s)%string <> temporal_scores.
Proof.
  change ("geo:" ++ s)%string with (String "g" (String "e" (String "o" (String ":" s)))).
  discriminate.
Qed.

(** The part of the invalidation contract that the loop does keep: every
    key [geo:<cell>:*] of the centre cell or of one of its neighbours is
    gone afterwards. *)
Lemma invalidateRadius_deletes db now (lat lng radius : R) (cell k : string) :
  cell ∈ Geohash_encode lat lng (getPrecision radius)
         :: Geohash_neighbors (Geohash_encode lat lng (getPrecision radius)) ->
  Redis.glob_match ("geo:" ++ cell ++ ":*") k = true ->
  Redis.live (invalidateRadius db now lat lng radius) now k = None.
Proof.
  intros Hcell Hm. unfold invalidateRadius.
  by eapply invalidateCells_matched.
Qed.

(** The loop issues [KEYS] and [DEL] only: the ranking set is exactly what
    it was, whatever was deleted. *)
Lemma invalidateRadius_keeps_scoreIndex db now (lat lng radius : R) :
  scoreIndex (invalidateRadius db now lat lng radius) now = scoreIndex db now.
Proof.
  unfold scoreIndex, Redis.live, invalidateRadius.
  rewrite invalidateCells_unmatched; [done |].
  intros cell _. apply cell_pattern_not_temporal_scores.
Qed.

(** C3 (what the code does): write a bucket for a query at [(lat, lng)]
    with radius [radius], then invalidate the same radius around the same
    point. The key was live and is deleted, and its ScoreIndex member, with
    the written score 1, is still there. *)
Theorem C3_invalidation_keeps_index_member (now : Z) (lat lng radius : R) (v : V) :
  let k := generateKey lat lng radius in
  let db1 := snd (setCacheWithTemporalDecay ∅ now k v now noAttributes) in
  let db2 := invalidateRadius db1 now lat lng radius in
  is_Some (Redis.live db1 now k) /\
  Redis.live db2 now k = None /\
  scoreIndex db2 now !! k = Some 1%R.
Proof.
  intros k db1 db2. split; [| split].
  - exists (writtenEntry now v now noAttributes).
    apply live_intro; [apply setCache_lookup, fresh_bucket_ttl_accepted |].
    apply writtenEntry_live.
    pose proof (calculateDynamicTTL_lower now now noAttributes). lia.
  - subst db2. eapply invalidateRadius_deletes; [left |].
    subst k. unfold generateKey. apply cell_pattern_matches.
  - subst db2 db1. rewrite invalidateRadius_keeps_scoreIndex.
    rewrite setCache_scoreIndex_fresh.
    + rewrite lookup_singleton_eq, calculateTemporalScore_now. done.
    + apply fresh_bucket_ttl_accepted.
    + apply geo_key_not_temporal_scores.
    + apply lookup_empty.
Qed.

End InvalidationClaims.

(** ** The hit-ratio optimizer *)

Section OptimizerFacts.

Import ProximityCache.
Context {S : Type}.
Implicit Types (db : gmap string (Redis.entry S)) (k geohash : string) (c : counters).

Lemma default_Some (d x : Z) : default d (Some x) = x.
Proof. reflexivity. Qed.

(** [EXPIRE] touches the key it names and no other. *)
Lemma expire_lookup_other db now (key k : string) (seconds : Z) :
  k <> key -> Redis.expire db now key seconds !! k = db !! k.
Proof.
  intros Hne. unfold Redis.expire.
  destruct (Redis.live db now key); [| done].
  by rewrite lookup_insert_ne.
Qed.

Lemma expire_absent db now (key : string) (seconds : Z) :
  db !! key = None -> Redis.expire db now key seconds = db.
Proof.
  intros Hk. unfold Redis.expire. by rewrite (live_absent db now key Hk).
Qed.

Lemma adjustCacheStrategy_lookup_other db now geohash (hitRatio : R) k :
  k <> ("geo:" ++ geohash ++ ":*")%string ->
  adjustCacheStrategy db now geohash hitRatio !! k = db !! k.
Proof.
  intros Hne. unfold adjustCacheStrategy.
  destruct (Rlt_dec hitRatio 0.3); [| done].
  by apply expire_lookup_other.
Qed.

(** Whatever the counters say, the optimizer changes no key other than the
    one literally named [geo:<geohash>:*]. *)
Lemma optimizeIfNeeded_lookup_other c db now geohash k :
  k <> ("geo:" ++ geohash ++ ":*")%string ->
  snd (optimizeIfNeeded c db now geohash) !! k = db !! k.
Proof.
  intros Hne. unfold optimizeIfNeeded.
  destruct (100 <=? _)%Z; [| done]. cbn [snd].
  destruct (Rlt_dec _ 0.5); [| done].
  by apply adjustCacheStrategy_lookup_other.
Qed.

Lemma trackHit_lookup_other c db now geohash k :
  k <> ("geo:" ++ geohash ++ ":*")%string ->
  snd (trackHit c db now geohash) !! k = db !! k.
Proof. apply optimizeIfNeeded_lookup_other. Qed.

Lemma trackMiss_lookup_other c db now geohash k :
  k <> ("geo:" ++ geohash ++ ":*")%string ->
  snd (trackMiss c db now geohash) !! k = db !! k.
Proof. apply optimizeIfNeeded_lookup_other. Qed.

(** Below the threshold of 100 events nothing but the counter moves. *)
Lemma trackMiss_below_threshold c db now geohash :
  (default 0 (hitCounter c !! geohash) + (default 0 (missCounter c !! geohash) + 1) < 100)%Z ->
  trackMiss c db now geohash
  = (Counters (hitCounter c)
       (<[geohash := (default 0 (missCounter c !! geohash) + 1)%Z]> (missCounter c)), db).
Proof.
  intros Hlt. unfold trackMiss, optimizeIfNeeded. cbn [hitCounter missCounter].
  rewrite lookup_insert_eq. rewrite default_Some.
  destruct (Z.leb_spec 100
    (default 0 (hitCounter c !! geohash) + (default 0 (missCounter c !! geohash) + 1))%Z);
    [lia | done].
Qed.

Lemma trackHit_below_threshold c db now geohash :
  (default 0 (hitCounter c !! geohash) + 1 + default 0 (missCounter c !! geohash) < 100)%Z ->
  trackHit c db now geohash
  = (Counters
       (<[geohash := (default 0 (hitCounter c !! geohash) + 1)%Z]> (hitCounter c))
       (missCounter c), db).
Proof.
  intros Hlt. unfold trackHit, optimizeIfNeeded. cbn [hitCounter missCounter].
  rewrite lookup_insert_eq. rewrite default_Some.
  destruct (Z.leb_spec 100
    (default 0 (hitCounter c !! geohash) + 1 + default 0 (missCounter c !! geohash))%Z);
    [lia | done].
Qed.

(** At the threshold both counters of the cell go back to 0. *)
Lemma optimizeIfNeeded_resets c db now geohash :
  (100 <= default 0 (hitCounter c !! geohash) + default 0 (missCounter c !! geohash))%Z ->
  hitCounter (fst (optimizeIfNeeded c db now geohash)) !! geohash = Some 0%Z /\
  missCounter (fst (optimizeIfNeeded c db now geohash)) !! geohash = Some 0%Z.
Proof.
  intros Hge. unfold optimizeIfNeeded.
  destruct (Z.leb_spec 100
    (default 0 (hitCounter c !! geohash) + default 0 (missCounter c !! geohash))%Z);
    [| lia].
  cbn [fst hitCounter missCounter]. by rewrite !lookup_insert_eq.
Qed.

End OptimizerFacts.

Section OptimizerClaims.

Import ProximityCache.
Context {S : Type}.

(** C6 (what the code does): a cell with 20 hits and 79 misses takes one
    more miss. The counters reach 100 with ratio 0.2 < 0.3 and are both
    reset to 0, but the key [geo:abc:5] of the cell keeps the expiry it had
    (7200 s after instant 0), it is not set to 1800 s: the [EXPIRE] command
    was sent for a key literally named [geo:abc:*]. *)
Theorem C6_low_ratio_leaves_cell_ttl (s : S) :
  let db : gmap string (Redis.entry S) :=
    {[ "geo:abc:5" := Redis.Entry (Redis.RString s) (Some 7200000%Z) ]} in
  let c := Counters {[ "abc" := 20%Z ]} {[ "abc" := 79%Z ]} in
  let out := trackMiss c db 0 "abc" in
  hitCounter (fst out) !! "abc" = Some 0%Z /\
  missCounter (fst out) !! "abc" = Some 0%Z /\
  snd out = Redis.expire db 0 "geo:abc:*" 1800 /\
  snd out !! "geo:abc:5" = Some (Redis.Entry (Redis.RString s) (Some 7200000%Z)).
Proof.
  intros db c out.
  assert (Hout : out = (Counters (<[ "abc" := 0%Z ]> {[ "abc" := 20%Z ]})
                          (<[ "abc" := 0%Z ]> (<[ "abc" := (79 + 1)%Z ]> {[ "abc" := 79%Z ]})),
                        Redis.expire db 0 "geo:abc:*" 1800)).
  { subst out c. unfold trackMiss, optimizeIfNeeded. cbn [hitCounter missCounter].
    rewrite !lookup_singleton_eq, !default_Some, lookup_insert_eq, !default_Some.
    change (100 <=? 20 + (79 + 1))%Z with true.
    change (20 + (79 + 1))%Z with 100%Z.
    destruct (Rlt_dec (IZR 20 / IZR 100) 0.5) as [_ | Hn]; [| exfalso; lra].
    unfold adjustCacheStrategy.
    destruct (Rlt_dec (IZR 20 / IZR 100) 0.3) as [_ | Hn]; [done | exfalso; lra]. }
  rewrite Hout. cbn [fst snd hitCounter missCounter].
  rewrite !lookup_insert_eq. do 3 (split; [done |]).
  rewrite expire_absent by (by apply lookup_singleton_ne).
  subst db. apply lookup_singleton_eq.
Qed.

End OptimizerClaims.

(** ** Scoring and ordering of a result page *)

Section SortingFacts.

Import PropertyService.
Local Open Scope R_scope.

Lemma sort_insert_perm {A : Type} (cmp : A -> A -> R) (x : A) (l : list A) :
  sort_insert cmp x l ≡ₚ x :: l.
Proof.
  induction l as [| y l IH]; [done |].
  cbn [sort_insert]. destruct (Rle_dec (cmp x y) 0); [done |].
  rewrite IH. apply Permutation_swap.
Qed.

Lemma Array_sort_perm {A : Type} (cmp : A -> A -> R) (l : list A) :
  Array_sort cmp l ≡ₚ l.
Proof.
  induction l as [| x l IH]; [done |].
  cbn [Array_sort]. rewrite sort_insert_perm. by rewrite IH.
Qed.




(** The score attached to an item ignores its badges: it is the score of a
    record of the same date without any badge, times the distance factor. *)
Lemma applyScoring_score (now : Z) (props : list property) :
  map score (applyScoring now props)
  = map (fun p => Decay.calculateTemporalScore now (date_added p) Decay.noAttributes *
                  (1 / (1 + distance p / 1000))) props.
Proof.
  unfold applyScoring. rewrite map_map. reflexivity.
Qed.

(** For an item without badges the attached score is the relevance of the
    specification. *)
Lemma applyScoring_plain (now : Z) (p : property) :
  badges p = Decay.noAttributes ->
  applyScoring now [p] = [Scored p (spec_relevance now p)].
Proof.
  intros Hb. unfold applyScoring, spec_relevance. cbn [map]. by rewrite Hb.
Qed.

End SortingFacts.

(** ** Neighbour warming *)

Section WarmingFacts.

Import PropertyService.
Context `{Geohash} `{NumberFormat} `{DocStore}.
Implicit Types (w : world) (ns : list string) (k : string).

(** The loop touches the Redis store and the query log only. *)
Lemma warmNeighbors_frame w now (lat lng radius : R) ns :
  decay_cacheHits (snd (warmNeighbors w now lat lng radius ns)) = decay_cacheHits w /\
  optimizer (snd (warmNeighbors w now lat lng radius ns)) = optimizer w /\
  redis_services (snd (warmNeighbors w now lat lng radius ns)) = redis_services w.
Proof.
  revert w. induction ns as [| n ns IH]; intros w; [done |].
  cbn [warmNeighbors].
  destruct (aggregate (warmPipeline lat lng radius)) as [found |]; [| done].
  destruct (0 <? Z.of_nat (length found))%Z;
    match goal with |- context [warmNeighbors ?w0 _ _ _ _ ns] =>
      destruct (IH w0) as (-> & -> & ->) end; done.
Qed.

(** When the warming query answers, the loop runs to its end and has sent
    one query per neighbour, each of them the same pipeline. *)
Lemma warmNeighbors_issued w now (lat lng radius : R) ns (found : list property) :
  aggregate (warmPipeline lat lng radius) = Some found ->
  fst (warmNeighbors w now lat lng radius ns) = true /\
  issued (snd (warmNeighbors w now lat lng radius ns))
  = (issued w ++ replicate (length ns) (warmPipeline lat lng radius))%list.
Proof.
  intros Hq. revert w. induction ns as [| n ns IH]; intros w.
  - cbn. by rewrite app_nil_r.
  - cbn [warmNeighbors]. rewrite Hq.
    destruct (0 <? Z.of_nat (length found))%Z.
    + match goal with |- context [warmNeighbors ?w0 _ _ _ _ ns] =>
        destruct (IH w0) as [-> ->] end.
      split; [done |]. cbn [length replicate issued with_client send].
      by rewrite <- app_assoc.
    + match goal with |- context [warmNeighbors ?w0 _ _ _ _ ns] =>
        destruct (IH w0) as [-> ->] end.
      split; [done |]. cbn [length replicate issued send].
      by rewrite <- app_assoc.
Qed.

(** When the warming query finds nothing, no key is written. *)
Lemma warmNeighbors_nothing_found w now (lat lng radius : R) ns :
  aggregate (warmPipeline lat lng radius) = Some [] ->
  client (snd (warmNeighbors w now lat lng radius ns)) = client w.
Proof.
  intros Hq. revert w. induction ns as [| n ns IH]; intros w; [done |].
  cbn [warmNeighbors]. rewrite Hq. cbn [length Z.of_nat Z.ltb Z.compare].
  by rewrite IH.
Qed.

(** When it finds something, every neighbour key ends up holding the warm
    bucket, whatever it held before. *)
Lemma warmNeighbors_written w now (lat lng radius : R) ns (found : list property) k :
  aggregate (warmPipeline lat lng radius) = Some found ->
  found <> [] ->
  k <> Decay.temporal_scores ->
  (exists n, n ∈ ns /\ k = ("geo:" ++ n ++ ":" ++ Number_toString radius)%string) \/
  client w !! k
  = Some (Decay.writtenEntry now (Warm (Warmed found now)) now Decay.noAttributes) ->
  client (snd (warmNeighbors w now lat lng radius ns)) !! k
  = Some (Decay.writtenEntry now (Warm (Warmed found now)) now Decay.noAttributes).
Proof.
  intros Hq Hne Hts. revert w. induction ns as [| n ns IH]; intros w Hk.
  - destruct Hk as [(n & Hn & _) | Hk]; [by apply elem_of_nil in Hn | done].
  - cbn [warmNeighbors]. rewrite Hq.
    replace (0 <? Z.of_nat (length found))%Z with true
      by (symmetry; apply Z.ltb_lt; destruct found; [done | cbn [length]; lia]).
    apply IH.
    destruct (decide (k = ("geo:" ++ n ++ ":" ++ Number_toString radius)%string))
      as [-> | Hother].
    + right. cbn [client with_client send]. apply setCache_lookup, fresh_bucket_ttl_accepted.
    + destruct Hk as [(n' & Hn' & ->) | Hk].
      * left. exists n'. split; [| done].
        apply elem_of_cons in Hn' as [-> | ?]; done.
      * right. cbn [client with_client send].
        by rewrite setCache_lookup_other.
Qed.

(** A key that is no neighbour key is left as it was. *)
Lemma warmNeighbors_lookup_other w now (lat lng radius : R) ns k :
  k <> Decay.temporal_scores ->
  (forall n, n ∈ ns -> k <> ("geo:" ++ n ++ ":" ++ Number_toString radius)%string) ->
  client (snd (warmNeighbors w now lat lng radius ns)) !! k = client w !! k.
Proof.
  intros Hts. revert w. induction ns as [| n ns IH]; intros w Hk; [done |].
  cbn [warmNeighbors].
  destruct (aggregate (warmPipeline lat lng radius)) as [found |]; [| done].
  rewrite IH by (intros n' Hn'; apply Hk; by right).
  destruct (0 <? Z.of_nat (length found))%Z; [| done].
  cbn [client with_client send].
  apply setCache_lookup_other; [| done]. apply Hk. left.
Qed.

End WarmingFacts.

(** ** The nearby-query coordinator *)

Section CoordinatorFacts.

Import PropertyService.
Context `{Geohash} `{NumberFormat} `{DocStore}.
Implicit Types (w : world) (k : string).

(** The coordinator never touches the counters of redis.services.js. *)
Lemma findNearbyProperties_redis_services w now (lat lng radius : R) (page limit : Z) :
  redis_services (snd (findNearbyProperties w now lat lng radius page limit))
  = redis_services w.
Proof.
  unfold findNearbyProperties.
  destruct (Decay.getCacheWithTemporalCheck _ now _) as [[cached |] st]; [done |].
  destruct (aggregate_count _) as [counts |]; [| done].
  destruct (aggregate _) as [found |]; [| done].
  match goal with |- context [warmNeighbors ?w0 now lat lng radius ?ns] =>
    pose proof (warmNeighbors_frame w0 now lat lng radius ns) as (_ & _ & Hrs);
    destruct (warmNeighbors w0 now lat lng radius ns) as [[|] w'] end;
    exact Hrs.
Qed.

(** A read that finds a live bucket which has not degraded: the coordinator
    returns the cached payload and counts the hit in decay.service.js and
    in the optimizer; no query is sent. *)
Lemma findNearbyProperties_hit w now (lat lng radius : R) (page limit : Z)
    (b : Decay.bucket payload) (t : option Z) :
  Redis.live (client w) now (ProximityCache.generateKey lat lng radius)
  = Some (Redis.Entry (Redis.RString b) t) ->
  ~ (Decay.calculateTemporalScore now (Decay.dateAdded (Decay.meta b))
       (Decay.attrs (Decay.meta b)) < Decay.score b * 0.7)%R ->
  findNearbyProperties w now lat lng radius page limit
  = (Some (Decay.data b),
     with_optimizer
       (World (client w) (decay_cacheHits w + 1) (optimizer w) (redis_services w) (issued w))
       (ProximityCache.trackHit (optimizer w) (client w) now
          (ProximityCache.generateKey lat lng radius))).
Proof.
  intros Hlive Hfresh. unfold findNearbyProperties.
  rewrite (getCache_hit (Decay.State (client w) (decay_cacheHits w)) now _ b t Hlive Hfresh).
  reflexivity.
Qed.

Lemma warm_outcome (r : payload) (warm : bool * world) :
  (let '(ok, w) := warm in if ok then (Some r, w) else (None, w))
  = (if fst warm then Some r else None, snd warm).
Proof. by destruct warm as [[|] w]. Qed.

(** A read that finds no live key is a miss and leaves the state alone. *)
Lemma getCache_absent {V : Type} (st : Decay.state V) (now : Z) k :
  Redis.live (Decay.client st) now k = None ->
  Decay.getCacheWithTemporalCheck st now k = (None, st).
Proof.
  intros Hlive. unfold Decay.getCacheWithTemporalCheck, Redis.get. by rewrite Hlive.
Qed.

(** A miss, whatever its cause (no live key, a degraded bucket that the
    read evicted, a failed command): the miss is counted, the count and page
    queries are sent, the scored and sorted page is cached under the key and
    the warming loop runs. *)
Lemma findNearbyProperties_miss w now (lat lng radius : R) (page limit : Z)
    (st : Decay.state payload) (counts : list Z) (found : list property) :
  Decay.getCacheWithTemporalCheck (Decay.State (client w) (decay_cacheHits w)) now
    (ProximityCache.generateKey lat lng radius) = (None, st) ->
  aggregate_count [GeoNear lng lat (radius * 1000); Count] = Some counts ->
  aggregate [GeoNear lng lat (radius * 1000); Skip ((page - 1) * limit); Limit limit]
  = Some found ->
  let cacheKey := ProximityCache.generateKey lat lng radius in
  let totalCount := match counts with n :: _ => n | [] => 0%Z end in
  let result :=
    Result (Array_sort (fun a b => (score b - score a)%R) (applyScoring now found))
      totalCount (Math_ceil (IZR totalCount / IZR limit)) page now (lat, lng) radius in
  let w1 := with_optimizer (with_decay w st)
              (ProximityCache.trackMiss (optimizer w) (Decay.client st) now cacheKey) in
  let w2 := send (send w1 [GeoNear lng lat (radius * 1000); Count])
              [GeoNear lng lat (radius * 1000); Skip ((page - 1) * limit); Limit limit] in
  let w3 := with_client w2
              (snd (Decay.setCacheWithTemporalDecay (client w2) now cacheKey
                      (Full result) now Decay.noAttributes)) in
  let warm := warmNeighbors w3 now lat lng radius
                (ProximityCache.getNeighbors lat lng radius) in
  findNearbyProperties w now lat lng radius page limit
  = (if fst warm then Some (Full result) else None, snd warm).
Proof.
  intros Hget Hcount Hpage. cbv zeta. unfold findNearbyProperties.
  rewrite Hget, Hcount, Hpage.
  match goal with |- _ = (_, snd ?warm) => exact (warm_outcome _ warm) end.
Qed.

(** On a miss the optimizer's counters are those left by [trackMiss],
    whether or not the document store answers. *)
Lemma findNearbyProperties_miss_tracked w now (lat lng radius : R) (page limit : Z) :
  Redis.live (client w) now (ProximityCache.generateKey lat lng radius) = None ->
  optimizer (snd (findNearbyProperties w now lat lng radius page limit))
  = fst (ProximityCache.trackMiss (optimizer w) (client w) now
           (ProximityCache.generateKey lat lng radius)).
Proof.
  intros Hlive. unfold findNearbyProperties.
  unfold Decay.getCacheWithTemporalCheck, Redis.get. cbn [Decay.client].
  rewrite Hlive. cbn [with_decay Decay.client Decay.cacheHits].
  destruct (aggregate_count _) as [counts |]; [| done].
  destruct (aggregate _) as [found |]; [| done].
  match goal with |- context [warmNeighbors ?w0 now lat lng radius ?ns] =>
    pose proof (warmNeighbors_frame w0 now lat lng radius ns) as (_ & Hopt & _);
    destruct (warmNeighbors w0 now lat lng radius ns) as [[|] w'] end;
    exact Hopt.
Qed.

(** Repeating a query while its bucket lives: if the first run was a miss
    whose queries answered and no neighbour key coincides with the key of
    the query, the second run returns the payload of the first. *)
Lemma findNearbyProperties_repeat w (now1 now2 : Z) (lat lng radius : R) (page limit : Z)
    (st : Decay.state payload) (counts : list Z) (found warmFound : list property) :
  Decay.getCacheWithTemporalCheck (Decay.State (client w) (decay_cacheHits w)) now1
    (ProximityCache.generateKey lat lng radius) = (None, st) ->
  aggregate_count [GeoNear lng lat (radius * 1000); Count] = Some counts ->
  aggregate [GeoNear lng lat (radius * 1000); Skip ((page - 1) * limit); Limit limit]
  = Some found ->
  aggregate [GeoNear lng lat (radius * 1000); Limit 10] = Some warmFound ->
  (forall n, n ∈ ProximityCache.getNeighbors lat lng radius ->
     ProximityCache.generateKey lat lng radius
     <> ("geo:" ++ n ++ ":" ++ Number_toString radius)%string) ->
  (now1 <= now2 < now1 + 7200 * 1000)%Z ->
  let first := findNearbyProperties w now1 lat lng radius page limit in
  let second := findNearbyProperties (snd first) now2 lat lng radius page limit in
  is_Some (fst first) /\ fst second = fst first /\
  decay_cacheHits (snd second) = (decay_cacheHits (snd first) + 1)%Z.
Proof.
  intros Hmiss Hcount Hpage Hwarm Hdistinct Hnow. cbv zeta.
  rewrite (findNearbyProperties_miss w now1 lat lng radius page limit st counts found
             Hmiss Hcount Hpage).
  cbv zeta. cbn [fst snd].
  match goal with |- context [warmNeighbors ?w0 now1 lat lng radius ?ns] =>
    set (w3 := w0); set (ns0 := ns) end.
  destruct (warmNeighbors_issued w3 now1 lat lng radius ns0 warmFound Hwarm) as [Hok _].
  rewrite Hok.
  match goal with |- context [Some (Full ?r0)] => set (r := r0) in * end.
  assert (Hlive : Redis.live (client (snd (warmNeighbors w3 now1 lat lng radius ns0))) now2
                    (ProximityCache.generateKey lat lng radius)
                  = Some (Decay.writtenEntry now1 (Full r) now1 Decay.noAttributes)).
  { apply live_intro.
    - rewrite warmNeighbors_lookup_other;
        [| apply geo_key_not_temporal_scores | exact Hdistinct].
      subst w3. cbn [client with_client]. apply setCache_lookup, fresh_bucket_ttl_accepted.
    - apply writtenEntry_live. rewrite fresh_bucket_ttl. lia. }
  rewrite (findNearbyProperties_hit _ now2 lat lng radius page limit _ _ Hlive).
  - cbn [fst snd Decay.data Decay.writtenBucket]. unfold with_optimizer.
    cbn [decay_cacheHits]. by eauto.
  - cbn [Decay.writtenBucket Decay.meta Decay.dateAdded Decay.attrs Decay.score].
    by apply fresh_bucket_not_degraded.
Qed.

End CoordinatorFacts.

Section WarmingClaims.

Import PropertyService.
Context `{Geohash} `{NumberFormat} `{DocStore}.

(** C10: neighbour warming after a cache miss. When the key of the query is
    not live and the queries answer, the coordinator sends, after the count
    and page queries, one warming query per neighbour cell, each centred at
    the coordinates of the original query (not at the neighbour cell) and
    limited to 10 items. If the warming query finds nothing, the loop writes
    no key; if it finds at least one item, every key
    [geo:<neighbour>:<radius>] holds the warm bucket afterwards, whatever
    the store held under it before (no presence check). *)
Theorem C10_warming_queries_and_writes (w : world) (now : Z) (lat lng radius : R)
    (page limit : Z) (st : Decay.state payload) (counts : list Z)
    (found warmFound : list property) :
  Decay.getCacheWithTemporalCheck (Decay.State (client w) (decay_cacheHits w)) now
    (ProximityCache.generateKey lat lng radius) = (None, st) ->
  aggregate_count [GeoNear lng lat (radius * 1000); Count] = Some counts ->
  aggregate [GeoNear lng lat (radius * 1000); Skip ((page - 1) * limit); Limit limit]
  = Some found ->
  aggregate [GeoNear lng lat (radius * 1000); Limit 10] = Some warmFound ->
  let cacheKey := ProximityCache.generateKey lat lng radius in
  let neighbors :=
    Geohash_neighbors (Geohash_encode lat lng (ProximityCache.getPrecision radius)) in
  let totalCount := match counts with n :: _ => n | [] => 0%Z end in
  let result :=
    Result (Array_sort (fun a b => (score b - score a)%R) (applyScoring now found))
      totalCount (Math_ceil (IZR totalCount / IZR limit)) page now (lat, lng) radius in
  let afterMainWrite :=
    snd (Decay.setCacheWithTemporalDecay
           (snd (ProximityCache.trackMiss (optimizer w) (Decay.client st) now cacheKey))
           now cacheKey (Full result) now Decay.noAttributes) in
  let out := findNearbyProperties w now lat lng radius page limit in
  fst out = Some (Full result) /\
  issued (snd out)
  = (issued w
     ++ [[GeoNear lng lat (radius * 1000); Count];
         [GeoNear lng lat (radius * 1000); Skip ((page - 1) * limit); Limit limit]]
     ++ replicate (length neighbors) [GeoNear lng lat (radius * 1000); Limit 10])%list /\
  (warmFound = [] -> client (snd out) = afterMainWrite) /\
  (warmFound <> [] ->
   forall neighbor, neighbor ∈ neighbors ->
     client (snd out) !! ("geo:" ++ neighbor ++ ":" ++ Number_toString radius)%string
     = Some (Decay.writtenEntry now (Warm (Warmed warmFound now)) now Decay.noAttributes)).
Proof.
  intros Hmiss Hcount Hpage Hwarm. cbv zeta.
  rewrite (findNearbyProperties_miss w now lat lng radius page limit st counts found
             Hmiss Hcount Hpage).
  cbv zeta. cbn [fst snd]. unfold ProximityCache.getNeighbors.
  match goal with |- context [warmNeighbors ?w0 now lat lng radius ?ns] =>
    set (w3 := w0); set (ns0 := ns) end.
  destruct (warmNeighbors_issued w3 now lat lng radius ns0 warmFound Hwarm) as [Hok Hlog].
  rewrite Hok, Hlog. split; [done |]. split; [| split].
  - subst w3. cbn [issued with_client send with_optimizer with_decay].
    rewrite <- !app_assoc. reflexivity.
  - intros ->. rewrite warmNeighbors_nothing_found by exact Hwarm. reflexivity.
  - intros Hne neighbor Hin.
    apply (warmNeighbors_written w3 now lat lng radius ns0 warmFound);
      [exact Hwarm | exact Hne | apply geo_key_not_temporal_scores |].
    left. by exists neighbor.
Qed.

End WarmingClaims.

(** C10 on a concrete run: the store already holds an old warm bucket under
    one neighbour key; after the miss that key holds the new warm bucket. *)
Lemma C10_warming_witness :
  let old : Decay.bucket PropertyService.payload :=
    Decay.Bucket (PropertyService.Warm (PropertyService.Warmed [] (-5))) 1 (-5)
      (Decay.Metadata (-5) Decay.noAttributes) in
  let w0 :=
    PropertyService.World
      {[ "geo:dr5rk:2" := Redis.Entry (Redis.RString old) (Some 7195000%Z) ]}
      0 (ProximityCache.Counters ∅ ∅) (RedisServices.Stats 0 0) [] in
  let out :=
    @PropertyService.findNearbyProperties Sample.geohash Sample.format
      (Sample.docs [Sample.plainHere]) w0 0 40.71 (-74.01) 2 1 5 in
  PropertyService.client (snd out) !! "geo:dr5rk:2"
  = Some (Decay.writtenEntry 0
            (PropertyService.Warm (PropertyService.Warmed [Sample.plainHere] 0))
            0 Decay.noAttributes).
Proof.
  intros old w0 out.
  pose proof (@C10_warming_queries_and_writes Sample.geohash Sample.format
                (Sample.docs [Sample.plainHere]) w0 0 40.71 (-74.01) 2 1 5
                (Decay.State (PropertyService.client w0) 0)
                [1%Z] [Sample.plainHere] [Sample.plainHere]) as Hclaim.
  cbv zeta in Hclaim.
  destruct Hclaim as (_ & _ & _ & Hwritten).
  - apply getCache_absent. apply live_absent. by apply lookup_singleton_ne.
  - reflexivity.
  - reflexivity.
  - reflexivity.
  - apply (Hwritten ltac:(discriminate) "dr5rk"). left.
Defined.

(** ** The HTTP handlers *)

Section HandlerFacts.

Import PropertyService Route.
Context `{Geohash} `{NumberFormat} `{DocStore}.

(** [/cacheStats] reports the counter of redis.services.js. *)
Lemma cacheStats_reports (w : world) (now : Z) :
  reportedCacheHits (cacheStats w now)
  = Some (RedisServices.cacheHits (redis_services w)).
Proof.
  unfold cacheStats.
  by destruct (RedisServices.getTotalCachedDocuments (client w) now).
Qed.

(** [/nearby] leaves that counter alone, hit or miss. *)
Lemma nearby_redis_services (w : world) (now : Z) (lat lng : option R) (radius : R)
    (page limit : Z) :
  redis_services (snd (nearby w now lat lng radius page limit)) = redis_services w.
Proof.
  unfold nearby. destruct lat as [lat |], lng as [lng |]; try done.
  pose proof (findNearbyProperties_redis_services w now lat lng radius page limit) as Hrs.
  by destruct (findNearbyProperties w now lat lng radius page limit)
    as [[[r | wr] |] w'].
Qed.

(** So no sequence of nearby queries moves the reported figure. *)
Lemma nearby_keeps_reported_cacheHits (w : world) (now now' : Z) (lat lng : option R)
    (radius : R) (page limit : Z) :
  reportedCacheHits (cacheStats (snd (nearby w now lat lng radius page limit)) now')
  = reportedCacheHits (cacheStats w now').
Proof.
  by rewrite !cacheStats_reports, nearby_redis_services.
Qed.

(** The handler answers with whatever the coordinator returned. *)
Lemma nearby_full (w w' : world) (now : Z) (lat lng radius : R) (page limit : Z)
    (r : result) :
  findNearbyProperties w now lat lng radius page limit = (Some (Full r), w') ->
  nearby w now (Some lat) (Some lng) radius page limit
  = (Json 200 (NearbyBody (ScoredListing (properties r)) (Some (totalCount r))
                 (Some (totalPages r)) page (page <? totalPages r)%Z), w').
Proof. intros Hfind. unfold nearby. by rewrite Hfind. Qed.

End HandlerFacts.

(** ** A concrete run: one query on a fresh server, then the same query again *)

Section RelevanceClaims.

Import PropertyService.
Context `{Geohash} `{NumberFormat} `{DocStore}.
Local Open Scope R_scope.





End RelevanceClaims.

Section SampleRun.

Import PropertyService Route.
#[local] Existing Instance Sample.geohash.
#[local] Existing Instance Sample.format.
#[local] Existing Instance Sample.twoRecords.
Local Open Scope R_scope.

(** The page the first query builds: the plain record with score 1, then
    the premium record with score 1/(1 + 0.1). *)
Lemma sample_page :
  Array_sort (fun a b => score b - score a)
    (applyScoring 0 [Sample.plainHere; Sample.premiumNear])
  = [Scored Sample.plainHere 1; Scored Sample.premiumNear (10 / 11)].
Proof.
  unfold applyScoring. cbn [map Array_sort sort_insert].
  cbn [Sample.plainHere Sample.premiumNear date_added distance score].
  rewrite calculateTemporalScore_now.
  destruct (Rle_dec _ 0) as [_ | Hn]; [| exfalso; apply Hn; lra].
  f_equal; [f_equal; lra | f_equal; f_equal; lra].
Qed.

Lemma sample_key : ProximityCache.generateKey 40.71 (-74.01) 2 = "geo:dr5r7:2"%string.
Proof. reflexivity. Qed.

Lemma sample_key_not_neighbor (n : string) :
  n ∈ ProximityCache.getNeighbors 40.71 (-74.01) 2 ->
  "geo:dr5r7:2"%string <> ("geo:" ++ n ++ ":" ++ Number_toString 2)%string.
Proof.
  unfold ProximityCache.getNeighbors. cbn [Geohash_neighbors Sample.geohash].
  intros Hn.
  repeat (apply elem_of_cons in Hn as [-> | Hn]; [discriminate |]).
  by apply elem_of_nil in Hn.
Qed.

(** The first query: a miss that returns the page and caches it under the
    key of the query; the warming writes do not touch that key. *)
Lemma sample_first_query :
  exists (r : result) (w1 : world),
    findNearbyProperties initial 0 40.71 (-74.01) 2 1 5 = (Some (Full r), w1) /\
    properties r = [Scored Sample.plainHere 1; Scored Sample.premiumNear (10 / 11)] /\
    client w1 !! "geo:dr5r7:2"%string
    = Some (Decay.writtenEntry 0 (Full r) 0 Decay.noAttributes) /\
    decay_cacheHits w1 = 0%Z.
Proof.
  pose proof (findNearbyProperties_miss initial 0 40.71 (-74.01) 2 1 5
                (Decay.State ∅ 0) [2%Z] [Sample.plainHere; Sample.premiumNear]) as Hmiss.
  cbv zeta in Hmiss. rewrite Hmiss; [| reflexivity ..]. clear Hmiss.
  match goal with |- context [warmNeighbors ?w0 0 40.71 (-74.01) 2 ?ns] =>
    set (w3 := w0); set (ns0 := ns) end.
  assert (Hwarm : aggregate (warmPipeline 40.71 (-74.01) 2)
                  = Some [Sample.plainHere; Sample.premiumNear]) by reflexivity.
  destruct (warmNeighbors_issued w3 0 40.71 (-74.01) 2 ns0 _ Hwarm) as [Hok _].
  destruct (warmNeighbors_frame w3 0 40.71 (-74.01) 2 ns0) as (Hhits & _ & _).
  eexists _, _. rewrite Hok. split; [reflexivity |].
  split; [apply sample_page |]. split; [| exact Hhits].
  rewrite warmNeighbors_lookup_other.
  - subst w3. cbn [client with_client]. rewrite <- sample_key. apply setCache_lookup, fresh_bucket_ttl_accepted.
  - discriminate.
  - apply sample_key_not_neighbor.
Qed.

End SampleRun.

Section SampleClaims.

Import PropertyService Route.
#[local] Existing Instance Sample.geohash.
#[local] Existing Instance Sample.format.
#[local] Existing Instance Sample.twoRecords.
Local Open Scope R_scope.

(** C8 (what the code does): the same nearby query twice in a row on a
    fresh server. The second answer equals the first and is served from the
    cache (the counter of decay.service.js goes from 0 to 1), but the
    [cacheHits] figure of [/cacheStats], which reads the counter of
    redis.services.js, is 0 before and after. *)
Theorem C8_repeat_is_hit_but_stats_unchanged :
  let query w := nearby w 0 (Some 40.71) (Some (-74.01)) 2 1 5 in
  let first := query initial in
  let second := query (snd first) in
  (exists body, fst first = Json 200 body /\ fst second = Json 200 body) /\
  decay_cacheHits (snd first) = 0%Z /\
  decay_cacheHits (snd second) = 1%Z /\
  reportedCacheHits (cacheStats (snd first) 0) = Some 0%Z /\
  reportedCacheHits (cacheStats (snd second) 0) = Some 0%Z.
Proof.
  intros query first second.
  destruct sample_first_query as (r & w1 & Hfind & _ & Hkey & Hhits).
  assert (Hfirst : first = (Json 200 (NearbyBody (ScoredListing (properties r))
                                        (Some (totalCount r)) (Some (totalPages r)) 1
                                        (1 <? totalPages r)%Z), w1)).
  { subst first query. cbv beta. by apply nearby_full. }
  assert (Hlive : Redis.live (client w1) 0 (ProximityCache.generateKey 40.71 (-74.01) 2)
                  = Some (Decay.writtenEntry 0 (Full r) 0 Decay.noAttributes)).
  { rewrite sample_key. apply live_intro; [exact Hkey |].
    apply writtenEntry_live.
    pose proof (calculateDynamicTTL_lower 0 0 Decay.noAttributes). lia. }
  assert (Hsecond : findNearbyProperties w1 0 40.71 (-74.01) 2 1 5
                    = (Some (Full r),
                       with_optimizer
                         (World (client w1) (decay_cacheHits w1 + 1) (optimizer w1)
                            (redis_services w1) (issued w1))
                         (ProximityCache.trackHit (optimizer w1) (client w1) 0
                            (ProximityCache.generateKey 40.71 (-74.01) 2)))).
  { apply (findNearbyProperties_hit w1 0 40.71 (-74.01) 2 1 5 _ _ Hlive).
    cbn [Decay.writtenBucket Decay.meta Decay.dateAdded Decay.attrs Decay.score].
    rewrite calculateTemporalScore_now. lra. }
  split; [| split; [| split; [| split]]].
  - eexists. split; [by rewrite Hfirst |].
    subst second query. cbv beta. rewrite Hfirst. cbn [snd fst].
    by rewrite (nearby_full _ _ _ _ _ _ _ _ _ Hsecond).
  - by rewrite Hfirst.
  - subst second query. cbv beta. rewrite Hfirst. cbn [snd].
    rewrite (nearby_full _ _ _ _ _ _ _ _ _ Hsecond). cbn [snd].
    unfold with_optimizer. cbn [decay_cacheHits]. lia.
  - rewrite cacheStats_reports. subst first query. cbv beta.
    by rewrite nearby_redis_services.
  - rewrite cacheStats_reports. subst second first query. cbv beta.
    by rewrite !nearby_redis_services.
Qed.

End SampleClaims.

Section PlainRun.

Import PropertyService.
#[local] Existing Instance Sample.geohash.
#[local] Existing Instance Sample.format.
#[local] Existing Instance Fixture.plainRecords.
Local Open Scope R_scope.


End PlainRun.

Section ValidationClaims.

Import PropertyService Route.
Context `{Geohash} `{NumberFormat} `{DocStore}.
Local Open Scope R_scope.

(** C5 (what the code does): latitude 100 is outside [-90, 90].
    [validateCoordinates] accepts it (its bounds are 5000 and 100000), and
    the [/nearby] handler, which checks presence only, does not answer 400:
    it reads the cache, counts a miss for the key of the query and goes on
    to the document store. *)
Theorem C5_latitude_100_is_not_rejected (now : Z) (lng radius : R) (page limit : Z) :
  Validation.validateCoordinates (Some 100) (Some 0) = Validation.Valid 100 0 /\
  let out := nearby initial now (Some 100) (Some lng) radius page limit in
  (forall status message, status = 400%Z -> fst out <> Error status message) /\
  ProximityCache.missCounter (optimizer (snd out))
    !! ProximityCache.generateKey 100 lng radius = Some 1%Z.
Proof.
  split.
  - unfold Validation.validateCoordinates.
    repeat (destruct (Rlt_dec _ _) as [Hlt | _]; [exfalso; lra |]).
    reflexivity.
  - cbv zeta.
    pose proof (findNearbyProperties_miss_tracked initial now 100 lng radius page limit
                  eq_refl) as Hopt.
    unfold nearby.
    destruct (findNearbyProperties initial now 100 lng radius page limit)
      as [[[r | wr] |] w'] eqn:Hfind; cbn [fst snd] in *.
    all: split; [intros status message ->; discriminate |].
    all: rewrite Hopt; unfold initial; cbn [optimizer client].
    all: rewrite trackMiss_below_threshold
           by (cbn [ProximityCache.hitCounter ProximityCache.missCounter];
               rewrite !lookup_empty; reflexivity).
    all: cbn [fst ProximityCache.missCounter]; rewrite lookup_insert_eq.
    all: by rewrite lookup_empty.
Qed.

End ValidationClaims.

(** * Further properties of the services *)

(** ** Ranking by temporal score *)

Section RankingFacts.

Import PropertyService DecayMaintenance.
Local Open Scope R_scope.

Context {A : Type} (key : A -> R).

Lemma sort_insert_by_key_HdRel (x a : A) (l : list A) :
  key a >= key x -> HdRel (fun u v => key u >= key v) a l ->
  HdRel (fun u v => key u >= key v) a (sort_insert (fun u v => key v - key u) x l).
Proof.
  intros Hax Hhd. destruct l as [| y l]; cbn [sort_insert].
  - by constructor.
  - destruct (Rle_dec _ 0); constructor; [done |]. by inversion Hhd.
Qed.

Lemma sort_insert_by_key_sorted (x : A) (l : list A) :
  Sorted (fun u v => key u >= key v) l ->
  Sorted (fun u v => key u >= key v) (sort_insert (fun u v => key v - key u) x l).
Proof.
  induction l as [| y l IH]; intros Hs; cbn [sort_insert].
  - repeat constructor.
  - destruct (Rle_dec (key y - key x) 0) as [Hle | Hgt].
    + constructor; [done |]. constructor. lra.
    + inversion Hs as [| ? ? Hl Hhd]; subst.
      constructor; [by apply IH |].
      apply sort_insert_by_key_HdRel; [lra | done].
Qed.

Lemma Array_sort_by_key_sorted (l : list A) :
  Sorted (fun u v => key u >= key v) (Array_sort (fun u v => key v - key u) l).
Proof.
  induction l as [| x l IH]; cbn [Array_sort]; [constructor |].
  by apply sort_insert_by_key_sorted.
Qed.

End RankingFacts.

Section RankingProperties.

Import PropertyService DecayMaintenance.
Local Open Scope R_scope.

(** X1: [sortByTemporalScore] returns the items it was given, each once,
    in order of non-increasing temporal score, the score of an item being
    computed with the item's own premium, featured and verified badges. *)
Theorem X1_sortByTemporalScore_sorts (now : Z) (properties : list property) :
  sortByTemporalScore now properties ≡ₚ properties /\
  Sorted (fun a b =>
            Decay.calculateTemporalScore now (date_added a) (badges a) >=
            Decay.calculateTemporalScore now (date_added b) (badges b))
         (sortByTemporalScore now properties).
Proof.
  split.
  - apply Array_sort_perm.
  - apply (Array_sort_by_key_sorted (temporalScoreOf now)).
Qed.

End RankingProperties.

(** ** Validation *)

Section ValidationProperties.

Local Open Scope R_scope.

(** X2: [validateCoordinates] accepts a pair exactly when both numbers
    parsed, the latitude lies in [-5000, 5000] and the longitude in
    [-100000, 100000]; it returns the coordinates unchanged. *)
Theorem X2_validateCoordinates_accepts (latitude longitude : option R) (lat lon : R) :
  Validation.validateCoordinates latitude longitude = Validation.Valid lat lon <->
  latitude = Some lat /\ longitude = Some lon /\
  -5000 <= lat <= 5000 /\ -100000 <= lon <= 100000.
Proof.
  unfold Validation.validateCoordinates.
  destruct latitude as [a |], longitude as [b |];
    try (split; [discriminate | by intros (? & ? & _)]).
  repeat destruct (Rlt_dec _ _); split;
    try discriminate;
    try (intros ([= <-] & [= <-] & ? & ?); exfalso; lra).
  - intros [= <- <-]. repeat split; lra.
  - by intros ([= <-] & [= <-] & _).
Qed.

(** X3: a pagination that [validatePagination] accepts has a page of at
    least 1 and a limit between 1 and 1000, so the number of documents to
    skip, (page - 1) x limit, is never negative. *)
Theorem X3_validatePagination_sound (page limit : option Z) (p l : Z) :
  Pagination.validatePagination page limit = Pagination.Valid p l ->
  (1 <= p)%Z /\ (1 <= l <= 1000)%Z /\ (0 <= (p - 1) * l)%Z.
Proof.
  unfold Pagination.validatePagination.
  destruct (Z.ltb_spec (Pagination.orElse page 1) 1); [discriminate |].
  destruct (Z.ltb_spec (Pagination.orElse limit 100) 1); [discriminate |].
  destruct (Z.ltb_spec 1000 (Pagination.orElse limit 100)); [discriminate |].
  intros [= <- <-]. repeat split; try lia. apply Z.mul_nonneg_nonneg; lia.
Qed.

Lemma X3_validatePagination_witness :
  (1 <= 2)%Z /\ (1 <= 50 <= 1000)%Z /\ (0 <= (2 - 1) * 50)%Z.
Proof.
  apply (X3_validatePagination_sound (Some 2%Z) (Some 50%Z)). reflexivity.
Defined.

(** X4: the page error arises exactly for a negative page. A page that is
    0 or does not parse is served as page 1, and likewise a limit that is 0
    or does not parse becomes 100. *)
Theorem X4_validatePagination_page_error (page limit : option Z) :
  (Pagination.validatePagination page limit
   = Pagination.Invalid "Page must be greater than 0" <->
   exists n, page = Some n /\ (n < 0)%Z) /\
  (forall l, (page = None \/ page = Some 0%Z) -> (1 <= l <= 1000)%Z ->
     Pagination.validatePagination page (Some l) = Pagination.Valid 1 l) /\
  (forall p, (limit = None \/ limit = Some 0%Z) -> (1 <= p)%Z ->
     Pagination.validatePagination (Some p) limit = Pagination.Valid p 100).
Proof.
  split; [| split].
  - unfold Pagination.validatePagination, Pagination.orElse. split.
    + destruct page as [n |].
      * destruct (Z.eqb_spec n 0) as [-> | Hn]; cbn.
        -- destruct limit as [l |]; [destruct (Z.eqb_spec l 0) |]; cbn;
             repeat (destruct (_ <? _)%Z; cbn); discriminate.
        -- destruct (Z.ltb_spec n 1); [intros _; exists n; split; [done | lia] |].
           destruct (_ || _); discriminate.
      * cbn. destruct (_ || _); discriminate.
    + intros (n & -> & Hn).
      destruct (Z.eqb_spec n 0); [lia |].
      destruct (Z.ltb_spec n 1); [done | lia].
  - intros l Hpage [Hl1 Hl2].
    unfold Pagination.validatePagination, Pagination.orElse.
    destruct (Z.eqb_spec l 0); [lia |].
    destruct Hpage as [-> | ->]; cbn;
      destruct (Z.ltb_spec l 1), (Z.ltb_spec 1000 l); try lia; reflexivity.
  - intros p Hlimit Hp.
    unfold Pagination.validatePagination, Pagination.orElse.
    destruct (Z.eqb_spec p 0); [lia |].
    destruct (Z.ltb_spec p 1); [lia |].
    destruct Hlimit as [-> | ->]; reflexivity.
Qed.

End ValidationProperties.

(** ** The ranking set under writes, reads and maintenance *)

Section IndexFacts.

Import Decay DecayMaintenance.
Context {V : Type}.
Implicit Types (db : gmap string (Redis.entry (bucket V))) (k : string).

Lemma scoreIndex_absent db now :
  Redis.live db now temporal_scores = None -> scoreIndex db now = ∅.
Proof. intros Hl. unfold scoreIndex. by rewrite Hl. Qed.

(** [ZADD] on a usable ranking set succeeds and inserts the member. *)
Lemma zAdd_scoreIndex db now (s : R) k :
  indexUsable db now ->
  exists db',
    Redis.zAdd db now temporal_scores s k = Some db' /\
    scoreIndex db' now = <[k := s]> (scoreIndex db now) /\
    (forall j, j <> temporal_scores -> db' !! j = db !! j) /\
    indexUsable db' now.
Proof.
  intros Hok. unfold Redis.zAdd, scoreIndex.
  destruct (Redis.live db now temporal_scores) as [e |] eqn:Hlive.
  - destruct (Hok e Hlive) as [m Hm]. rewrite Hm.
    apply live_Some in Hlive as [_ Hexp].
    eexists. split; [reflexivity |].
    assert (Hnew : Redis.live
              (<[temporal_scores := Redis.Entry (Redis.RZSet (<[k := s]> m)) (Redis.expireAt e)]> db)
              now temporal_scores
            = Some (Redis.Entry (Redis.RZSet (<[k := s]> m)) (Redis.expireAt e))).
    { apply live_intro; [apply lookup_insert_eq | exact Hexp]. }
    split; [by rewrite Hnew |]. split.
    + intros j Hj. by rewrite lookup_insert_ne.
    + intros e' He'. rewrite Hnew in He'. injection He' as <-. by eexists.
  - eexists. split; [reflexivity |].
    assert (Hnew : Redis.live
              (<[temporal_scores := Redis.Entry (Redis.RZSet {[k := s]}) None]> db)
              now temporal_scores
            = Some (Redis.Entry (Redis.RZSet {[k := s]}) None)).
    { apply live_intro; [apply lookup_insert_eq | reflexivity]. }
    split; [rewrite Hnew; cbn; by rewrite insert_empty |]. split.
    + intros j Hj. by rewrite lookup_insert_ne.
    + intros e' He'. rewrite Hnew in He'. injection He' as <-. by eexists.
Qed.

(** [ZREM] on a usable ranking set succeeds and removes the member. *)
Lemma zRem_scoreIndex db now k :
  indexUsable db now ->
  exists db',
    Redis.zRem db now temporal_scores k = Some db' /\
    scoreIndex db' now = delete k (scoreIndex db now) /\
    (forall j, j <> temporal_scores -> db' !! j = db !! j) /\
    indexUsable db' now.
Proof.
  intros Hok. unfold Redis.zRem, scoreIndex.
  destruct (Redis.live db now temporal_scores) as [e |] eqn:Hlive.
  - destruct (Hok e Hlive) as [m Hm]. rewrite Hm.
    apply live_Some in Hlive as [_ Hexp].
    destruct (decide (delete k m = ∅)) as [Hempty | Hnonempty].
    + eexists. split; [reflexivity |].
      assert (Hgone : Redis.live (delete temporal_scores db) now temporal_scores = None)
        by (apply live_absent, lookup_delete_eq).
      split; [by rewrite Hgone, Hempty |]. split.
      * intros j Hj. by rewrite lookup_delete_ne.
      * intros e' He'. rewrite Hgone in He'. discriminate.
    + eexists. split; [reflexivity |].
      assert (Hnew : Redis.live
                (<[temporal_scores := Redis.Entry (Redis.RZSet (delete k m)) (Redis.expireAt e)]> db)
                now temporal_scores
              = Some (Redis.Entry (Redis.RZSet (delete k m)) (Redis.expireAt e))).
      { apply live_intro; [apply lookup_insert_eq | exact Hexp]. }
      split; [by rewrite Hnew |]. split.
      * intros j Hj. by rewrite lookup_insert_ne.
      * intros e' He'. rewrite Hnew in He'. injection He' as <-. by eexists.
  - eexists. split; [reflexivity |]. rewrite Hlive.
    split; [by rewrite delete_empty |]. split; [done |].
    intros e' He'. rewrite Hlive in He'. discriminate.
Qed.

Lemma live_ext db db' now k :
  db' !! k = db !! k -> Redis.live db' now k = Redis.live db now k.
Proof. intros Heq. unfold Redis.live. by rewrite Heq. Qed.

End IndexFacts.

Section IndexProperties.

Import Decay DecayMaintenance.
Context {V : Type}.
Implicit Types (db : gmap string (Redis.entry (bucket V))) (k : string).

(** X5: a write keeps bucket and ranking set in step. When the TTL computed
    for the record is an expire time that [SETEX] takes (it is for every
    record not dated in the future), the key is not the name of the
    ranking set and that name holds a sorted set or nothing,
    [setCacheWithTemporalDecay] returns [true], the key is live with the
    written bucket, the ranking set scores the key with the very score
    stored in the bucket, and no other member of the ranking set moves. *)
Theorem X5_write_keeps_index_in_step db (now : Z) k (v : V) (d : Z) (a : attributes) :
  (calculateDynamicTTL (calculateTemporalScore now d a) defaultBaseTime
   <= maxExpireSeconds)%Z ->
  k <> temporal_scores ->
  indexUsable db now ->
  let out := setCacheWithTemporalDecay db now k v d a in
  fst out = true /\
  Redis.live (snd out) now k = Some (writtenEntry now v d a) /\
  scoreIndex (snd out) now !! k = Some (score (writtenBucket now v d a)) /\
  (forall k', k' <> k -> scoreIndex (snd out) now !! k' = scoreIndex db now !! k').
Proof.
  intros Hmax Hk Hok out.
  pose proof (calculateDynamicTTL_lower now d a) as Httl.
  assert (Hlive : Redis.live (snd out) now k = Some (writtenEntry now v d a)).
  { apply live_intro; [by apply setCache_lookup |]. apply writtenEntry_live. lia. }
  subst out. unfold setCacheWithTemporalDecay, Redis.setEx in *.
  destruct (Z.ltb_spec maxExpireSeconds
              (calculateDynamicTTL (calculateTemporalScore now d a) defaultBaseTime));
    [lia |].
  destruct (Z.leb_spec (calculateDynamicTTL (calculateTemporalScore now d a) defaultBaseTime) 0);
    [lia |].
  match goal with |- context [Redis.zAdd ?db1 now temporal_scores ?s k] =>
    destruct (zAdd_scoreIndex db1 now s k) as (db2 & Hadd & Hindex & _ & _) end.
  { intros e He. apply (Hok e). rewrite <- He. symmetry. apply live_ext.
    by rewrite lookup_insert_ne. }
  rewrite Hadd in *. cbn [fst snd] in *.
  split; [done |]. split; [exact Hlive |].
  assert (Hsame : scoreIndex
            (<[k := Redis.Entry
                      (Redis.RString (Bucket v (calculateTemporalScore now d a) now (Metadata d a)))
                      (Some (now + calculateDynamicTTL (calculateTemporalScore now d a)
                                     defaultBaseTime * 1000)%Z)]> db) now
          = scoreIndex db now).
  { unfold scoreIndex. erewrite live_ext; [reflexivity |]. by rewrite lookup_insert_ne. }
  rewrite Hindex, Hsame. split.
  - by rewrite lookup_insert_eq.
  - intros k' Hk'. by rewrite lookup_insert_ne.
Qed.

(** X6: a read that finds a live bucket is counted in [cacheHits] whether
    it is served or not: the counter grows by one also when the bucket has
    degraded, the key is evicted and the read returns null. The read
    returns null exactly when the recomputed score is below 0.7 x the
    stored score. *)
Theorem X6_read_counts_every_live_bucket (st : state V) (now : Z) k (b : bucket V)
    (t : option Z) :
  Redis.live (client st) now k = Some (Redis.Entry (Redis.RString b) t) ->
  let out := getCacheWithTemporalCheck st now k in
  let stale :=
    (calculateTemporalScore now (dateAdded (meta b)) (attrs (meta b)) < score b * 0.7)%R in
  cacheHits (snd out) = (cacheHits st + 1)%Z /\
  (fst out = None <-> stale) /\
  (stale -> client (snd out) !! k = None) /\
  (~ stale -> fst out = Some (data b) /\ client (snd out) = client st).
Proof.
  intros Hlive out stale. subst out.
  destruct (Rlt_dec (calculateTemporalScore now (dateAdded (meta b)) (attrs (meta b)))
              (score b * 0.7)) as [Hs | Hf].
  - destruct (getCache_stale st now k b t Hlive Hs) as (H1 & H2 & _ & H4).
    split; [exact H4 |]. split; [done |]. split; [done |]. intros Hn. by destruct Hn.
  - rewrite (getCache_hit st now k b t Hlive Hf). cbn [fst snd cacheHits client].
    split; [done |]. split; [split; [discriminate | done] |]. split; [done | done].
Qed.

End IndexProperties.

Lemma X5_write_witness :
  Decay.scoreIndex
    (snd (Decay.setCacheWithTemporalDecay (V := nat) ∅ 0 "geo:dr5r7:2" 7%nat 0
            Decay.noAttributes)) 0
    !! "geo:dr5r7:2"
  = Some (Decay.score (Decay.writtenBucket 0 7%nat 0 Decay.noAttributes)).
Proof.
  pose proof (X5_write_keeps_index_in_step (V := nat) ∅ 0 "geo:dr5r7:2" 7%nat 0
                Decay.noAttributes) as Hx.
  cbv zeta in Hx. destruct Hx as (_ & _ & Hindex & _).
  - apply fresh_bucket_ttl_accepted.
  - discriminate.
  - intros e He. discriminate He.
  - exact Hindex.
Defined.

Lemma X6_read_witness :
  let old : Decay.bucket nat := Decay.Bucket 7%nat 1 0 (Decay.Metadata 0 Decay.noAttributes) in
  let st := Decay.State {[ "geo:dr5r7:2" := Redis.Entry (Redis.RString old) None ]} 41 in
  Decay.cacheHits (snd (Decay.getCacheWithTemporalCheck st 0 "geo:dr5r7:2")) = 42%Z.
Proof.
  intros old st.
  pose proof (X6_read_counts_every_live_bucket st 0 "geo:dr5r7:2" old None) as Hx.
  cbv zeta in Hx. destruct Hx as (Hcount & _).
  - reflexivity.
  - exact Hcount.
Defined.


(** ** Refreshing and cleaning the ranking set *)

Section MaintenanceFacts.

Import Decay DecayMaintenance.
Context {V : Type}.
Implicit Types (db : gmap string (Redis.entry (bucket V))) (k : string).

Lemma get_ext db db' now k :
  db' !! k = db !! k -> Redis.get db' now k = Redis.get db now k.
Proof. intros Heq. unfold Redis.get. by rewrite (live_ext db db' now k Heq). Qed.

(** The score the refresh gives to a member: the current score of the
    bucket under its name, nothing when there is no bucket. *)
Lemma refreshMembers_index db now (ks : list string) :
  indexUsable db now ->
  temporal_scores ∉ ks ->
  (forall k, k ∈ ks -> Redis.get db now k <> None) ->
  indexUsable (refreshMembers db now ks) now /\
  (forall j, j <> temporal_scores -> refreshMembers db now ks !! j = db !! j) /\
  (forall j, scoreIndex (refreshMembers db now ks) now !! j
             = if decide (j ∈ ks) then
                 match Redis.get db now j with
                 | Some (Some b) =>
                     Some (calculateTemporalScore now (dateAdded (meta b)) (attrs (meta b)))
                 | _ => None
                 end
               else scoreIndex db now !! j).
Proof.
  revert db. induction ks as [| k ks IH]; intros db Hok Hts Hget.
  - cbn [refreshMembers]. split; [done |]. split; [done |].
    intros j. destruct (decide (j ∈ [])) as [Hin |]; [by apply elem_of_nil in Hin | done].
  - assert (Hk : k <> temporal_scores) by (intros ->; apply Hts; left).
    assert (Hts' : temporal_scores ∉ ks) by (intros Hin; apply Hts; by right).
    cbn [refreshMembers].
    destruct (Redis.get db now k) as [[b |] |] eqn:Hgk;
      [| | by destruct (Hget k ltac:(left))].
    + destruct (zAdd_scoreIndex db now
                  (calculateTemporalScore now (dateAdded (meta b)) (attrs (meta b))) k Hok)
        as (db1 & -> & Hindex & Hframe & Hok1).
      destruct (IH db1 Hok1 Hts') as (Hok' & Hframe' & Hindex').
      { intros k' Hk'. rewrite (get_ext db db1 now k'); [apply Hget; by right |].
        apply Hframe. intros ->. by apply Hts'. }
      split; [exact Hok' |]. split.
      { intros j Hj. by rewrite Hframe', Hframe. }
      intros j. rewrite Hindex'.
      destruct (decide (j ∈ ks)) as [Hin | Hnin].
      * rewrite decide_True by (by right).
        rewrite (get_ext db db1 now j); [done |].
        apply Hframe. intros ->. by apply Hts'.
      * rewrite Hindex. destruct (decide (j = k)) as [-> | Hne].
        -- rewrite decide_True by left. by rewrite lookup_insert_eq, Hgk.
        -- rewrite lookup_insert_ne by done.
           rewrite decide_False; [done |].
           intros [-> | ?]%elem_of_cons; done.
    + destruct (zRem_scoreIndex db now k Hok) as (db1 & -> & Hindex & Hframe & Hok1).
      destruct (IH db1 Hok1 Hts') as (Hok' & Hframe' & Hindex').
      { intros k' Hk'. rewrite (get_ext db db1 now k'); [apply Hget; by right |].
        apply Hframe. intros ->. by apply Hts'. }
      split; [exact Hok' |]. split.
      { intros j Hj. by rewrite Hframe', Hframe. }
      intros j. rewrite Hindex'.
      destruct (decide (j ∈ ks)) as [Hin | Hnin].
      * rewrite decide_True by (by right).
        rewrite (get_ext db db1 now j); [done |].
        apply Hframe. intros ->. by apply Hts'.
      * rewrite Hindex. destruct (decide (j = k)) as [-> | Hne].
        -- rewrite decide_True by left. by rewrite lookup_delete_eq, Hgk.
        -- rewrite lookup_delete_ne by done.
           rewrite decide_False; [done |].
           intros [-> | ?]%elem_of_cons; done.
Qed.

Lemma elem_of_members (m : gmap string R) k :
  k ∈ (map_to_list m).*1 <-> is_Some (m !! k).
Proof.
  rewrite list_elem_of_fmap. split.
  - intros ([k' s] & -> & Hin). apply elem_of_map_to_list in Hin. by exists s.
  - intros [s Hs]. exists (k, s). split; [done |]. by apply elem_of_map_to_list.
Qed.

End MaintenanceFacts.

Section MaintenanceProperties.

Import Decay DecayMaintenance.
Context {V : Type}.
Implicit Types (db : gmap string (Redis.entry (bucket V))) (k : string).

(** X7: [updateTemporalScores] reconciles the ranking set with the store.
    Provided no member of the ranking set is the name of a sorted set, the
    refresh leaves every cache key as it was, and afterwards the ranking
    set holds exactly its former members that still name a live bucket,
    each with the score recomputed now from the bucket's stored metadata;
    members whose key is gone (orphans) are dropped. *)
Theorem X7_updateTemporalScores_reconciles db (now : Z) :
  (forall k, is_Some (scoreIndex db now !! k) -> Redis.get db now k <> None) ->
  let db' := updateTemporalScores db now in
  (forall j, j <> temporal_scores -> db' !! j = db !! j) /\
  (forall j s,
     scoreIndex db' now !! j = Some s <->
     is_Some (scoreIndex db now !! j) /\
     exists b, Redis.get db now j = Some (Some b) /\
               s = calculateTemporalScore now (dateAdded (meta b)) (attrs (meta b))).
Proof.
  intros Hget db'. subst db'. unfold updateTemporalScores, RedisSets.zRange.
  destruct (Redis.live db now temporal_scores) as [e |] eqn:Hlive.
  - destruct (Redis.value e) as [str | m] eqn:Hval.
    + split; [done |]. intros j s.
      assert (Hempty : scoreIndex db now = ∅)
        by (unfold scoreIndex; by rewrite Hlive, Hval).
      rewrite Hempty, lookup_empty. split; [discriminate | by intros [[? [=]] _]].
    + assert (Hindex0 : scoreIndex db now = m)
        by (unfold scoreIndex; by rewrite Hlive, Hval).
      assert (Hok : indexUsable db now).
      { intros e' He'. rewrite Hlive in He'. injection He' as <-. by exists m. }
      assert (Hts : temporal_scores ∉ (map_to_list m).*1).
      { intros Hin. apply elem_of_members in Hin.
        apply (Hget temporal_scores); [by rewrite Hindex0 |].
        unfold Redis.get. by rewrite Hlive, Hval. }
      destruct (refreshMembers_index db now (map_to_list m).*1 Hok Hts)
        as (_ & Hframe & Hindex).
      { intros k Hk. apply Hget. rewrite Hindex0. by apply elem_of_members. }
      split; [exact Hframe |]. intros j s. rewrite Hindex, Hindex0.
      destruct (decide (j ∈ (map_to_list m).*1)) as [Hin | Hnin].
      * apply elem_of_members in Hin.
        destruct (Redis.get db now j) as [[b |] |]; split.
        -- intros [= <-]. split; [done |]. by exists b.
        -- by intros (_ & b' & [= <-] & ->).
        -- discriminate.
        -- by intros (_ & b' & [=] & _).
        -- discriminate.
        -- by intros (_ & b' & [=] & _).
      * split.
        -- intros Hs. exfalso. apply Hnin, elem_of_members. by exists s.
        -- intros (Hsome & _). exfalso. by apply Hnin, elem_of_members.
  - cbn [fmap list_fmap map_to_list refreshMembers].
    split; [done |]. intros j s.
    rewrite (scoreIndex_absent db now Hlive), lookup_empty.
    split; [discriminate | by intros [[? [=]] _]].
Qed.

End MaintenanceProperties.

(** X7 on a store with one live bucket and one orphan member: the orphan
    is dropped. *)
Lemma X7_updateTemporalScores_witness :
  let b : Decay.bucket nat := Decay.Bucket 7%nat 1 0 (Decay.Metadata 0 Decay.noAttributes) in
  let db : gmap string (Redis.entry (Decay.bucket nat)) :=
    {[ "geo:dr5r7:2" := Redis.Entry (Redis.RString b) None;
       "temporal_scores" :=
         Redis.Entry (Redis.RZSet {[ "geo:dr5r7:2" := 1%R; "geo:gone:2" := 1%R ]}) None ]} in
  Decay.scoreIndex (DecayMaintenance.updateTemporalScores db 0) 0 !! "geo:gone:2" = None.
Proof.
  intros b db.
  pose proof (X7_updateTemporalScores_reconciles db 0) as Hx. cbv zeta in Hx.
  destruct Hx as (_ & Hindex).
  - intros k [s Hs]. unfold Decay.scoreIndex in Hs.
    replace (Redis.live db 0 Decay.temporal_scores)
      with (Some (Redis.Entry (S := Decay.bucket nat)
                    (Redis.RZSet {[ "geo:dr5r7:2" := 1%R; "geo:gone:2" := 1%R ]}) None))
      in Hs by reflexivity.
    cbn [Redis.value] in Hs.
    apply lookup_insert_Some in Hs as [[<- _] | [_ Hs]].
    + replace (Redis.get db 0 "geo:dr5r7:2") with (Some (Some b)) by reflexivity.
      discriminate.
    + apply lookup_singleton_Some in Hs as [<- _].
      replace (Redis.get db 0 "geo:gone:2") with (@Some (option (Decay.bucket nat)) None)
        by reflexivity.
      discriminate.
  - destruct (Decay.scoreIndex (DecayMaintenance.updateTemporalScores db 0) 0 !! "geo:gone:2")
      as [s |] eqn:Hs; [| reflexivity].
    apply Hindex in Hs as (_ & b' & Hb' & _).
    replace (Redis.get db 0 "geo:gone:2") with (@Some (option (Decay.bucket nat)) None)
      in Hb' by reflexivity.
    discriminate Hb'.
Defined.

Section CleanupFacts.

Import Decay DecayMaintenance.
Context {V : Type}.
Implicit Types (db : gmap string (Redis.entry (bucket V))) (k : string).

(** One [DEL] per key of a list removes exactly the keys of the list. *)
Lemma lookup_del_each db (ks : list string) k :
  foldl (fun d key => Redis.del d [key]) db ks !! k
  = if decide (k ∈ ks) then None else db !! k.
Proof.
  revert db. induction ks as [| k0 ks IH]; intros db.
  - destruct (decide (k ∈ [])) as [Hin |]; [by apply elem_of_nil in Hin | done].
  - cbn [foldl]. rewrite IH. rewrite lookup_del.
    destruct (decide (k ∈ ks)) as [Hin | Hnin].
    + rewrite decide_True by (by right). done.
    + destruct (decide (k ∈ [k0])) as [Hk | Hk].
      * apply list_elem_of_singleton in Hk as ->. rewrite decide_True by left. done.
      * rewrite decide_False; [done |].
        intros [-> | ?]%elem_of_cons; [| done]. apply Hk. left.
Qed.

End CleanupFacts.

Section CleanupProperties.

Import Decay DecayMaintenance.
#[local] Existing Instance RedisSets.Rle_decision.
#[local] Existing Instance RedisSets.inRange_decision.
Context {V : Type}.
Implicit Types (db : gmap string (Redis.entry (bucket V))) (k : string).
Local Open Scope R_scope.

(** X8: [cleanupTemporalCache(threshold)] removes what the ranking set
    scores at most [threshold] (and at least 0). Provided the ranking set
    does not list its own name, afterwards its members are exactly the
    former members scored outside [[0, threshold]], with their scores;
    every key that was scored inside the range is deleted from the store;
    every other cache key is as it was; and the result is the number of
    members that were inside the range. *)
Theorem X8_cleanupTemporalCache_removes_low_scores db (now : Z) (threshold : R) :
  scoreIndex db now !! temporal_scores = None ->
  let out := cleanupTemporalCache db now threshold in
  (forall k s, scoreIndex (snd out) now !! k = Some s <->
               scoreIndex db now !! k = Some s /\ ~ (0 <= s <= threshold)) /\
  (forall k s, scoreIndex db now !! k = Some s -> 0 <= s <= threshold ->
               snd out !! k = None) /\
  (forall k, k <> temporal_scores ->
             (forall s, scoreIndex db now !! k = Some s -> ~ (0 <= s <= threshold)) ->
             snd out !! k = db !! k) /\
  fst out = Z.of_nat (size (filter (RedisSets.inRange 0 threshold) (scoreIndex db now))).
Proof.
  intros Hself out. subst out.
  unfold cleanupTemporalCache, RedisSets.zRangeByScore.
  destruct (Redis.live db now temporal_scores) as [e |] eqn:Hlive.
  2:{ change (0 <? Z.of_nat (length (@nil string)))%Z with false. cbn [fst snd].
      rewrite (scoreIndex_absent db now Hlive).
      split; [| split; [| split]]; try done.
      intros k s. rewrite lookup_empty. split; [discriminate | by intros [? _]]. }
  destruct (Redis.value e) as [str | m] eqn:Hval.
  { assert (Hempty : scoreIndex db now = ∅)
      by (unfold scoreIndex; by rewrite Hlive, Hval).
    cbn [fst snd]. rewrite Hempty.
    split; [| split; [| split]]; try done.
    intros k s. rewrite lookup_empty. split; [discriminate | by intros [? _]]. }
  assert (Hindex0 : scoreIndex db now = m)
    by (unfold scoreIndex; by rewrite Hlive, Hval).
  rewrite Hindex0 in *.
  set (low := (map_to_list (filter (RedisSets.inRange 0 threshold) m)).*1).
  assert (Hlow : forall k, k ∈ low <-> exists s, m !! k = Some s /\ 0 <= s <= threshold).
  { intros k. subst low. rewrite elem_of_members. split.
    - intros [s Hs]. apply map_lookup_filter_Some in Hs as [Hs Hr]. by exists s.
    - intros (s & Hs & Hr). exists s. by apply map_lookup_filter_Some. }
  assert (Hlen : length low = size (filter (RedisSets.inRange 0 threshold) m)).
  { subst low. by rewrite length_fmap, length_map_to_list. }
  destruct (Z.ltb_spec 0 (Z.of_nat (length low))) as [Hpos | Hzero].
  - set (db1 := foldl (fun d key => Redis.del d [key]) db low).
    assert (Hts1 : db1 !! temporal_scores = db !! temporal_scores).
    { subst db1. rewrite lookup_del_each. rewrite decide_False; [done |].
      intros Hin. apply Hlow in Hin as (s & Hs & _). congruence. }
    assert (Hlive1 : Redis.live db1 now temporal_scores = Some e)
      by (rewrite (live_ext db db1 now _ Hts1); exact Hlive).
    unfold RedisSets.zRemRangeByScore. rewrite Hlive1, Hval.
    set (m' := filter (fun member => ~ RedisSets.inRange 0 threshold member) m).
    assert (Hm' : forall k s, m' !! k = Some s <-> m !! k = Some s /\ ~ (0 <= s <= threshold)).
    { intros k s. subst m'. apply map_lookup_filter_Some. }
    apply live_Some in Hlive as [_ Hexp].
    destruct (decide (m' = ∅)) as [Hempty | Hnonempty]; cbn [fst snd].
    + split; [| split; [| split]].
      * intros k s. rewrite scoreIndex_absent by (apply live_absent, lookup_delete_eq).
        rewrite <- Hm', Hempty. done.
      * intros k s Hs Hr.
        assert (k <> temporal_scores) by (intros ->; congruence).
        rewrite lookup_delete_ne by done. subst db1. rewrite lookup_del_each.
        rewrite decide_True; [done |]. apply Hlow. by exists s.
      * intros k Hk Hout. rewrite lookup_delete_ne by done.
        subst db1. rewrite lookup_del_each. rewrite decide_False; [done |].
        intros Hin. apply Hlow in Hin as (s & Hs & Hr). by apply (Hout s).
      * by rewrite Hlen.
    + assert (Hnew : scoreIndex
                (<[temporal_scores := Redis.Entry (Redis.RZSet m') (Redis.expireAt e)]> db1) now
              = m').
      { unfold scoreIndex. erewrite live_intro; [| apply lookup_insert_eq | exact Hexp]. done. }
      split; [| split; [| split]].
      * intros k s. rewrite Hnew. apply Hm'.
      * intros k s Hs Hr.
        assert (k <> temporal_scores) by (intros ->; congruence).
        rewrite lookup_insert_ne by done. subst db1. rewrite lookup_del_each.
        rewrite decide_True; [done |]. apply Hlow. by exists s.
      * intros k Hk Hout. rewrite lookup_insert_ne by done.
        subst db1. rewrite lookup_del_each. rewrite decide_False; [done |].
        intros Hin. apply Hlow in Hin as (s & Hs & Hr). by apply (Hout s).
      * by rewrite Hlen.
  - assert (Hnil : low = []) by (destruct low; [done | cbn [length] in Hzero; lia]).
    cbn [fst snd]. split; [| split; [| split]].
    + intros k s. rewrite Hindex0. split; [| by intros [? _]].
      intros Hs. split; [done |]. intros Hr.
      assert (Hin : k ∈ low) by (apply Hlow; by exists s).
      rewrite Hnil in Hin. by apply elem_of_nil in Hin.
    + intros k s Hs Hr. exfalso.
      assert (Hin : k ∈ low) by (apply Hlow; by exists s).
      rewrite Hnil in Hin. by apply elem_of_nil in Hin.
    + done.
    + by rewrite Hlen.
Qed.

End CleanupProperties.

(** X8 on a store whose ranking set scores an old key 0.2 and a fresh key
    1: the old key is deleted by a cleanup at threshold 0.3. *)
Lemma X8_cleanupTemporalCache_witness :
  let b : Decay.bucket nat := Decay.Bucket 7%nat 1 0 (Decay.Metadata 0 Decay.noAttributes) in
  let db : gmap string (Redis.entry (Decay.bucket nat)) :=
    {[ "geo:old:2" := Redis.Entry (Redis.RString b) None;
       "temporal_scores" :=
         Redis.Entry (Redis.RZSet {[ "geo:old:2" := 0.2%R; "geo:new:2" := 1%R ]}) None ]} in
  snd (DecayMaintenance.cleanupTemporalCache db 0 DecayMaintenance.defaultThreshold)
    !! "geo:old:2" = None.
Proof.
  intros b db.
  assert (Hindex : Decay.scoreIndex db 0 = {[ "geo:old:2" := 0.2%R; "geo:new:2" := 1%R ]})
    by reflexivity.
  pose proof (X8_cleanupTemporalCache_removes_low_scores db 0 DecayMaintenance.defaultThreshold)
    as Hx.
  cbv zeta in Hx. destruct Hx as (_ & Hdeleted & _).
  - rewrite Hindex. rewrite lookup_insert_ne by discriminate.
    by apply lookup_singleton_ne.
  - apply (Hdeleted "geo:old:2" 0.2%R).
    + rewrite Hindex. apply lookup_insert_eq.
    + unfold DecayMaintenance.defaultThreshold. lra.
Defined.

(** ** Invalidation: which keys go and which stay *)

Section PatternFacts.

Import GeohashText.

(** An ordinary character at the head of a pattern consumes the same
    character of the string. *)
Lemma glob_match_head (c : ascii) (p s : string) :
  Ascii.eqb c "*" = false -> Ascii.eqb c "?" = false ->
  Redis.glob_match (String c p) s = true ->
  exists s', s = String c s' /\ Redis.glob_match p s' = true.
Proof.
  intros Hstar Hq. cbn [Redis.glob_match]. rewrite Hstar, Hq.
  destruct s as [| d s']; [discriminate |].
  cbn [orb]. intros [Hcd Hm]%andb_prop.
  apply Ascii.eqb_eq in Hcd as <-. by exists s'.
Qed.

Lemma plainText_head (c : ascii) (s : string) :
  plainText (String c s) = true ->
  Ascii.eqb c ":" = false /\ Ascii.eqb c "*" = false /\ Ascii.eqb c "?" = false /\
  plainText s = true.
Proof.
  cbn [plainText]. intros [Hc Hs]%andb_prop.
  apply negb_true_iff in Hc.
  apply orb_false_elim in Hc as [Hc Hq]. apply orb_false_elim in Hc as [Hcolon Hstar].
  done.
Qed.

(** A plain cell followed by [:*] matches only strings that start with the
    cell and a colon. *)
Lemma cell_glob_prefix (cell key : string) :
  plainText cell = true ->
  Redis.glob_match (cell ++ ":*") key = true ->
  exists rest, key = (cell ++ ":" ++ rest)%string.
Proof.
  revert key. induction cell as [| c cell IH]; intros key Hplain Hm.
  - change ("" ++ ":*")%string with (String ":" "*") in Hm.
    apply glob_match_head in Hm as (s' & -> & _); [| done | done].
    by exists s'.
  - apply plainText_head in Hplain as (_ & Hstar & Hq & Hplain).
    change (String c cell ++ ":*")%string with (String c (cell ++ ":*")) in Hm.
    apply glob_match_head in Hm as (s' & -> & Hm); [| done | done].
    destruct (IH s' Hplain Hm) as [rest ->]. by exists rest.
Qed.

(** The pattern of a plain cell matches only keys [geo:<cell>:...]. *)
Lemma cell_pattern_prefix (cell key : string) :
  plainText cell = true ->
  Redis.glob_match ("geo:" ++ cell ++ ":*") key = true ->
  exists rest, key = ("geo:" ++ cell ++ ":" ++ rest)%string.
Proof.
  intros Hplain Hm.
  change ("geo:" ++ cell ++ ":*")%string
    with (String "g" (String "e" (String "o" (String ":" (cell ++ ":*"))))) in Hm.
  apply glob_match_head in Hm as (s1 & -> & Hm); [| done | done].
  apply glob_match_head in Hm as (s2 & -> & Hm); [| done | done].
  apply glob_match_head in Hm as (s3 & -> & Hm); [| done | done].
  apply glob_match_head in Hm as (s4 & -> & Hm); [| done | done].
  destruct (cell_glob_prefix cell s4 Hplain Hm) as [rest ->]. by exists rest.
Qed.

(** Two plain texts followed by a colon and anything: equal wholes have
    equal texts. *)
Lemma plain_before_colon (a b x y : string) :
  plainText a = true -> plainText b = true ->
  (a ++ ":" ++ x = b ++ ":" ++ y)%string -> a = b.
Proof.
  revert b. induction a as [| c a IH]; intros b Ha Hb Heq.
  - destruct b as [| d b]; [done |].
    apply plainText_head in Hb as (Hd & _).
    change (String ":" x = String d (b ++ ":" ++ y))%string in Heq.
    injection Heq as <- _. by rewrite Ascii.eqb_refl in Hd.
  - apply plainText_head in Ha as (Hc & _ & _ & Ha).
    destruct b as [| d b].
    + change (String c (a ++ ":" ++ x) = String ":" y)%string in Heq.
      injection Heq as -> _. by rewrite Ascii.eqb_refl in Hc.
    + apply plainText_head in Hb as (_ & _ & _ & Hb).
      change (String c (a ++ ":" ++ x) = String d (b ++ ":" ++ y))%string in Heq.
      injection Heq as <- Heq. f_equal. by apply (IH b).
Qed.

(** So the pattern of one plain cell does not match the keys of another. *)
Lemma cell_pattern_other_cell (cell c suffix : string) :
  plainText cell = true -> plainText c = true -> c <> cell ->
  Redis.glob_match ("geo:" ++ cell ++ ":*") ("geo:" ++ c ++ ":" ++ suffix) = false.
Proof.
  intros Hcell Hc Hne.
  destruct (Redis.glob_match _ _) eqn:Hm; [| done].
  exfalso. apply cell_pattern_prefix in Hm as [rest Heq]; [| done].
  change ("geo:" ++ ?s)%string with (String "g" (String "e" (String "o" (String ":" s)))) in Heq.
  injection Heq as Heq. apply Hne. by eapply plain_before_colon.
Qed.

End PatternFacts.

Section InvalidationFrame.

Import Decay ProximityCache GeohashText.
Context `{Geohash} {S : Type}.
Implicit Types (db : gmap string (Redis.entry S)) (k : string).

(** The cells of an invalidation, when the library is well formed, are
    plain text of the length of the precision. *)
Lemma invalidation_cells_plain `{!WellFormed} (lat lng radius : R) (cell : string) :
  cell ∈ Geohash_encode lat lng (getPrecision radius)
         :: Geohash_neighbors (Geohash_encode lat lng (getPrecision radius)) ->
  plainText cell = true /\
  String.length cell = String.length (Geohash_encode lat lng (getPrecision radius)).
Proof.
  intros [-> | Hn]%elem_of_cons.
  - split; [apply encode_plain | done].
  - split; [| by apply neighbors_length].
    eapply neighbors_plain; [apply encode_plain | exact Hn].
Qed.

(** A key of a plain cell that is not one of the nine cells keeps its
    entry. *)
Lemma invalidateRadius_other_cell `{!WellFormed} db now (lat lng radius : R)
    (c suffix : string) :
  plainText c = true ->
  c ∉ Geohash_encode lat lng (getPrecision radius)
        :: Geohash_neighbors (Geohash_encode lat lng (getPrecision radius)) ->
  invalidateRadius db now lat lng radius !! ("geo:" ++ c ++ ":" ++ suffix)%string
  = db !! ("geo:" ++ c ++ ":" ++ suffix)%string.
Proof.
  intros Hc Hnot. unfold invalidateRadius.
  apply invalidateCells_unmatched. intros cell Hcell.
  apply cell_pattern_other_cell; [| done |].
  - by apply (invalidation_cells_plain lat lng radius).
  - intros ->. by apply Hnot.
Qed.

Lemma getPrecision_cases (radius : R) :
  (radius <= 1 /\ getPrecision radius = 7%Z)%R \/
  (1 < radius <= 5 /\ getPrecision radius = 6%Z)%R \/
  (5 < radius /\ getPrecision radius = 5%Z)%R.
Proof.
  unfold getPrecision, PRECISION_SMALL, PRECISION_MEDIUM, PRECISION_LARGE.
  repeat destruct (Rle_dec _ _); [left | right; left | right; right]; split; (lra || done).
Qed.

End InvalidationFrame.

Section InvalidationProperties.

Import Decay ProximityCache GeohashText.
Context `{Geohash} {V : Type}.
Implicit Types (db : gmap string (Redis.entry (bucket V))) (k : string).

(** X9: after [invalidateRadius(lat, lng, radius)], a read of any key
    [geo:<cell>:<anything>] whose cell is the centre cell or one of its
    neighbours at the precision of the radius is a miss that changes
    nothing and counts no hit. *)
Theorem X9_read_after_invalidation_misses db (hits : Z) (now : Z) (lat lng radius : R)
    (cell suffix : string) :
  cell ∈ Geohash_encode lat lng (getPrecision radius)
         :: Geohash_neighbors (Geohash_encode lat lng (getPrecision radius)) ->
  let db' := invalidateRadius db now lat lng radius in
  getCacheWithTemporalCheck (State db' hits) now ("geo:" ++ cell ++ ":" ++ suffix)%string
  = (None, State db' hits).
Proof.
  intros Hcell db'. apply getCache_absent. cbn [client].
  eapply invalidateRadius_deletes; [exact Hcell |]. apply cell_pattern_matches.
Qed.

(** X10: invalidation is confined to its nine cells. With a well-formed
    geohash library, a key [geo:<c>:<anything>] of a plain-text cell [c]
    that is neither the centre cell nor one of its neighbours keeps its
    entry, and the ranking set is untouched. *)
Theorem X10_invalidation_spares_other_cells `{!WellFormed} db (now : Z)
    (lat lng radius : R) (c suffix : string) :
  plainText c = true ->
  c ∉ Geohash_encode lat lng (getPrecision radius)
        :: Geohash_neighbors (Geohash_encode lat lng (getPrecision radius)) ->
  invalidateRadius db now lat lng radius !! ("geo:" ++ c ++ ":" ++ suffix)%string
  = db !! ("geo:" ++ c ++ ":" ++ suffix)%string /\
  scoreIndex (invalidateRadius db now lat lng radius) now = scoreIndex db now.
Proof.
  intros Hc Hnot. split.
  - by apply invalidateRadius_other_cell.
  - apply invalidateRadius_keeps_scoreIndex.
Qed.

End InvalidationProperties.

(** The stand-in geohash is well formed. *)
Lemma fixture_hashText_length (n : nat) (s : string) :
  String.length (Fixture.hashText n s) = n.
Proof.
  revert s. induction n as [| n IH]; intros s; [done |].
  destruct s; cbn [Fixture.hashText String.length]; by rewrite IH.
Qed.

Lemma fixture_hashText_plain (n : nat) (s : string) :
  GeohashText.plainText s = true -> GeohashText.plainText (Fixture.hashText n s) = true.
Proof.
  revert s. induction n as [| n IH]; intros s Hs; [done |].
  destruct s as [| c s]; cbn [Fixture.hashText].
  - cbn [GeohashText.plainText]. rewrite IH by done. reflexivity.
  - apply plainText_head in Hs as (Hcolon & Hstar & Hq & Hs).
    cbn [GeohashText.plainText]. rewrite Hcolon, Hstar, Hq, IH by done. reflexivity.
Qed.

Lemma fixture_geohash_wellFormed : @GeohashText.WellFormed Fixture.geohash.
Proof.
  split.
  - intros lat lng p _. apply fixture_hashText_length.
  - intros lat lng p. cbn. by destruct (Rle_dec lat 0); apply fixture_hashText_plain.
  - intros cell n Hn. destruct cell as [| c rest]; cbn in Hn.
    + by apply elem_of_nil in Hn.
    + repeat (apply elem_of_cons in Hn as [-> | Hn]; [reflexivity |]).
      by apply elem_of_nil in Hn.
  - intros cell n Hcell Hn. destruct cell as [| c rest]; cbn in Hn.
    + by apply elem_of_nil in Hn.
    + apply plainText_head in Hcell as (_ & _ & _ & Hrest).
      repeat (apply elem_of_cons in Hn as [-> | Hn];
              [cbn [GeohashText.plainText]; by rewrite Hrest |]).
      by apply elem_of_nil in Hn.
Qed.

(** X9 on the stand-in: the key of a query at the invalidated point. *)
Lemma X9_read_after_invalidation_witness :
  let db : gmap string (Redis.entry (Decay.bucket nat)) :=
    {[ "geo:dr5r7:2" :=
         Redis.Entry (Redis.RString
           (Decay.Bucket 7%nat 1 0 (Decay.Metadata 0 Decay.noAttributes))) None ]} in
  let db' := @ProximityCache.invalidateRadius Sample.geohash _ db 0 40.71 (-74.01) 2 in
  Decay.getCacheWithTemporalCheck (Decay.State db' 0) 0 "geo:dr5r7:2"
  = (None, Decay.State db' 0).
Proof.
  intros db db'.
  apply (@X9_read_after_invalidation_misses Sample.geohash nat db 0 0 40.71 (-74.01) 2
           "dr5r7" "2").
  left.
Defined.

(** X10 on the stand-in: a key of the cell [9q8yy] survives an
    invalidation around [dr5r7]. *)
Lemma X10_invalidation_witness :
  let db : gmap string (Redis.entry (Decay.bucket nat)) :=
    {[ "geo:9q8yy:10" :=
         Redis.Entry (Redis.RString
           (Decay.Bucket 7%nat 1 0 (Decay.Metadata 0 Decay.noAttributes))) None ]} in
  @ProximityCache.invalidateRadius Fixture.geohash _ db 0 40.71 (-74.01) 10
    !! "geo:9q8yy:10"
  = db !! "geo:9q8yy:10".
Proof.
  intros db.
  apply (@X10_invalidation_spares_other_cells Fixture.geohash nat
           fixture_geohash_wellFormed db 0 40.71 (-74.01) 10 "9q8yy" "10").
  - reflexivity.
  - destruct (getPrecision_cases 10) as [[Hr _] | [[Hr _] | [_ Hp]]]; [lra | lra |].
    rewrite Hp. cbn [Geohash_encode Geohash_neighbors Fixture.geohash].
    destruct (Rle_dec 40.71 0) as [Hle | _]; [exfalso; lra |].
    cbn. intros Hin.
    repeat (apply elem_of_cons in Hin as [Heq | Hin]; [discriminate Heq |]).
    by apply elem_of_nil in Hin.
Defined.

(** ** Adding a property *)

Section AddPropertyProperties.

Import Decay ProximityCache GeohashText PropertyWrites.
Context `{Geohash} `{Collection} {V : Type}.
Implicit Types (db : gmap string (Redis.entry (bucket V))).
Local Open Scope R_scope.

(** X11: [addProperty] touches the cache only after a successful save.
    When the save throws, the function throws and the cache is as it was.
    When it succeeds, the saved document carries the point
    [[longitude, latitude]], the invalidation runs at precision 5 (its
    radius is the constant 10), so no key [geo:<cell>:<anything>] of the
    5-character cell of the new property is live afterwards, and the
    ranking set is as it was. *)
Theorem X11_addProperty_invalidates_after_save db (now : Z) (data : propertyData) :
  let property := Document data (longitude data, latitude data) in
  let out := addProperty db now data in
  (save property = false -> out = (None, db)) /\
  (save property = true ->
   fst out = Some property /\
   (forall suffix,
      Redis.live (snd out) now
        ("geo:" ++ Geohash_encode (latitude data) (longitude data) 5 ++ ":" ++ suffix)%string
      = None) /\
   scoreIndex (snd out) now = scoreIndex db now).
Proof.
  intros property out. subst out. unfold addProperty. fold property.
  destruct (save property); split; try done.
  intros _. cbn [fst snd]. split; [done |].
  destruct (getPrecision_cases 10) as [[Hr _] | [[Hr _] | [_ Hp]]]; [lra | lra |].
  split.
  - intros suffix. eapply invalidateRadius_deletes; [rewrite Hp; left |].
    apply cell_pattern_matches.
  - apply invalidateRadius_keeps_scoreIndex.
Qed.

(** X12: adding a property never invalidates the cache of a query with a
    radius of 5 km or less, not even at the very point of the new property.
    With a well-formed geohash library the key of such a query has a cell of
    6 or 7 characters, the invalidation works on cells of 5, and the entry
    under the key is left as it was. *)
Theorem X12_addProperty_spares_small_radii `{!WellFormed} `{NumberFormat} db (now : Z)
    (data : propertyData) (radius : R) :
  radius <= 5 ->
  snd (addProperty db now data) !! generateKey (latitude data) (longitude data) radius
  = db !! generateKey (latitude data) (longitude data) radius.
Proof.
  intros Hr. unfold addProperty.
  destruct (save _); [| done]. cbn [snd]. unfold generateKey.
  apply invalidateRadius_other_cell; [apply encode_plain |].
  intros Hin.
  apply (invalidation_cells_plain (latitude data) (longitude data) 10) in Hin as [_ Hlen].
  destruct (getPrecision_cases 10) as [[H10 _] | [[H10 _] | [_ Hp10]]]; [lra | lra |].
  rewrite Hp10 in Hlen. rewrite !encode_length in Hlen;
    destruct (getPrecision_cases radius) as [[_ Hp] | [[_ Hp] | [Hgt _]]];
    try lra; rewrite ?Hp in *; try lia; discriminate Hlen.
Qed.

End AddPropertyProperties.

(** X12 on the stand-ins: the cache of a 5 km query at the point of the
    new property survives the write. *)
Lemma X12_addProperty_witness :
  let db : gmap string (Redis.entry (Decay.bucket nat)) :=
    {[ "geo:dr5r7k:2" :=
         Redis.Entry (Redis.RString
           (Decay.Bucket 7%nat 1 0 (Decay.Metadata 0 Decay.noAttributes))) None ]} in
  let data := PropertyWrites.PropertyData 40.71 (-74.01) 0 Decay.noAttributes in
  snd (@PropertyWrites.addProperty Fixture.geohash Fixture.accepting _ db 0 data)
    !! @ProximityCache.generateKey Fixture.geohash Sample.format 40.71 (-74.01) 5
  = db !! @ProximityCache.generateKey Fixture.geohash Sample.format 40.71 (-74.01) 5.
Proof.
  intros db data.
  apply (@X12_addProperty_spares_small_radii Fixture.geohash Fixture.accepting nat
           fixture_geohash_wellFormed Sample.format db 0 data 5).
  lra.
Defined.

(** ** The optimizer's counters and what it may change in Redis *)

Section OptimizerProperties.

Import ProximityCache.
Context {S : Type}.
Implicit Types (db : gmap string (Redis.entry S)) (k geohash : string) (c : counters).

(** X13: the counters of a cell stay below the analysis threshold. If the
    hits and misses of a cell are non-negative and sum to less than 100,
    they still are and do after [trackHit] or [trackMiss] on that cell (the
    hundredth event resets both to 0), and the counters of every other cell
    are as they were. *)
Theorem X13_counters_stay_below_threshold c db (now : Z) geohash (hit : bool) :
  (0 <= default 0 (hitCounter c !! geohash))%Z ->
  (0 <= default 0 (missCounter c !! geohash))%Z ->
  (default 0 (hitCounter c !! geohash) + default 0 (missCounter c !! geohash) < 100)%Z ->
  let c' := fst (if hit then trackHit c db now geohash else trackMiss c db now geohash) in
  (0 <= default 0 (hitCounter c' !! geohash))%Z /\
  (0 <= default 0 (missCounter c' !! geohash))%Z /\
  (default 0 (hitCounter c' !! geohash) + default 0 (missCounter c' !! geohash) < 100)%Z /\
  (forall other, other <> geohash ->
     hitCounter c' !! other = hitCounter c !! other /\
     missCounter c' !! other = missCounter c !! other).
Proof.
  intros Hh Hm Hsum c'. subst c'.
  destruct hit; unfold trackHit, trackMiss, optimizeIfNeeded;
    cbn [hitCounter missCounter]; rewrite lookup_insert_eq, default_Some.
  - destruct (Z.leb_spec 100
      (default 0 (hitCounter c !! geohash) + 1 + default 0 (missCounter c !! geohash))%Z);
      cbn [fst hitCounter missCounter].
    + rewrite !lookup_insert_eq, !default_Some.
      repeat split; try lia; by rewrite ?lookup_insert_ne by done.
    + rewrite lookup_insert_eq, default_Some.
      repeat split; try lia; by rewrite ?lookup_insert_ne by done.
  - destruct (Z.leb_spec 100
      (default 0 (hitCounter c !! geohash) + (default 0 (missCounter c !! geohash) + 1))%Z);
      cbn [fst hitCounter missCounter].
    + rewrite !lookup_insert_eq, !default_Some.
      repeat split; try lia; by rewrite ?lookup_insert_ne by done.
    + rewrite lookup_insert_eq, default_Some.
      repeat split; try lia; by rewrite ?lookup_insert_ne by done.
Qed.

(** X14: the optimizer never creates or deletes a key and never changes a
    stored value. After [trackHit] or [trackMiss] every key holds the value
    it held; only the expiry of the one key literally named
    [geo:<geohash>:*] can differ. *)
Theorem X14_optimizer_preserves_contents c db (now : Z) geohash (hit : bool) k :
  let db' := snd (if hit then trackHit c db now geohash else trackMiss c db now geohash) in
  Redis.value <$> (db' !! k) = Redis.value <$> (db !! k) /\
  (k <> ("geo:" ++ geohash ++ ":*")%string -> db' !! k = db !! k).
Proof.
  intros db'. split.
  - subst db'. destruct hit; unfold trackHit, trackMiss, optimizeIfNeeded.
    all: destruct (100 <=? _)%Z; [| done]; cbn [snd].
    all: destruct (Rlt_dec _ 0.5); [| done].
    all: unfold adjustCacheStrategy; destruct (Rlt_dec _ 0.3); [| done].
    all: unfold Redis.expire.
    all: destruct (Redis.live db now _) as [e |] eqn:Hlive; [| done].
    all: apply live_Some in Hlive as [Hk _].
    all: destruct (decide (k = ("geo:" ++ geohash ++ ":*")%string)) as [-> | Hne];
      [rewrite lookup_insert_eq, Hk; done | by rewrite lookup_insert_ne].
  - intros Hne. subst db'. destruct hit.
    + by apply trackHit_lookup_other.
    + by apply trackMiss_lookup_other.
Qed.

End OptimizerProperties.

Lemma X13_counters_witness :
  let c' := fst (ProximityCache.trackMiss (S := nat)
                   (ProximityCache.Counters {[ "abc" := 20%Z ]} {[ "abc" := 79%Z ]})
                   ∅ 0 "abc") in
  (default 0 (ProximityCache.hitCounter c' !! "abc")
   + default 0 (ProximityCache.missCounter c' !! "abc") < 100)%Z.
Proof.
  intros c'.
  pose proof (X13_counters_stay_below_threshold (S := nat)
                (ProximityCache.Counters {[ "abc" := 20%Z ]} {[ "abc" := 79%Z ]})
                ∅ 0 "abc" false) as Hx.
  cbn [ProximityCache.hitCounter ProximityCache.missCounter] in Hx.
  rewrite !lookup_singleton_eq in Hx. cbv zeta in Hx.
  destruct Hx as (_ & _ & Hsum & _); [cbn; lia ..|].
  exact Hsum.
Defined.

(** ** redis.services.js: writing, reading, clearing, counting *)

Section RedisServicesProperties.

Import RedisServices RedisServicesWrites.
Context {S : Type} `{JsonSize S} `{JsonValue S}.
Implicit Types (db : gmap string (Redis.entry S)) (st : stats).

(** X15: [setCacheWithExpiry] then [getCache]. With a positive expiry the
    write succeeds and adds the size of the value to [totalDataCached]; a
    read of the key before the expiry instant returns the value and counts
    one cache hit; a read at or after it returns null and counts nothing. *)
Theorem X15_set_then_get st db (tw tr : Z) (key : string) (v : S) (expiry : Z) :
  (0 < expiry)%Z ->
  (tw <= tr)%Z ->
  let '(ok, st1, db1) := setCacheWithExpiry st db tw key v expiry in
  ok = true /\
  totalDataCached st1 = (totalDataCached st + byteLength v)%Z /\
  ((tr < tw + expiry * 1000)%Z ->
   getCache st1 db1 tr key
   = (Some (Some v), Stats (cacheHits st + 1) (totalDataCached st1))) /\
  ((tw + expiry * 1000 <= tr)%Z -> getCache st1 db1 tr key = (Some None, st1)).
Proof.
  intros Hexp Hle. unfold setCacheWithExpiry, Redis.setEx.
  destruct (Z.leb_spec expiry 0); [lia |].
  split; [done |]. split; [done |].
  unfold getCache, Redis.get, Redis.live. rewrite lookup_insert_eq.
  unfold Redis.expired. cbn [Redis.expireAt Redis.value cacheHits totalDataCached].
  split; intros Htr.
  - destruct (Z.leb_spec (tw + expiry * 1000) tr); [lia | done].
  - destruct (Z.leb_spec (tw + expiry * 1000) tr); [done | lia].
Qed.

(** X16: a write with an expiry of 0 or less is refused by Redis: the
    store is unchanged, the flag is false, and the size of the value has
    been added to [totalDataCached] all the same. *)
Theorem X16_refused_write_is_counted st db (now : Z) (key : string) (v : S) (expiry : Z) :
  (expiry <= 0)%Z ->
  setCacheWithExpiry st db now key v expiry
  = (false, Stats (cacheHits st) (totalDataCached st + byteLength v), db).
Proof.
  intros Hexp. unfold setCacheWithExpiry, Redis.setEx.
  destruct (Z.leb_spec expiry 0); [done | lia].
Qed.

(** X17: [clearAllCache] empties the store and resets [totalDataCached] to
    0 but keeps [cacheHits]: afterwards every read is a miss that counts
    nothing, and the statistics report no key and no document. *)
Theorem X17_clearAllCache_empties st db (now : Z) (key : string) :
  let '(st', db') := clearAllCache st db in
  getCacheHitCount st' = getCacheHitCount st /\
  getTotalDataCached st' = 0%Z /\
  getCache st' db' now key = (Some None, st') /\
  getTotalCachedDocuments db' now = (0%Z, 0%Z).
Proof.
  unfold clearAllCache, RedisSets.flushAll. repeat split.
Qed.

End RedisServicesProperties.

Lemma X15_set_then_get_witness :
  @RedisServices.getCache nat (RedisServices.Stats 0 9) 
     {[ "location:1:2:5" := Redis.Entry (Redis.RString 7%nat) (Some 3600000%Z) ]} 10
     "location:1:2:5"
  = (Some (Some 7%nat), RedisServices.Stats 1 9).
Proof.
  pose proof (@X15_set_then_get nat {| RedisServicesWrites.byteLength := fun _ => 9%Z |}
                (RedisServices.Stats 0 0) ∅ 0 10 "location:1:2:5" 7%nat 3600) as Hx.
  cbn in Hx. destruct Hx as (_ & _ & Hread & _); [lia | lia |].
  apply Hread. lia.
Defined.

Lemma X16_refused_write_witness :
  @RedisServicesWrites.setCacheWithExpiry nat
     {| RedisServicesWrites.byteLength := fun _ => 9%Z |}
     (RedisServices.Stats 0 0) ∅ 0 "location:1:2:5" 7%nat 0
  = (false, RedisServices.Stats 0 9, ∅).
Proof.
  apply (@X16_refused_write_is_counted nat
           {| RedisServicesWrites.byteLength := fun _ => 9%Z |}). lia.
Defined.

Section StatisticsProperties.

Import RedisServices.
Context {S : Type} `{JsonValue S}.
Implicit Types (db : gmap string (Redis.entry S)).





End StatisticsProperties.

(** ** The coordinator: hits, repeats, failures and warmed cells *)

Section CoordinatorProperties.

Import PropertyService.
Context `{Geohash} `{NumberFormat} `{DocStore}.
Implicit Types (w : world) (k : string).

(** X19: a hit is served from Redis alone. When the key of the query holds
    a live bucket that has not degraded, the coordinator returns the cached
    payload whatever page and limit are asked for (they are not part of the
    key), sends no query to the document store, counts the hit in
    decay.service.js and changes no Redis key other than, possibly, the
    expiry of the one literally named [geo:<key>:*]. *)
Theorem X19_hit_is_served_from_cache w (now : Z) (lat lng radius : R) (page limit : Z)
    (b : Decay.bucket payload) (t : option Z) :
  Redis.live (client w) now (ProximityCache.generateKey lat lng radius)
  = Some (Redis.Entry (Redis.RString b) t) ->
  ~ (Decay.calculateTemporalScore now (Decay.dateAdded (Decay.meta b))
       (Decay.attrs (Decay.meta b)) < Decay.score b * 0.7)%R ->
  let out := findNearbyProperties w now lat lng radius page limit in
  fst out = Some (Decay.data b) /\
  (forall page' limit',
     fst (findNearbyProperties w now lat lng radius page' limit') = fst out) /\
  issued (snd out) = issued w /\
  decay_cacheHits (snd out) = (decay_cacheHits w + 1)%Z /\
  (forall k, k <> ("geo:" ++ ProximityCache.generateKey lat lng radius ++ ":*")%string ->
     client (snd out) !! k = client w !! k).
Proof.
  intros Hlive Hfresh out. subst out.
  rewrite (findNearbyProperties_hit w now lat lng radius page limit b t Hlive Hfresh).
  cbn [fst snd]. split; [done |]. split.
  { intros page' limit'.
    by rewrite (findNearbyProperties_hit w now lat lng radius page' limit' b t Hlive Hfresh). }
  unfold with_optimizer. cbn [issued decay_cacheHits client].
  split; [done |]. split; [done |].
  intros k Hk. by apply trackHit_lookup_other.
Qed.

(** X20: repeating a query while its bucket lives. If the first run was a
    miss whose queries answered, and no neighbour key coincides with the
    key of the query, then a second run within 7200 s returns the payload
    of the first, counts one hit and sends no query to the document
    store. *)
Theorem X20_repeat_within_ttl_is_a_hit w (now1 now2 : Z) (lat lng radius : R)
    (page limit : Z) (st : Decay.state payload) (counts : list Z)
    (found warmFound : list property) :
  Decay.getCacheWithTemporalCheck (Decay.State (client w) (decay_cacheHits w)) now1
    (ProximityCache.generateKey lat lng radius) = (None, st) ->
  aggregate_count [GeoNear lng lat (radius * 1000); Count] = Some counts ->
  aggregate [GeoNear lng lat (radius * 1000); Skip ((page - 1) * limit); Limit limit]
  = Some found ->
  aggregate [GeoNear lng lat (radius * 1000); Limit 10] = Some warmFound ->
  (forall n, n ∈ ProximityCache.getNeighbors lat lng radius ->
     ProximityCache.generateKey lat lng radius
     <> ("geo:" ++ n ++ ":" ++ Number_toString radius)%string) ->
  (now1 <= now2 < now1 + 7200 * 1000)%Z ->
  let first := findNearbyProperties w now1 lat lng radius page limit in
  let second := findNearbyProperties (snd first) now2 lat lng radius page limit in
  is_Some (fst first) /\ fst second = fst first /\
  decay_cacheHits (snd second) = (decay_cacheHits (snd first) + 1)%Z /\
  issued (snd second) = issued (snd first).
Proof.
  intros Hmiss Hcount Hpage Hwarm Hdistinct Hnow. cbv zeta.
  rewrite (findNearbyProperties_miss w now1 lat lng radius page limit st counts found
             Hmiss Hcount Hpage).
  cbv zeta. cbn [fst snd].
  match goal with |- context [warmNeighbors ?w0 now1 lat lng radius ?ns] =>
    set (w3 := w0); set (ns0 := ns) end.
  destruct (warmNeighbors_issued w3 now1 lat lng radius ns0 warmFound Hwarm) as [Hok _].
  rewrite Hok.
  match goal with |- context [Some (Full ?r0)] => set (r := r0) in * end.
  assert (Hlive : Redis.live (client (snd (warmNeighbors w3 now1 lat lng radius ns0))) now2
                    (ProximityCache.generateKey lat lng radius)
                  = Some (Decay.writtenEntry now1 (Full r) now1 Decay.noAttributes)).
  { apply live_intro.
    - rewrite warmNeighbors_lookup_other;
        [| apply geo_key_not_temporal_scores | exact Hdistinct].
      subst w3. cbn [client with_client]. apply setCache_lookup, fresh_bucket_ttl_accepted.
    - apply writtenEntry_live. rewrite fresh_bucket_ttl. lia. }
  rewrite (findNearbyProperties_hit _ now2 lat lng radius page limit _ _ Hlive).
  - cbn [fst snd Decay.data Decay.writtenBucket]. unfold with_optimizer.
    cbn [decay_cacheHits issued]. by eauto.
  - cbn [Decay.writtenBucket Decay.meta Decay.dateAdded Decay.attrs Decay.score].
    by apply fresh_bucket_not_degraded.
Qed.

(** X21: a failure of the document store on the count or the page query.
    The coordinator throws, the miss has been counted by the optimizer, and
    nothing has been written to the cache: Redis is as the optimizer left
    it. *)
Theorem X21_store_failure_writes_nothing w (now : Z) (lat lng radius : R) (page limit : Z)
    (st : Decay.state payload) :
  Decay.getCacheWithTemporalCheck (Decay.State (client w) (decay_cacheHits w)) now
    (ProximityCache.generateKey lat lng radius) = (None, st) ->
  aggregate_count [GeoNear lng lat (radius * 1000); Count] = None \/
  aggregate [GeoNear lng lat (radius * 1000); Skip ((page - 1) * limit); Limit limit] = None ->
  let out := findNearbyProperties w now lat lng radius page limit in
  let tracked :=
    ProximityCache.trackMiss (optimizer w) (Decay.client st) now
      (ProximityCache.generateKey lat lng radius) in
  fst out = None /\
  client (snd out) = snd tracked /\
  optimizer (snd out) = fst tracked.
Proof.
  intros Hmiss Hfail. cbv zeta. unfold findNearbyProperties. rewrite Hmiss.
  destruct (aggregate_count _) as [counts |] eqn:Hcount.
  - destruct Hfail as [Hfail | Hfail]; [discriminate |]. rewrite Hfail. done.
  - done.
Qed.

(** X22: a failure of the warming query. If the count and page queries
    answer but the warming query throws, and there is at least one
    neighbour, the coordinator throws although the result of the query is
    already cached: the key of the query holds the bucket of the result. *)
Theorem X22_warming_failure_after_caching w (now : Z) (lat lng radius : R)
    (page limit : Z) (st : Decay.state payload) (counts : list Z) (found : list property) :
  Decay.getCacheWithTemporalCheck (Decay.State (client w) (decay_cacheHits w)) now
    (ProximityCache.generateKey lat lng radius) = (None, st) ->
  aggregate_count [GeoNear lng lat (radius * 1000); Count] = Some counts ->
  aggregate [GeoNear lng lat (radius * 1000); Skip ((page - 1) * limit); Limit limit]
  = Some found ->
  aggregate [GeoNear lng lat (radius * 1000); Limit 10] = None ->
  ProximityCache.getNeighbors lat lng radius <> [] ->
  let totalCount := match counts with n :: _ => n | [] => 0%Z end in
  let result :=
    Result (Array_sort (fun a b => (score b - score a)%R) (applyScoring now found))
      totalCount (Math_ceil (IZR totalCount / IZR limit)) page now (lat, lng) radius in
  let out := findNearbyProperties w now lat lng radius page limit in
  fst out = None /\
  client (snd out) !! ProximityCache.generateKey lat lng radius
  = Some (Decay.writtenEntry now (Full result) now Decay.noAttributes).
Proof.
  intros Hmiss Hcount Hpage Hwarm Hns. cbv zeta.
  rewrite (findNearbyProperties_miss w now lat lng radius page limit st counts found
             Hmiss Hcount Hpage).
  cbv zeta. cbn [fst snd].
  destruct (ProximityCache.getNeighbors lat lng radius) as [| n ns]; [done |].
  cbn [warmNeighbors]. unfold warmPipeline. rewrite Hwarm. cbn [fst snd].
  split; [done |]. cbn [client send with_client]. apply setCache_lookup, fresh_bucket_ttl_accepted.
Qed.

(** X23: a query that lands on a warmed cell. After a miss at one point
    whose warming query found something, a query within 7200 s whose key is
    the key of a neighbour cell is a hit, and what it returns is the warm
    object: the items found around the first point, unscored, without
    totals. *)
Theorem X23_warmed_cell_returns_warm_payload w (now1 now2 : Z) (lat lng radius : R)
    (page limit : Z) (st : Decay.state payload) (counts : list Z)
    (found warmFound : list property) (neighbor : string)
    (lat' lng' radius' : R) (page' limit' : Z) :
  Decay.getCacheWithTemporalCheck (Decay.State (client w) (decay_cacheHits w)) now1
    (ProximityCache.generateKey lat lng radius) = (None, st) ->
  aggregate_count [GeoNear lng lat (radius * 1000); Count] = Some counts ->
  aggregate [GeoNear lng lat (radius * 1000); Skip ((page - 1) * limit); Limit limit]
  = Some found ->
  aggregate [GeoNear lng lat (radius * 1000); Limit 10] = Some warmFound ->
  warmFound <> [] ->
  neighbor ∈ ProximityCache.getNeighbors lat lng radius ->
  ProximityCache.generateKey lat' lng' radius'
  = ("geo:" ++ neighbor ++ ":" ++ Number_toString radius)%string ->
  (now1 <= now2 < now1 + 7200 * 1000)%Z ->
  let first := findNearbyProperties w now1 lat lng radius page limit in
  fst (findNearbyProperties (snd first) now2 lat' lng' radius' page' limit')
  = Some (Warm (Warmed warmFound now1)).
Proof.
  intros Hmiss Hcount Hpage Hwarm Hne Hn Hkey Hnow. cbv zeta.
  rewrite (findNearbyProperties_miss w now1 lat lng radius page limit st counts found
             Hmiss Hcount Hpage).
  cbv zeta. cbn [fst snd].
  match goal with |- context [warmNeighbors ?w0 now1 lat lng radius ?ns] =>
    set (w3 := w0); set (ns0 := ns) in * end.
  assert (Hlive : Redis.live (client (snd (warmNeighbors w3 now1 lat lng radius ns0))) now2
                    (ProximityCache.generateKey lat' lng' radius')
                  = Some (Decay.writtenEntry now1 (Warm (Warmed warmFound now1)) now1
                            Decay.noAttributes)).
  { apply live_intro.
    - rewrite Hkey.
      apply (warmNeighbors_written w3 now1 lat lng radius ns0 warmFound);
        [exact Hwarm | exact Hne | apply geo_key_not_temporal_scores |].
      left. by exists neighbor.
    - apply writtenEntry_live. rewrite fresh_bucket_ttl. lia. }
  rewrite (findNearbyProperties_hit _ now2 lat' lng' radius' page' limit' _ _ Hlive).
  - reflexivity.
  - cbn [Decay.writtenBucket Decay.meta Decay.dateAdded Decay.attrs Decay.score].
    by apply fresh_bucket_not_degraded.
Qed.

(** X24: [GET /nearby] answers 400 exactly when [lat] or [lng] is missing,
    and then it changes nothing; in every other case the state after the
    request is the state the coordinator left. *)
Theorem X24_nearby_rejects_only_missing_coordinates w (now : Z) (lat lng : option R)
    (radius : R) (page limit : Z) :
  let out := Route.nearby w now lat lng radius page limit in
  ((exists message, fst out = Route.Error 400 message) <-> lat = None \/ lng = None) /\
  (lat = None \/ lng = None -> snd out = w) /\
  (forall a b, lat = Some a -> lng = Some b ->
     snd out = snd (findNearbyProperties w now a b radius page limit)).
Proof.
  cbv zeta. unfold Route.nearby.
  destruct lat as [a |], lng as [b |]; cbn [fst snd].
  2-4: split; [split; [auto | by eexists] |]; split; [done | by intros ? ? [=]].
  destruct (findNearbyProperties w now a b radius page limit) as [[[r | wr] |] w']
    eqn:Hfind; cbn [fst snd].
  all: split; [split; [by intros [? [=]] | by intros [[=] | [=]]] |].
  all: split; [by intros [[=] | [=]] |].
  all: intros ? ? [= <-] [= <-]; by rewrite Hfind.
Qed.

End CoordinatorProperties.

(** X19 on the stand-ins: a fresh store holding one live bucket under the
    key of the query. *)
Lemma X19_hit_witness :
  let r := PropertyService.Result [] 0 0 1 0 (40.71%R, (-74.01)%R) 2 in
  let b := Decay.Bucket (PropertyService.Full r) 1 0 (Decay.Metadata 0 Decay.noAttributes) in
  let w := PropertyService.World {[ "geo:dr5r7:2" := Redis.Entry (Redis.RString b) None ]}
             0 (ProximityCache.Counters ∅ ∅) (RedisServices.Stats 0 0) [] in
  PropertyService.issued
    (snd (@PropertyService.findNearbyProperties Sample.geohash Sample.format
            Fixture.failing w 0 40.71 (-74.01) 2 3 5)) = [].
Proof.
  intros r b w.
  pose proof (@X19_hit_is_served_from_cache Sample.geohash Sample.format Fixture.failing
                w 0 40.71 (-74.01) 2 3 5 b None) as Hx.
  cbv zeta in Hx. destruct Hx as (_ & _ & Hissued & _).
  - reflexivity.
  - cbn [Decay.meta Decay.dateAdded Decay.attrs Decay.score b].
    rewrite calculateTemporalScore_now. lra.
  - exact Hissued.
Defined.

Lemma sample_neighbor_keys_differ (n : string) :
  n ∈ @ProximityCache.getNeighbors Sample.geohash 40.71 (-74.01) 2 ->
  @ProximityCache.generateKey Sample.geohash Sample.format 40.71 (-74.01) 2
  <> ("geo:" ++ n ++ ":" ++ @Number_toString Sample.format 2)%string.
Proof.
  unfold ProximityCache.getNeighbors. cbn [Geohash_neighbors Sample.geohash].
  intros Hn.
  repeat (apply elem_of_cons in Hn as [-> | Hn]; [discriminate |]).
  by apply elem_of_nil in Hn.
Qed.

(** X20 on the stand-ins: the same query one second later. *)
Lemma X20_repeat_witness :
  let first := @PropertyService.findNearbyProperties Sample.geohash Sample.format
                 Sample.twoRecords PropertyService.initial 0 40.71 (-74.01) 2 1 5 in
  let second := @PropertyService.findNearbyProperties Sample.geohash Sample.format
                  Sample.twoRecords (snd first) 1000 40.71 (-74.01) 2 1 5 in
  fst second = fst first.
Proof.
  intros first second.
  pose proof (@X20_repeat_within_ttl_is_a_hit Sample.geohash Sample.format Sample.twoRecords
                PropertyService.initial 0 1000 40.71 (-74.01) 2 1 5
                (Decay.State ∅ 0) [2%Z] [Sample.plainHere; Sample.premiumNear]
                [Sample.plainHere; Sample.premiumNear]) as Hx.
  cbv zeta in Hx. destruct Hx as (_ & Hsame & _).
  - reflexivity.
  - reflexivity.
  - reflexivity.
  - reflexivity.
  - apply sample_neighbor_keys_differ.
  - lia.
  - exact Hsame.
Defined.

(** X21 on the stand-ins: the document store is down. *)
Lemma X21_store_failure_witness :
  fst (@PropertyService.findNearbyProperties Sample.geohash Sample.format Fixture.failing
         PropertyService.initial 0 40.71 (-74.01) 2 1 5) = None.
Proof.
  pose proof (@X21_store_failure_writes_nothing Sample.geohash Sample.format Fixture.failing
                PropertyService.initial 0 40.71 (-74.01) 2 1 5 (Decay.State ∅ 0)) as Hx.
  cbv zeta in Hx. destruct Hx as (Hnone & _).
  - reflexivity.
  - left. reflexivity.
  - exact Hnone.
Defined.

(** X22 on the stand-ins: only the warming query fails. *)
Lemma X22_warming_failure_witness :
  fst (@PropertyService.findNearbyProperties Sample.geohash Sample.format
         Fixture.warmFailing PropertyService.initial 0 40.71 (-74.01) 2 1 5) = None.
Proof.
  pose proof (@X22_warming_failure_after_caching Sample.geohash Sample.format
                Fixture.warmFailing PropertyService.initial 0 40.71 (-74.01) 2 1 5
                (Decay.State ∅ 0) [1%Z] [Sample.plainHere]) as Hx.
  cbv zeta in Hx. destruct Hx as (Hnone & _).
  - reflexivity.
  - reflexivity.
  - reflexivity.
  - reflexivity.
  - discriminate.
  - exact Hnone.
Defined.

Lemma getPrecision_10 : ProximityCache.getPrecision 10 = 5%Z.
Proof.
  destruct (getPrecision_cases 10) as [[Hr _] | [[Hr _] | [_ Hp]]]; [lra | lra | exact Hp].
Qed.

(** X23 on the stand-ins: a query in the northern cell [dr5r7], then one in
    the southern cell [0r5r7], which is a neighbour of the first. *)
Lemma X23_warmed_cell_witness :
  let first := @PropertyService.findNearbyProperties Fixture.geohash Sample.format
                 Sample.twoRecords PropertyService.initial 0 40.71 (-74.01) 10 1 5 in
  fst (@PropertyService.findNearbyProperties Fixture.geohash Sample.format
         Sample.twoRecords (snd first) 1000 (-40.71) (-74.01) 10 1 5)
  = Some (PropertyService.Warm
            (PropertyService.Warmed [Sample.plainHere; Sample.premiumNear] 0)).
Proof.
  intros first.
  assert (Hnorth : @Geohash_encode Fixture.geohash 40.71 (-74.01) 5 = "dr5r7").
  { cbn [Geohash_encode Fixture.geohash].
    destruct (Rle_dec 40.71 0) as [Hle | _]; [exfalso; lra | reflexivity]. }
  assert (Hsouth : @Geohash_encode Fixture.geohash (-40.71) (-74.01) 5 = "0r5r7").
  { cbn [Geohash_encode Fixture.geohash].
    destruct (Rle_dec (-40.71) 0) as [_ | Hgt]; [reflexivity | exfalso; lra]. }
  apply (@X23_warmed_cell_returns_warm_payload Fixture.geohash Sample.format
           Sample.twoRecords PropertyService.initial 0 1000 40.71 (-74.01) 10 1 5
           (Decay.State ∅ 0) [2%Z] [Sample.plainHere; Sample.premiumNear]
           [Sample.plainHere; Sample.premiumNear] "0r5r7" (-40.71) (-74.01) 10 1 5).
  - reflexivity.
  - reflexivity.
  - reflexivity.
  - reflexivity.
  - discriminate.
  - unfold ProximityCache.getNeighbors. rewrite getPrecision_10, Hnorth. left.
  - unfold ProximityCache.generateKey. rewrite getPrecision_10, Hsouth. reflexivity.
  - lia.
Defined.

(** ** Precision, the TemporalDecay class and the read-through cache *)

Section PrecisionProperties.

Import ProximityCache.
Local Open Scope R_scope.

(** X25: the precision of a key is 5, 6 or 7 and never gets finer as the
    radius grows. *)
Theorem X25_getPrecision_antitone (radius1 radius2 : R) :
  radius1 <= radius2 ->
  (getPrecision radius2 <= getPrecision radius1)%Z /\
  (5 <= getPrecision radius1 <= 7)%Z /\ (5 <= getPrecision radius2 <= 7)%Z.
Proof.
  intros Hle.
  destruct (getPrecision_cases radius1) as [[H1 ->] | [[H1 ->] | [H1 ->]]],
           (getPrecision_cases radius2) as [[H2 ->] | [[H2 ->] | [H2 ->]]];
    repeat split; try lia; exfalso; lra.
Qed.

Lemma X25_getPrecision_witness :
  (getPrecision 10 <= getPrecision 2)%Z /\
  (5 <= getPrecision 2 <= 7)%Z /\ (5 <= getPrecision 10 <= 7)%Z.
Proof. apply X25_getPrecision_antitone. lra. Defined.

End PrecisionProperties.

Section TemporalDecayProperties.

Import TemporalDecayClass.
Local Open Scope R_scope.

(** X26: an entry that was never queried is always evictable, however
    recently it was accessed: with a query count of 0 the query factor is
    [log 1 = 0], the priority is the minimum priority, and [shouldEvict]
    holds. *)
Theorem X26_never_queried_is_evictable (c : config) (now lastAccessTime : Z) :
  0 <= minimumPriority c ->
  calculatePriority c now lastAccessTime 0 = minimumPriority c /\
  shouldEvict c (calculatePriority c now lastAccessTime 0) = true.
Proof.
  intros Hmin.
  assert (Hp : calculatePriority c now lastAccessTime 0 = minimumPriority c).
  { unfold calculatePriority. cbn [INR]. rewrite Rplus_0_l, ln_1, Rmult_0_r.
    by apply Rmax_right. }
  split; [exact Hp |]. rewrite Hp. unfold shouldEvict.
  destruct (Rle_dec _ _) as [_ | Hn]; [done | exfalso; apply Hn; lra].
Qed.

Lemma X26_never_queried_witness :
  shouldEvict defaultConfig (calculatePriority defaultConfig 1000 999 0) = true.
Proof.
  apply X26_never_queried_is_evictable. unfold defaultConfig. cbn. lra.
Defined.

(** X27: the priority is never below the minimum priority, it does not
    decrease when the query count grows, and an entry is evictable exactly
    when the product of time decay and query factor is at most the
    minimum. *)
Theorem X27_priority_monotone_in_queries (c : config) (now lastAccessTime : Z)
    (queries1 queries2 : nat) :
  (queries1 <= queries2)%nat ->
  minimumPriority c <= calculatePriority c now lastAccessTime queries1 /\
  calculatePriority c now lastAccessTime queries1
  <= calculatePriority c now lastAccessTime queries2 /\
  (shouldEvict c (calculatePriority c now lastAccessTime queries1) = true <->
   exp (- decayFactor c * (IZR (now - lastAccessTime) / timeThreshold c))
   * ln (INR queries1 + 1) <= minimumPriority c).
Proof.
  intros Hq. unfold calculatePriority, shouldEvict.
  set (e := exp _).
  assert (He : 0 < e) by apply exp_pos.
  assert (Hln : ln (INR queries1 + 1) <= ln (INR queries2 + 1)).
  { assert (0 <= INR queries1) by apply pos_INR.
    assert (INR queries1 <= INR queries2) by (by apply le_INR).
    destruct (Req_dec (INR queries1) (INR queries2)) as [-> | Hne]; [lra |].
    left. apply ln_increasing; lra. }
  split; [apply Rmax_r |]. split.
  - apply Rle_max_compat_r. apply Rmult_le_compat_l; lra.
  - destruct (Rle_dec _ _) as [Hle | Hgt]; split; try done.
    + intros _. etrans; [apply Rmax_l | exact Hle].
    + intros Hprod. exfalso. apply Hgt. by apply Rmax_lub; [| lra].
Qed.

Lemma X27_priority_witness :
  calculatePriority defaultConfig 1000 999 1 <= calculatePriority defaultConfig 1000 999 5.
Proof.
  apply (X27_priority_monotone_in_queries defaultConfig 1000 999 1 5). lia.
Defined.

End TemporalDecayProperties.

Section ReadThroughProperties.

Import MultiLevelCache.
Context {V : Type}.
Implicit Types (db : gmap string (Redis.entry V)).

(** Invalidating the keys one by one removes exactly those keys. *)
Lemma lookup_invalidate_each db (ks : list string) (k : string) :
  foldl invalidate db ks !! k = if decide (k ∈ ks) then None else db !! k.
Proof.
  revert db. induction ks as [| k0 ks IH]; intros db.
  - destruct (decide (k ∈ [])) as [Hin |]; [by apply elem_of_nil in Hin | done].
  - cbn [foldl]. rewrite IH. unfold invalidate. rewrite lookup_del.
    destruct (decide (k ∈ ks)) as [Hin | Hnin].
    + rewrite decide_True by (by right). done.
    + destruct (decide (k ∈ [k0])) as [Hk | Hk].
      * apply list_elem_of_singleton in Hk as ->. rewrite decide_True by left. done.
      * rewrite decide_False; [done |].
        intros [-> | ?]%elem_of_cons; [| done]. apply Hk. left.
Qed.

(** X28: read-through. On a miss with a positive TTL, [get] calls the
    fallback once; a truthy answer is returned and stored, and until the
    TTL has passed every [get] of the key returns that stored answer
    without calling the fallback, whatever the database would answer by
    then. A falsy answer is returned and not stored. *)
Theorem X28_get_reads_through db (calls : nat) (now : Z) (key : string)
    (dbFallback : option V) (ttl : Z) :
  (0 < ttl)%Z ->
  Redis.get db now key = Some None ->
  let '(result, db1, calls1) := get db calls now key dbFallback ttl in
  result = dbFallback /\ calls1 = Datatypes.S calls /\
  (dbFallback = None -> db1 = db) /\
  (forall data later laterFallback ttl',
     dbFallback = Some data ->
     (now <= later < now + ttl * 1000)%Z ->
     get db1 calls1 later key laterFallback ttl' = (Some data, db1, calls1)).
Proof.
  intros Httl Hmiss. unfold get. rewrite Hmiss.
  destruct dbFallback as [data |]; [| by repeat split].
  unfold Redis.setEx. destruct (Z.leb_spec ttl 0); [lia |].
  split; [done |]. split; [done |]. split; [done |].
  intros data' later laterFallback ttl' [= <-] [Hle Hlt].
  unfold Redis.get, Redis.live. rewrite lookup_insert_eq.
  unfold Redis.expired. cbn [Redis.expireAt Redis.value].
  destruct (Z.leb_spec (now + ttl * 1000) later); [lia | done].
Qed.

(** What [KEYS] answers for a caller's pattern. *)
Lemma elem_of_keys_matching (matches : string -> string -> bool) db (now : Z)
    (pattern k : string) :
  k ∈ keys matches db now pattern <->
  matches pattern k = true /\ is_Some (Redis.live db now k).
Proof.
  unfold keys. rewrite list_elem_of_filter. split.
  - intros [Hk _]. exact Hk.
  - intros [Hm [e He]]. split; [by eauto |].
    apply live_Some in He as [Hk _].
    apply list_elem_of_fmap. exists (k, e). split; [done |].
    by apply elem_of_map_to_list.
Qed.

(** X29: [invalidateCache(pattern)] removes every live key that the
    server's matcher accepts for the pattern, so the next [get] of such a
    key goes to the database again, and leaves every key that the matcher
    rejects as it was. This holds for every matcher, so for the full glob
    language of [KEYS]. *)
Theorem X29_invalidateCache_by_pattern (matches : string -> string -> bool)
    db (now : Z) (pattern key : string) :
  let db' := invalidateCache matches db now pattern in
  (matches pattern key = true ->
   Redis.live db' now key = None /\
   forall calls dbFallback ttl,
     fst (fst (get db' calls now key dbFallback ttl)) = dbFallback /\
     (calls < snd (get db' calls now key dbFallback ttl))%nat) /\
  (matches pattern key = false -> db' !! key = db !! key).
Proof.
  intros db'.
  assert (Hlookup : db' !! key
                    = if decide (key ∈ keys matches db now pattern)
                      then None else db !! key).
  { subst db'. unfold invalidateCache.
    destruct (keys matches db now pattern) as [| k0 ks] eqn:Hkeys.
    - cbn. destruct (decide (key ∈ [])) as [Hin |]; [by apply elem_of_nil in Hin | done].
    - replace (0 <? Z.of_nat (length (k0 :: ks)))%Z with true
        by (symmetry; apply Z.ltb_lt; cbn [length]; lia).
      apply lookup_invalidate_each. }
  split.
  - intros Hm.
    assert (Hgone : Redis.live db' now key = None).
    { unfold Redis.live. rewrite Hlookup.
      destruct (decide _) as [| Hnot]; [done |].
      destruct (db !! key) as [e |] eqn:Hk; [| done].
      destruct (Redis.expired e now) eqn:He; [done |].
      exfalso. apply Hnot, elem_of_keys_matching. split; [done |].
      exists e. by apply live_intro. }
    split; [exact Hgone |].
    intros calls dbFallback ttl. unfold get, Redis.get. rewrite Hgone.
    destruct dbFallback as [data |]; [| cbn; split; [done | lia]].
    destruct (Redis.setEx db' now key ttl data); cbn; split; try done; lia.
  - intros Hm. rewrite Hlookup.
    destruct (decide _) as [Hin |]; [| done].
    apply elem_of_keys_matching in Hin as [Hyes _]. congruence.
Qed.

End ReadThroughProperties.

Lemma X28_get_witness :
  let '(_, db1, calls1) := MultiLevelCache.get (V := nat) ∅ 0 0 "geo:a" (Some 7%nat) 60 in
  MultiLevelCache.get db1 calls1 59999 "geo:a" None 60 = (Some 7%nat, db1, calls1).
Proof.
  pose proof (X28_get_reads_through (V := nat) ∅ 0 0 "geo:a" (Some 7%nat) 60) as H.
  assert (Httl : (0 < 60)%Z) by lia.
  specialize (H Httl eq_refl).
  destruct (MultiLevelCache.get ∅ 0 0 "geo:a" (Some 7%nat) 60) as [[r d] c].
  destruct H as (_ & _ & _ & Hlater). apply Hlater; [done | lia].
Defined.

Lemma X29_invalidateCache_witness :
  let db : gmap string (Redis.entry nat) :=
    {[ "nearbyLocations:1" := Redis.Entry (Redis.RString 7%nat) None;
       "pagedData:1" := Redis.Entry (Redis.RString 8%nat) None ]} in
  let db' := MultiLevelCache.invalidateCache Redis.glob_match db 0 "nearbyLocations:*" in
  Redis.live db' 0 "nearbyLocations:1" = None /\
  db' !! "pagedData:1" = db !! "pagedData:1".
Proof.
  intros db db'.
  pose proof (X29_invalidateCache_by_pattern Redis.glob_match db 0
                "nearbyLocations:*" "nearbyLocations:1") as [Hgone _].
  pose proof (X29_invalidateCache_by_pattern Redis.glob_match db 0
                "nearbyLocations:*" "pagedData:1") as [_ Hkept].
  split; [apply Hgone | apply Hkept]; reflexivity.
Defined.


(** ** Write then read of a record that is not dated in the future *)

Section RoundTripProperties.

Import Decay.
Context {V : Type}.
Implicit Types (db : gmap string (Redis.entry (bucket V))) (k : string).

(** X30: put then get of a record that is not dated in the future. Whatever
    the store held and whatever the badges, a read before the TTL of the
    write has passed returns the payload, counts one hit and changes no
    key: within its TTL such a bucket never degrades below 0.7 x its
    written score, not even when the record crosses the 7-day or the 30-day
    band between the write and the read. *)
Theorem X30_put_then_get_returns_payload db (hits : Z) k (v : V) (d : Z)
    (a : attributes) (tw tr : Z) :
  (d <= tw)%Z ->
  let ttl := calculateDynamicTTL (calculateTemporalScore tw d a) defaultBaseTime in
  let db1 := snd (setCacheWithTemporalDecay db tw k v d a) in
  (tw <= tr < tw + ttl * 1000)%Z ->
  getCacheWithTemporalCheck (State db1 hits) tr k = (Some v, State db1 (hits + 1)).
Proof.
  intros Hd ttl db1 Htr.
  pose proof (past_ttl_upper tw d a Hd) as Hupper. fold ttl in Hupper.
  destruct (setCache_then_getCache db hits k v d a tw tr) as [_ Hfresh].
  - fold ttl. unfold maxExpireSeconds. lia.
  - exact Htr.
  - apply Hfresh. apply past_bucket_not_degraded; [exact Hd | lia].
Qed.

End RoundTripProperties.

(** A record added at instant 0, written one second before it is seven days
    old and read one second after. *)
Lemma X30_put_then_get_witness :
  let db1 := snd (Decay.setCacheWithTemporalDecay (V := nat) ∅ 604799000 "geo:dr5r7:2"
                    7%nat 0 Decay.noAttributes) in
  Decay.getCacheWithTemporalCheck (Decay.State db1 0) 604801000 "geo:dr5r7:2"
  = (Some 7%nat, Decay.State db1 1).
Proof.
  intros db1.
  apply (X30_put_then_get_returns_payload (V := nat) ∅ 0 "geo:dr5r7:2" 7%nat 0
           Decay.noAttributes 604799000 604801000).
  - lia.
  - pose proof (calculateDynamicTTL_lower 604799000 0 Decay.noAttributes). lia.
Defined.
